(** * Brightdata proxy rotation: a shallow embedding of the middleware core

    The development follows the Python sources

      - [config/brightdata_config.py]   (BrightdataConfig, BrightdataConfigManager)
      - [middlewares/proxy_manager.py]  (ProxyMetrics, ProxySession, ProxyRotator, ProxyManager)
      - [middlewares/brightdata_proxy.py] (BrightdataProxyMiddleware)

    Python objects become records, [dict]s become insertion-ordered
    association lists, mutation becomes state passing, and exceptions
    become an outcome of the computation.  Everything the code reads from
    outside (wall clock, random numbers, the md5 digest of session ids,
    the per-process string hash) is read from an explicit [World]. *)

From Stdlib Require Import ZArith QArith Qround Bool List String Ascii DecimalString Lia.
Import ListNotations.
Open Scope string_scope.
Open Scope Z_scope.

Set Implicit Arguments.

(** ** Python values and exceptions *)

(** The values stored in [request.meta]: a [Dict[str, Any]] restricted to
    the kinds of values the middleware and its callers put there.  A
    float is counted in millionths (a [time.time()] is a number of
    microseconds), a [datetime] in microseconds since the epoch. *)
Inductive Value :=
| VNone
| VBool (b : bool)
| VInt (n : Z)
| VStr (s : string)
| VFloat (millionths : Z)
| VDatetime (t : Z).

(** Python truthiness, as used by [if request.meta.get(...)]. *)
Definition truthy (v : Value) : bool :=
  match v with
  | VNone => false
  | VBool b => b
  | VInt n => negb (n =? 0)
  | VStr s => negb (s =? "")%string
  | VFloat x => negb (x =? 0)
  | VDatetime _ => true
  end.

Inductive exn :=
| TypeError
| ValueError
| IndexError
| ZeroDivisionError
| NotConfigured.

(** What running a piece of code ends in: a value, a raised exception, or
    (for the one unbounded loop of the code) no result within the given
    number of iterations. *)
Inductive Outcome (A : Type) :=
| Return (a : A)
| Raise (e : exn)
| OutOfFuel.
Arguments Return {A} a.
Arguments Raise {A} e.
Arguments OutOfFuel {A}.

(** What a plain call without loops ends in. *)
Inductive Result (A : Type) :=
| Ok (a : A)
| Error (e : exn).
Arguments Ok {A} a.
Arguments Error {A} e.

Definition returns {A} (o : Outcome A) : bool :=
  match o with Return _ => true | _ => false end.

(** The code came to an end, normally or by an exception. *)
Definition settles {A} (o : Outcome A) : bool :=
  match o with OutOfFuel => false | _ => true end.

(** ** Insertion-ordered dictionaries *)

Module Dict.

Definition t (V : Type) := list (string * V).

Definition empty {V} : t V := [].

Fixpoint get {V} (k : string) (d : t V) : option V :=
  match d with
  | [] => None
  | (k', v) :: d' => if (k =? k')%string then Some v else get k d'
  end.

(** [k in d] *)
Definition mem {V} (k : string) (d : t V) : bool :=
  match get k d with Some _ => true | None => false end.

(** [d[k] = v]: an existing key keeps its position, a new one goes last. *)
Fixpoint set {V} (k : string) (v : V) (d : t V) : t V :=
  match d with
  | [] => [(k, v)]
  | (k', v') :: d' =>
      if (k =? k')%string then (k, v) :: d' else (k', v') :: set k v d'
  end.

(** [del d[k]] and [d.pop(k, None)] *)
Fixpoint del {V} (k : string) (d : t V) : t V :=
  match d with
  | [] => []
  | (k', v') :: d' =>
      if (k =? k')%string then del k d' else (k', v') :: del k d'
  end.

(** [d.items()], in insertion order.  A dictionary holds a key once; in a
    list that repeats a key, only the first entry counts ([get] finds it,
    [set] replaces it, [del] drops them all), so the later ones are left
    out here. *)
Fixpoint items {V} (d : t V) : list (string * V) :=
  match d with
  | [] => []
  | (k, v) :: d' => (k, v) :: filter (fun kv => negb (fst kv =? k)%string) (items d')
  end.

Definition values {V} (d : t V) : list V := map snd (items d).
Definition keys {V} (d : t V) : list string := map fst (items d).
Definition len {V} (d : t V) : nat := List.length (items d).

(** [d.update(other)] *)
Definition update {V} (d other : t V) : t V :=
  fold_left (fun acc kv => set (fst kv) (snd kv) acc) other d.

End Dict.

(** ** The outside world *)

(** Every [datetime.now()] and [time.time()] takes the next reading of the
    wall clock (in microseconds); every [_generate_session_id] takes the
    next digest; every [random.uniform] / [random.choice] takes the next
    random fraction of [0, 1].  [str_hash] is the built-in [hash] on
    strings, fixed for the life of the process. *)
Record World := mkWorld {
  clock : nat -> Z;
  reads : nat;
  digests : nat -> string;
  drawn : nat;
  randoms : nat -> Q;
  rolls : nat;
  str_hash : string -> Z;
}.

(** ** Stateful code that may raise *)

(** A method running on an object of type [S].  The state is returned in
    every case: what a Python method has mutated stays mutated when it
    raises. *)
Definition M (S A : Type) := S -> World -> Outcome A * S * World.

Definition ret {S A} (a : A) : M S A := fun s w => (Return a, s, w).

Definition bind {S A B} (m : M S A) (f : A -> M S B) : M S B :=
  fun s w =>
    match m s w with
    | (Return a, s', w') => f a s' w'
    | (Raise e, s', w') => (Raise e, s', w')
    | (OutOfFuel, s', w') => (OutOfFuel, s', w')
    end.

Definition raise {S A} (e : exn) : M S A := fun s w => (Raise e, s, w).
Definition get_self {S} : M S S := fun s w => (Return s, s, w).
Definition put_self {S} (s : S) : M S unit := fun _ w => (Return tt, s, w).
Definition modify {S} (f : S -> S) : M S unit := fun s w => (Return tt, f s, w).
Definition out_of_fuel {S A} : M S A := fun s w => (OutOfFuel, s, w).

Declare Scope py_scope.
Delimit Scope py_scope with py.
Notation "x <- c1 ;; c2" := (bind c1 (fun x => c2))
  (at level 61, c1 at next level, right associativity) : py_scope.
Notation "c1 ;; c2" := (bind c1 (fun _ => c2))
  (at level 61, right associativity) : py_scope.
Open Scope py_scope.

Definition outcome_of {A S} (r : Outcome A * S * World) : Outcome A := fst (fst r).
Definition state_of {A S} (r : Outcome A * S * World) : S := snd (fst r).
Definition world_of {A S} (r : Outcome A * S * World) : World := snd r.

(** [datetime.now()], also standing for [time.time()]. *)
Definition now {S} : M S Z :=
  fun s w =>
    (Return (clock w (reads w)), s,
     mkWorld (clock w) (Datatypes.S (reads w)) (digests w) (drawn w) (randoms w) (rolls w) (str_hash w)).

(** [random.random()] *)
Definition random {S} : M S Q :=
  fun s w =>
    (Return (randoms w (rolls w)), s,
     mkWorld (clock w) (reads w) (digests w) (drawn w) (randoms w) (Datatypes.S (rolls w)) (str_hash w)).

(** The first sixteen hex digits of the md5 digest that
    [_generate_session_id] computes from the time and a random number. *)
Definition next_digest {S} : M S string :=
  fun s w =>
    (Return (digests w (drawn w)), s,
     mkWorld (clock w) (reads w) (digests w) (Datatypes.S (drawn w)) (randoms w) (rolls w) (str_hash w)).

(** A list comprehension [[x for x in xs if p(x)]] whose test has effects. *)
Fixpoint filterM {S A} (p : A -> M S bool) (xs : list A) : M S (list A) :=
  match xs with
  | [] => ret []
  | x :: xs' =>
      b <- p x ;;
      rest <- filterM p xs' ;;
      ret (if b then x :: rest else rest)
  end.

(** A [for] loop over a list. *)
Fixpoint forM_ {S A} (xs : list A) (body : A -> M S unit) : M S unit :=
  match xs with
  | [] => ret tt
  | x :: xs' => body x ;; forM_ xs' body
  end.

(** Running a method of a component object stored in a field. *)
Definition on_field {S T A} (proj : S -> T) (upd : T -> S -> S) (m : M T A) : M S A :=
  fun s w =>
    match m (proj s) w with
    | (o, t', w') => (o, upd t' s, w')
    end.

(** Running a method on an object held in a local variable; the object as
    the method leaves it is handed back with the result. *)
Definition call_on {S T A} (obj : T) (m : M T A) : M S (A * T) :=
  fun s w =>
    match m obj w with
    | (Return a, obj', w') => (Return (a, obj'), s, w')
    | (Raise e, _, w') => (Raise e, s, w')
    | (OutOfFuel, _, w') => (OutOfFuel, s, w')
    end.

(** The builtin [hash(s)] on a string. *)
Definition hash {S} (s : string) : M S Z :=
  fun st w => (Return (str_hash w s), st, w).

(** ** Time *)

(** A [datetime] is its number of microseconds since the epoch, a
    [timedelta] a signed number of microseconds. *)
Definition microseconds_per_second : Z := 1000000.
Definition seconds_per_day : Z := 86400.

(** [timedelta(minutes=m)] *)
Definition timedelta_minutes (m : Z) : Z := m * 60 * microseconds_per_second.

(** [td.seconds]: the seconds field of the normalised (days, seconds,
    microseconds) triple, always between 0 and 86399. *)
Definition timedelta_seconds (td : Z) : Z :=
  (td / microseconds_per_second) mod seconds_per_day.

(** Python floats are modelled by exact rationals. *)
Definition Qltb (x y : Q) : bool := negb (Qle_bool y x).

(** [s[:n]] on a [str]. *)
Definition str_prefix (n : nat) (s : string) : string := String.substring 0 n s.

(** ** config/brightdata_config.py *)

Module BrightdataConfig.

Record t := mk {
  username : string;
  password : string;
  endpoint : string;
  port : Z;
  zone : string;
  country : string;
}.

(** The fields the [@dataclass] declares; the generated [__init__] takes
    exactly these as keyword arguments. *)
Definition fields : list string :=
  ["username"; "password"; "endpoint"; "port"; "zone"; "country"].

Definition accepts_keyword (kw : string) : bool :=
  existsb (String.eqb kw) fields.

(** [__post_init__]: [all([username, password, endpoint, port, zone])] *)
Definition __post_init__ (self : t) : Result t :=
  if negb (negb (username self =? "")%string
           && negb (password self =? "")%string
           && negb (endpoint self =? "")%string
           && negb (port self =? 0)
           && negb (zone self =? "")%string)
  then Error ValueError
  else Ok self.

(** The fields without a default. *)
Definition required : list string :=
  ["username"; "password"; "endpoint"; "port"; "zone"].

(** A call [BrightdataConfig(k1=..., k2=..., ...)] with the keywords
    [keywords]: a keyword that is not a field, or a required field that is
    not given, is a [TypeError] before the body of [__init__] runs;
    otherwise the fields are stored and [__post_init__] validates them.
    All the call sites of the sources give the six fields, so [self] holds
    the values passed for them. *)
Definition call (keywords : list string) (self : t) : Result t :=
  if negb (forallb accepts_keyword keywords) then Error TypeError
  else if negb (forallb (fun field => existsb (String.eqb field) keywords) required)
       then Error TypeError
       else __post_init__ self.

(** [str(port)] *)
Definition str_of_int (n : Z) : string := NilZero.string_of_int (Z.to_int n).

Definition proxy_url (self : t) : string :=
  let auth := username self ++ ":" ++ password self in
  "http://" ++ auth ++ "@" ++ endpoint self ++ ":" ++ str_of_int (port self).

End BrightdataConfig.

Module BrightdataConfigManager.

(** [USE_PROXIES] is what [os.getenv('USE_PROXIES', 'false')] returns. *)
Record t := mk {
  configs : Dict.t BrightdataConfig.t;
  current_config_name : string;
  USE_PROXIES : string;
}.

(** ASCII lower-casing, for [str.lower()]. *)
Definition lower_ascii (c : ascii) : ascii :=
  let n := nat_of_ascii c in
  if (65 <=? n)%nat && (n <=? 90)%nat then ascii_of_nat (n + 32) else c.

Fixpoint lower (s : string) : string :=
  match s with
  | EmptyString => EmptyString
  | String c s' => String (lower_ascii c) (lower s')
  end.

(** [_load_from_environment], given the six strings read from the
    environment with the port already parsed: a [ValueError] of the
    constructor is caught and leaves [configs] empty. *)
Definition _load_from_environment (env : BrightdataConfig.t) (self : t) : t :=
  match BrightdataConfig.call
          ["username"; "password"; "endpoint"; "port"; "zone"; "country"] env with
  | Ok default_config =>
      mk (Dict.set "default" default_config (configs self))
         (current_config_name self) (USE_PROXIES self)
  | Error _ => self
  end.

Definition __init__ (env : BrightdataConfig.t) (use_proxies : string) : t :=
  _load_from_environment env (mk Dict.empty "default" use_proxies).

(** [get_config()] with [name = None] *)
Definition get_config (self : t) : option BrightdataConfig.t :=
  Dict.get (current_config_name self) (configs self).

Definition is_enabled (self : t) : bool :=
  let use_proxies := (lower (USE_PROXIES self) =? "true")%string in
  let has_config := match get_config self with Some _ => true | None => false end in
  if use_proxies && negb has_config then false
  else use_proxies && has_config.

Definition add_config (name : string) (config : BrightdataConfig.t) (self : t) : t :=
  mk (Dict.set name config (configs self)) (current_config_name self) (USE_PROXIES self).

(** [get_config(name)]: [name or self.current_config_name], so that the
    empty name stands for the current one as [None] does. *)
Definition get_config_named (name : option string) (self : t) : option BrightdataConfig.t :=
  let config_name :=
    match name with
    | Some n => if (n =? "")%string then current_config_name self else n
    | None => current_config_name self
    end in
  Dict.get config_name (configs self).

Definition set_current_config (name : string) (self : t) : t :=
  if Dict.mem name (configs self)
  then mk (configs self) name (USE_PROXIES self)
  else self.

Definition get_available_configs (self : t) : list string := Dict.keys (configs self).

(** The calls that change a configuration manager once it is loaded. *)
Inductive Op :=
| AddConfig (name : string) (config : BrightdataConfig.t)
| SetCurrentConfig (name : string).

Definition call (op : Op) (self : t) : t :=
  match op with
  | AddConfig name config => add_config name config self
  | SetCurrentConfig name => set_current_config name self
  end.

Definition calls (ops : list Op) (self : t) : t := fold_left (fun self op => call op self) ops self.

End BrightdataConfigManager.

(** ** middlewares/proxy_manager.py *)

Module ProxyMetrics.

Record t := mk {
  requests_sent : Z;
  successful_requests : Z;
  failed_requests : Z;
  blocked_requests : Z;
  timeout_requests : Z;
  last_used : option Z;
  last_success : option Z;
  last_failure : option Z;
  average_response_time : Q;
  response_times : list Q;
}.

(** [ProxyMetrics()], the factory of the [defaultdict]. *)
Definition default : t := mk 0 0 0 0 0 None None None 0%Q [].

Definition success_rate (self : t) : Q :=
  if requests_sent self =? 0 then 100%Q
  else ((inject_Z (successful_requests self) / inject_Z (requests_sent self)) * 100)%Q.

(** [is_healthy] with the reading [now] of [datetime.now()] it would take. *)
Definition is_healthy_at (now : Z) (self : t) : bool :=
  if Qltb (success_rate self) 80%Q then false
  else match last_success self with
       | Some t => now - t <? timedelta_minutes 5
       | None => requests_sent self <? 5
       end.

(** The property itself: the clock is read only on the branch that uses it. *)
Definition is_healthy {S} (self : t) : M S bool :=
  if Qltb (success_rate self) 80%Q then ret false
  else match last_success self with
       | Some t => n <- now ;; ret (n - t <? timedelta_minutes 5)
       | None => ret (requests_sent self <? 5)
       end.

(** [deque(maxlen=100).append(x)] *)
Definition deque_append (maxlen : nat) (x : Q) (d : list Q) : list Q :=
  let d' := (d ++ [x])%list in
  if (maxlen <? List.length d')%nat then tl d' else d'.

Definition Qsum (l : list Q) : Q := fold_left Qplus l 0%Q.

End ProxyMetrics.

Module ProxySession.

Record t := mk {
  session_id : string;
  config : BrightdataConfig.t;
  created_at : Z;
  last_used : Z;
  requests_count : Z;
  max_requests : Z;
  max_duration : Z;
}.

(** The dataclass defaults [requests_count=0, max_requests=100, max_duration=3600]. *)
Definition new (session_id : string) (config : BrightdataConfig.t)
    (created_at last_used : Z) : t :=
  mk session_id config created_at last_used 0 100 3600.

(** [is_expired] with the reading [now] of [datetime.now()] it takes. *)
Definition is_expired_at (now : Z) (self : t) : bool :=
  let duration_expired := max_duration self <? timedelta_seconds (now - created_at self) in
  let requests_exceeded := max_requests self <=? requests_count self in
  duration_expired || requests_exceeded.

Definition is_expired {S} (self : t) : M S bool :=
  n <- now ;; ret (is_expired_at n self).

Definition proxy_url (self : t) : string := BrightdataConfig.proxy_url (config self).

Definition use : M t unit :=
  n <- now ;;
  modify (fun self => mk (session_id self) (config self) (created_at self) n
                         (requests_count self + 1) (max_requests self) (max_duration self)).

End ProxySession.

(** A [defaultdict(ProxyMetrics)]: [d[k]] on a missing key stores and
    returns a fresh [ProxyMetrics()]; [k in d] and [d.get] do not. *)
Definition getitem_default (k : string) : M (Dict.t ProxyMetrics.t) ProxyMetrics.t :=
  d <- get_self ;;
  match Dict.get k d with
  | Some m => ret m
  | None => put_self (Dict.set k ProxyMetrics.default d) ;; ret ProxyMetrics.default
  end.

(** A reference to a session object held in [ProxyManager.sessions]: the
    key it is stored under, and the object as it is when the reference is
    taken. *)
Definition SessionRef : Type := string * ProxySession.t.

Module ProxyRotator.

Record t := mk {
  rotation_strategy : string;
  current_index : Z;
  last_rotation : Z;
}.

(** [select_next] and its helpers run on the rotator and on the metrics
    dictionary it is handed by reference. *)
Definition St : Type := t * Dict.t ProxyMetrics.t.

Definition metrics_getitem (k : string) : M St ProxyMetrics.t :=
  on_field snd (fun d (st : St) => (fst st, d)) (getitem_default k).

Definition __init__ (rotation_strategy : string) : M unit t :=
  n <- now ;; ret (mk rotation_strategy 0 n).

(** [min(proxy_sessions, key=lambda s: s.requests_count)]: the first of
    the sessions with the least count. *)
Fixpoint min_requests (best : SessionRef) (rest : list SessionRef) : SessionRef :=
  match rest with
  | [] => best
  | s :: rest' =>
      if ProxySession.requests_count (snd s) <? ProxySession.requests_count (snd best)
      then min_requests s rest'
      else min_requests best rest'
  end.

Definition _round_robin_select (sessions : list SessionRef) : M St SessionRef :=
  st <- get_self ;;
  let self := fst st in
  if (List.length sessions =? 0)%nat then raise ZeroDivisionError
  else
    match nth_error sessions
            (Z.to_nat (current_index self mod Z.of_nat (List.length sessions))) with
    | None => raise IndexError
    | Some session =>
        modify (fun st : St =>
                  (mk (rotation_strategy (fst st)) (current_index (fst st) + 1)
                      (last_rotation (fst st)), snd st)) ;;
        ret session
    end.

(** The first loop of [_weighted_select]. *)
Fixpoint weights_of (sessions : list SessionRef) : M St (list Q) :=
  match sessions with
  | [] => ret []
  | session :: rest =>
      metric <- metrics_getitem (ProxySession.session_id (snd session)) ;;
      let success_weight := (ProxyMetrics.success_rate metric / 100)%Q in
      if ProxySession.requests_count (snd session) + 1 =? 0 then raise ZeroDivisionError
      else
        let usage_weight := (1 / inject_Z (ProxySession.requests_count (snd session) + 1))%Q in
        let total_weight := (success_weight * usage_weight)%Q in
        ws <- weights_of rest ;;
        ret (total_weight :: ws)
  end.

(** The second loop: the first session at which the running sum of the
    weights reaches [rand_val]. *)
Fixpoint pick_weighted (rand_val current_weight : Q) (weights : list Q)
    (sessions : list SessionRef) : option SessionRef :=
  match weights, sessions with
  | weight :: ws, s :: ss =>
      let current_weight := (current_weight + weight)%Q in
      if Qle_bool rand_val current_weight then Some s
      else pick_weighted rand_val current_weight ws ss
  | _, _ => None
  end.

Definition _weighted_select (sessions : list SessionRef) : M St SessionRef :=
  weights <- weights_of sessions ;;
  let total_weight := ProxyMetrics.Qsum weights in
  if Qeq_bool total_weight 0 then
    match sessions with
    | s :: _ => ret s
    | [] => raise IndexError
    end
  else
    u <- random ;;
    let rand_val := (0 + (total_weight - 0) * u)%Q in
    match pick_weighted rand_val 0 weights sessions with
    | Some s => ret s
    | None =>
        match rev sessions with
        | s :: _ => ret s
        | [] => raise IndexError
        end
    end.

(** [random.choice(seq)] *)
Definition random_choice (sessions : list SessionRef) : M St SessionRef :=
  u <- random ;;
  match nth_error sessions
          (Z.to_nat (Qfloor (u * inject_Z (Z.of_nat (List.length sessions))))) with
  | Some s => ret s
  | None => raise IndexError
  end.

Definition healthy (session : SessionRef) : M St bool :=
  expired <- ProxySession.is_expired (snd session) ;;
  if expired then ret false
  else
    metric <- metrics_getitem (ProxySession.session_id (snd session)) ;;
    ProxyMetrics.is_healthy metric.

Definition select_next (proxy_sessions : list SessionRef) : M St (option SessionRef) :=
  match proxy_sessions with
  | [] => ret None
  | first :: others =>
      healthy_sessions <- filterM healthy proxy_sessions ;;
      match healthy_sessions with
      | [] => ret (Some (min_requests first others))
      | h :: _ =>
          st <- get_self ;;
          let strategy := rotation_strategy (fst st) in
          if (strategy =? "round_robin")%string then
            s <- _round_robin_select healthy_sessions ;; ret (Some s)
          else if (strategy =? "weighted")%string then
            s <- _weighted_select healthy_sessions ;; ret (Some s)
          else if (strategy =? "random")%string then
            s <- random_choice healthy_sessions ;; ret (Some s)
          else ret (Some h)
      end
  end.

End ProxyRotator.

Module ProxyManager.

Record t := mk {
  config_manager : BrightdataConfigManager.t;
  max_sessions : Z;
  rotation_interval : Z;
  sessions : Dict.t ProxySession.t;
  session_order : list string;
  metrics : Dict.t ProxyMetrics.t;
  rotator : ProxyRotator.t;
  requests_since_rotation : Z;
  blacklisted_sessions : Dict.t Z;
  blacklist_duration : Z;
}.

Definition set_sessions (v : Dict.t ProxySession.t) (self : t) : t :=
  mk (config_manager self) (max_sessions self) (rotation_interval self) v
     (session_order self) (metrics self) (rotator self)
     (requests_since_rotation self) (blacklisted_sessions self) (blacklist_duration self).

Definition set_session_order (v : list string) (self : t) : t :=
  mk (config_manager self) (max_sessions self) (rotation_interval self) (sessions self)
     v (metrics self) (rotator self)
     (requests_since_rotation self) (blacklisted_sessions self) (blacklist_duration self).

Definition set_metrics (v : Dict.t ProxyMetrics.t) (self : t) : t :=
  mk (config_manager self) (max_sessions self) (rotation_interval self) (sessions self)
     (session_order self) v (rotator self)
     (requests_since_rotation self) (blacklisted_sessions self) (blacklist_duration self).

Definition set_rotator (v : ProxyRotator.t) (self : t) : t :=
  mk (config_manager self) (max_sessions self) (rotation_interval self) (sessions self)
     (session_order self) (metrics self) v
     (requests_since_rotation self) (blacklisted_sessions self) (blacklist_duration self).

Definition set_requests_since_rotation (v : Z) (self : t) : t :=
  mk (config_manager self) (max_sessions self) (rotation_interval self) (sessions self)
     (session_order self) (metrics self) (rotator self)
     v (blacklisted_sessions self) (blacklist_duration self).

Definition set_blacklisted_sessions (v : Dict.t Z) (self : t) : t :=
  mk (config_manager self) (max_sessions self) (rotation_interval self) (sessions self)
     (session_order self) (metrics self) (rotator self)
     (requests_since_rotation self) v (blacklist_duration self).

(** [ProxyManager(max_sessions, rotation_interval)]; the global
    configuration manager is handed in. *)
Definition __init__ (config_manager : BrightdataConfigManager.t)
    (max_sessions rotation_interval : Z) : M unit t :=
  rotator <- ProxyRotator.__init__ "weighted" ;;
  ret (mk config_manager max_sessions rotation_interval
          Dict.empty [] Dict.empty rotator 0 Dict.empty (timedelta_minutes 30)).

(** [lst.remove(x)]: drops the first occurrence. *)
Fixpoint list_remove (x : string) (l : list string) : list string :=
  match l with
  | [] => []
  | y :: l' => if (x =? y)%string then l' else y :: list_remove x l'
  end.

Definition list_mem (x : string) (l : list string) : bool :=
  existsb (String.eqb x) l.

(** The constructor call of [_ensure_sessions]:
    [BrightdataConfig(username=config.username, ..., country=config.country,
    session_id=session_id)]. *)
Definition session_config_call (config : BrightdataConfig.t) (session_id : string)
    : Result BrightdataConfig.t :=
  BrightdataConfig.call
    ["username"; "password"; "endpoint"; "port"; "zone"; "country"; "session_id"]
    (BrightdataConfig.mk
       (BrightdataConfig.username config) (BrightdataConfig.password config)
       (BrightdataConfig.endpoint config) (BrightdataConfig.port config)
       (BrightdataConfig.zone config) (BrightdataConfig.country config)).

Definition _generate_session_id : M t string :=
  session_hash <- next_digest ;;
  ret ("scraper-" ++ session_hash).

Definition with_rotator_and_metrics {A} (m : M ProxyRotator.St A) : M t A :=
  on_field (fun self => (rotator self, metrics self))
           (fun st self => set_metrics (snd st) (set_rotator (fst st) self)) m.

Definition _blacklist_session (session_id : string) : M t unit :=
  n <- now ;;
  modify (fun self => set_blacklisted_sessions
                        (Dict.set session_id n (blacklisted_sessions self)) self) ;;
  modify (fun self => if Dict.mem session_id (sessions self)
                      then set_sessions (Dict.del session_id (sessions self)) self
                      else self) ;;
  modify (fun self => if list_mem session_id (session_order self)
                      then set_session_order (list_remove session_id (session_order self)) self
                      else self).

Definition _cleanup_expired : M t unit :=
  self <- get_self ;;
  expired_sessions <-
    filterM (fun it : string * ProxySession.t => ProxySession.is_expired (snd it))
            (Dict.items (sessions self)) ;;
  forM_ (map fst expired_sessions) (fun session_id =>
    modify (fun self => set_sessions (Dict.del session_id (sessions self)) self) ;;
    modify (fun self => if list_mem session_id (session_order self)
                        then set_session_order (list_remove session_id (session_order self)) self
                        else self)) ;;
  n <- now ;;
  self <- get_self ;;
  let expired_blacklist :=
    filter (fun it : string * Z => blacklist_duration self <? n - snd it)
           (Dict.items (blacklisted_sessions self)) in
  forM_ (map fst expired_blacklist) (fun session_id =>
    modify (fun self => set_blacklisted_sessions
                          (Dict.del session_id (blacklisted_sessions self)) self)).

Definition record_success (session_id : string) (response_time : Q) : M t unit :=
  self <- get_self ;;
  match Dict.get session_id (metrics self) with
  | None => ret tt
  | Some metric =>
      used <- now ;;
      succeeded <- now ;;
      let response_times :=
        if Qltb 0 response_time
        then ProxyMetrics.deque_append 100 response_time (ProxyMetrics.response_times metric)
        else ProxyMetrics.response_times metric in
      let average_response_time :=
        if Qltb 0 response_time
        then (ProxyMetrics.Qsum response_times
              / inject_Z (Z.of_nat (List.length response_times)))%Q
        else ProxyMetrics.average_response_time metric in
      modify (fun self => set_metrics
        (Dict.set session_id
           (ProxyMetrics.mk
              (ProxyMetrics.requests_sent metric + 1)
              (ProxyMetrics.successful_requests metric + 1)
              (ProxyMetrics.failed_requests metric)
              (ProxyMetrics.blocked_requests metric)
              (ProxyMetrics.timeout_requests metric)
              (Some used) (Some succeeded)
              (ProxyMetrics.last_failure metric)
              average_response_time response_times)
           (metrics self)) self)
  end.

Definition record_failure (session_id : string) (error_type : string) : M t unit :=
  self <- get_self ;;
  match Dict.get session_id (metrics self) with
  | None => ret tt
  | Some metric =>
      used <- now ;;
      failed <- now ;;
      let metric :=
        ProxyMetrics.mk
          (ProxyMetrics.requests_sent metric + 1)
          (ProxyMetrics.successful_requests metric)
          (ProxyMetrics.failed_requests metric + 1)
          (if (error_type =? "blocked")%string
           then ProxyMetrics.blocked_requests metric + 1
           else ProxyMetrics.blocked_requests metric)
          (if (error_type =? "blocked")%string
           then ProxyMetrics.timeout_requests metric
           else if (error_type =? "timeout")%string
                then ProxyMetrics.timeout_requests metric + 1
                else ProxyMetrics.timeout_requests metric)
          (Some used)
          (ProxyMetrics.last_success metric)
          (Some failed)
          (ProxyMetrics.average_response_time metric)
          (ProxyMetrics.response_times metric) in
      modify (fun self => set_metrics (Dict.set session_id metric (metrics self)) self) ;;
      if Qltb (ProxyMetrics.success_rate metric) 50 && (10 <? ProxyMetrics.requests_sent metric)
      then _blacklist_session session_id
      else ret tt
  end.

(** [round(x, ndigits)], to the nearest multiple of [10^-ndigits], ties
    to the even one. *)
Definition round_half_even (x : Q) : Z :=
  let f := Qfloor x in
  let r := (x - inject_Z f)%Q in
  if Qltb r (1 # 2) then f
  else if Qltb (1 # 2) r then f + 1
  else if Z.even f then f else f + 1.

Definition py_round (x : Q) (ndigits : Z) : Q :=
  (inject_Z (round_half_even (x * inject_Z (10 ^ ndigits))) / inject_Z (10 ^ ndigits))%Q.

Record SessionDetail := mkSessionDetail {
  detail_id : string;
  detail_requests : Z;
  detail_success_rate : Q;
  detail_created_minutes_ago : Q;
}.

Record Stats := mkStats {
  stats_enabled : bool;
  stats_active_sessions : Z;
  stats_total_sessions : Z;
  stats_blacklisted_sessions : Z;
  stats_max_sessions : Z;
  stats_rotation_interval : Z;
  stats_requests_since_rotation : Z;
  stats_total_requests : Z;
  stats_successful_requests : Z;
  stats_failed_requests : Z;
  stats_overall_success_rate : Q;
  stats_session_details : list SessionDetail;
}.

Definition Zsum (l : list Z) : Z := fold_left Z.add l 0.

(** The comprehension that builds ["session_details"]; it reads
    [self.metrics[s.session_id]] and the clock for every session. *)
Fixpoint session_details (active_sessions : list ProxySession.t) : M t (list SessionDetail) :=
  match active_sessions with
  | [] => ret []
  | s :: rest =>
      metric <- on_field metrics set_metrics (getitem_default (ProxySession.session_id s)) ;;
      n <- now ;;
      let detail :=
        mkSessionDetail
          (str_prefix 8 (ProxySession.session_id s))
          (ProxySession.requests_count s)
          (py_round (ProxyMetrics.success_rate metric) 2)
          (py_round (inject_Z (timedelta_seconds (n - ProxySession.created_at s)) / 60)%Q 1) in
      details <- session_details rest ;;
      ret (detail :: details)
  end.

Definition get_stats : M t Stats :=
  self <- get_self ;;
  active_sessions <-
    filterM (fun s : ProxySession.t => e <- ProxySession.is_expired s ;; ret (negb e))
            (Dict.values (sessions self)) ;;
  let total_requests := Zsum (map ProxyMetrics.requests_sent (Dict.values (metrics self))) in
  let total_successful :=
    Zsum (map ProxyMetrics.successful_requests (Dict.values (metrics self))) in
  let total_failed := Zsum (map ProxyMetrics.failed_requests (Dict.values (metrics self))) in
  let overall_success_rate :=
    if 0 <? total_requests
    then (inject_Z total_successful / inject_Z total_requests * 100)%Q
    else 0%Q in
  details <- session_details active_sessions ;;
  ret (mkStats
         (BrightdataConfigManager.is_enabled (config_manager self))
         (Z.of_nat (List.length active_sessions))
         (Z.of_nat (Dict.len (sessions self)))
         (Z.of_nat (Dict.len (blacklisted_sessions self)))
         (max_sessions self)
         (rotation_interval self)
         (requests_since_rotation self)
         total_requests total_successful total_failed
         (py_round overall_success_rate 2)
         details).

Section SessionCreation.

(** The call that builds the configuration of a new session from the
    current one and the session id.  The code of [_ensure_sessions] makes
    it with [session_config_call]; the definitions take it as a parameter
    so that what is proved about the pool does not lean on how that call
    ends. *)
Variable session_config : BrightdataConfig.t -> string -> Result BrightdataConfig.t.

(** The [while active_count < self.max_sessions] loop; [fuel] bounds the
    number of times its body is entered. *)
Fixpoint ensure_loop (fuel : nat) (config : BrightdataConfig.t) (active_count : Z)
    : M t unit :=
  self <- get_self ;;
  if active_count <? max_sessions self then
    match fuel with
    | O => out_of_fuel
    | S fuel' =>
        session_id <- _generate_session_id ;;
        self <- get_self ;;
        if Dict.mem session_id (blacklisted_sessions self)
        then ensure_loop fuel' config active_count
        else
          match session_config config session_id with
          | Error e => raise e
          | Ok session_config =>
              created_at <- now ;;
              last_used <- now ;;
              let session := ProxySession.new session_id session_config created_at last_used in
              modify (fun self => set_sessions (Dict.set session_id session (sessions self)) self) ;;
              modify (fun self => set_session_order (session_order self ++ [session_id])%list self) ;;
              ensure_loop fuel' config (active_count + 1)
          end
    end
  else ret tt.

Definition _ensure_sessions (fuel : nat) : M t unit :=
  self <- get_self ;;
  match BrightdataConfigManager.get_config (config_manager self) with
  | None => ret tt
  | Some config =>
      active <- filterM (fun s : ProxySession.t =>
                           e <- ProxySession.is_expired s ;; ret (negb e))
                        (Dict.values (sessions self)) ;;
      ensure_loop fuel config (Z.of_nat (List.length active))
  end.

(** The dictionary literal [meta_data] of [get_proxy], with its three
    fixed keys. *)
Record ProxyMeta := mkProxyMeta {
  proxy_session_id : string;
  proxy_created_at : Z;
  proxy_requests_count : Z;
}.

Definition meta_items (m : ProxyMeta) : Dict.t Value :=
  [("proxy_session_id", VStr (proxy_session_id m));
   ("proxy_created_at", VDatetime (proxy_created_at m));
   ("proxy_requests_count", VInt (proxy_requests_count m))].

(** [get_proxy(request)]; the request is not looked at.  The result is
    [None] or the pair of the proxy URL and the meta entries. *)
Definition get_proxy (fuel : nat) : M t (option (string * ProxyMeta)) :=
  self <- get_self ;;
  if negb (BrightdataConfigManager.is_enabled (config_manager self)) then ret None
  else
    _cleanup_expired ;;
    _ensure_sessions fuel ;;
    self <- get_self ;;
    active_sessions <-
      filterM (fun s : SessionRef => e <- ProxySession.is_expired (snd s) ;; ret (negb e))
              (Dict.items (sessions self)) ;;
    match active_sessions with
    | [] => ret None
    | _ :: _ =>
        selected_session <- with_rotator_and_metrics (ProxyRotator.select_next active_sessions) ;;
        match selected_session with
        | None => ret None
        | Some (key, selected_session) =>
            used <- call_on selected_session ProxySession.use ;;
            let selected_session := snd used in
            modify (fun self => set_sessions (Dict.set key selected_session (sessions self)) self) ;;
            modify (fun self => set_requests_since_rotation (requests_since_rotation self + 1) self) ;;
            let meta_data :=
              mkProxyMeta (ProxySession.session_id selected_session)
                          (ProxySession.created_at selected_session)
                          (ProxySession.requests_count selected_session) in
            ret (Some (ProxySession.proxy_url selected_session, meta_data))
        end
    end.

(** The calls that can be made on a manager, and what a sequence of them
    leaves behind.  A call that raises ends there; the calls after it are
    made all the same, on the manager as the failed call left it. *)
Inductive Op :=
| GetProxy (fuel : nat)
| RecordSuccess (session_id : string) (response_time : Q)
| RecordFailure (session_id : string) (error_type : string)
| GetStats
| EnsureSessions (fuel : nat)
| CleanupExpired
| BlacklistSession (session_id : string).

Definition call (op : Op) : M t unit :=
  match op with
  | GetProxy fuel => get_proxy fuel ;; ret tt
  | RecordSuccess session_id response_time => record_success session_id response_time
  | RecordFailure session_id error_type => record_failure session_id error_type
  | GetStats => get_stats ;; ret tt
  | EnsureSessions fuel => _ensure_sessions fuel
  | CleanupExpired => _cleanup_expired
  | BlacklistSession session_id => _blacklist_session session_id
  end.

Fixpoint calls (ops : list Op) (self : t) (w : World) : t * World :=
  match ops with
  | [] => (self, w)
  | op :: ops' =>
      let r := call op self w in
      calls ops' (state_of r) (world_of r)
  end.

End SessionCreation.

End ProxyManager.

(** ** utils/session_utils.py *)

Module BrowserProfile.

Record t := mk {
  user_agent : string;
  accept_language : string;
  accept_encoding : string;
  accept : string;
  platform : string;
  browser_name : string;
  browser_version : string;
}.

Definition to_headers (self : t) : Dict.t string :=
  [("User-Agent", user_agent self);
   ("Accept-Language", accept_language self);
   ("Accept-Encoding", accept_encoding self);
   ("Accept", accept self)].

End BrowserProfile.

Module UserAgentPool.

Definition _generate_browser_profiles : list BrowserProfile.t :=
  let chrome_windows_versions := ["120.0.0.0"; "119.0.0.0"; "118.0.0.0"; "117.0.0.0"] in
  let firefox_versions := ["120.0"; "119.0"; "118.0"; "117.0"] in
  let safari_versions := ["17.1"; "16.6"; "16.5"] in
  (map (fun version =>
     BrowserProfile.mk
       ("Mozilla/5.0 (Windows NT 10.0; Win64; x64) AppleWebKit/537.36 (KHTML, like Gecko) Chrome/"
          ++ version ++ " Safari/537.36")
       "de-DE,de;q=0.9,en;q=0.8"
       "gzip, deflate, br"
       "text/html,application/xhtml+xml,application/xml;q=0.9,image/webp,image/apng,*/*;q=0.8"
       "Windows" "Chrome" version) chrome_windows_versions
   ++ map (fun version =>
     BrowserProfile.mk
       ("Mozilla/5.0 (Macintosh; Intel Mac OS X 10_15_7) AppleWebKit/537.36 (KHTML, like Gecko) Chrome/"
          ++ version ++ " Safari/537.36")
       "de-DE,de;q=0.9,en;q=0.8"
       "gzip, deflate, br"
       "text/html,application/xhtml+xml,application/xml;q=0.9,image/webp,image/apng,*/*;q=0.8"
       "macOS" "Chrome" version) chrome_windows_versions
   ++ map (fun version =>
     BrowserProfile.mk
       ("Mozilla/5.0 (Windows NT 10.0; Win64; x64; rv:" ++ version
          ++ ") Gecko/20100101 Firefox/" ++ version)
       "de-DE,de;q=0.8,en-US;q=0.5,en;q=0.3"
       "gzip, deflate"
       "text/html,application/xhtml+xml,application/xml;q=0.9,image/webp,*/*;q=0.8"
       "Windows" "Firefox" version) firefox_versions
   ++ map (fun version =>
     BrowserProfile.mk
       ("Mozilla/5.0 (Macintosh; Intel Mac OS X 10_15_7) AppleWebKit/605.1.15 (KHTML, like Gecko) Version/"
          ++ version ++ " Safari/605.1.15")
       "de-DE,de;q=0.9"
       "gzip, deflate, br"
       "text/html,application/xhtml+xml,application/xml;q=0.9,*/*;q=0.8"
       "macOS" "Safari" version) safari_versions)%list.

Definition profiles : list BrowserProfile.t := _generate_browser_profiles.

Definition get_profile_for_session (session_id : string) (w : World) : option BrowserProfile.t :=
  let profile_index := str_hash w session_id mod Z.of_nat (List.length profiles) in
  nth_error profiles (Z.to_nat profile_index).

End UserAgentPool.

Module SessionManager.

(** The pool of a session manager is the one [UserAgentPool()] builds;
    what changes are the two dictionaries. *)
Record t := mk {
  session_profiles : Dict.t BrowserProfile.t;
  session_created_at : Dict.t Z;
}.

Definition __init__ : t := mk Dict.empty Dict.empty.

(** [self.user_agent_pool.get_profile_for_session(session_id)]; an index
    outside the list would be an [IndexError]. *)
Definition profile_for_session (session_id : string) : M t BrowserProfile.t :=
  fun self w =>
    match UserAgentPool.get_profile_for_session session_id w with
    | Some profile => (Return profile, self, w)
    | None => (Raise IndexError, self, w)
    end.

(** The double quote character of the [sec-ch-ua] values. *)
Definition quote : string := String (ascii_of_nat 34) EmptyString.

(** [s.split(".")[0]] *)
Fixpoint before_dot (s : string) : string :=
  match s with
  | EmptyString => EmptyString
  | String c s' => if (c =? ".")%char then EmptyString else String c (before_dot s')
  end.

Definition fixed_headers : Dict.t string :=
  [("DNT", "1");
   ("Connection", "keep-alive");
   ("Upgrade-Insecure-Requests", "1");
   ("Sec-Fetch-Dest", "document");
   ("Sec-Fetch-Mode", "navigate");
   ("Sec-Fetch-Site", "none");
   ("Cache-Control", "max-age=0")].

Definition chrome_headers (profile : BrowserProfile.t) : Dict.t string :=
  let major := before_dot (BrowserProfile.browser_version profile) in
  [("sec-ch-ua",
    quote ++ "Google Chrome" ++ quote ++ ";v=" ++ quote ++ major ++ quote ++ ", "
    ++ quote ++ "Chromium" ++ quote ++ ";v=" ++ quote ++ major ++ quote ++ ", "
    ++ quote ++ "Not_A Brand" ++ quote ++ ";v=" ++ quote ++ "8" ++ quote);
   ("sec-ch-ua-mobile", "?0");
   ("sec-ch-ua-platform", quote ++ BrowserProfile.platform profile ++ quote)].

(** [get_session_headers(session_id, base_headers)]; [base_headers] is
    [None] or a dictionary, and [headers.update(d)] stores the items of
    [d]. *)
Definition get_session_headers (session_id : string) (base_headers : option (Dict.t string))
    : M t (Dict.t string) :=
  self <- get_self ;;
  profile <-
    match Dict.get session_id (session_profiles self) with
    | None =>
        profile <- profile_for_session session_id ;;
        modify (fun self => mk (Dict.set session_id profile (session_profiles self))
                               (session_created_at self)) ;;
        n <- now ;;
        modify (fun self => mk (session_profiles self)
                               (Dict.set session_id n (session_created_at self))) ;;
        ret profile
    | Some profile => ret profile
    end ;;
  let headers := BrowserProfile.to_headers profile in
  let headers :=
    match base_headers with
    | Some base =>
        if (Dict.len base =? 0)%nat then headers
        else Dict.update headers (Dict.items base)
    | None => headers
    end in
  let headers := Dict.update headers fixed_headers in
  let headers :=
    if (BrowserProfile.browser_name profile =? "Chrome")%string
    then Dict.update headers (chrome_headers profile)
    else headers in
  ret headers.

Definition cleanup_expired_sessions (active_session_ids : list string) : M t unit :=
  self <- get_self ;;
  let expired_sessions :=
    filter (fun sid => negb (existsb (String.eqb sid) active_session_ids))
           (Dict.keys (session_profiles self)) in
  forM_ expired_sessions (fun session_id =>
    modify (fun self => mk (Dict.del session_id (session_profiles self))
                           (session_created_at self)) ;;
    modify (fun self => if Dict.mem session_id (session_created_at self)
                        then mk (session_profiles self)
                                (Dict.del session_id (session_created_at self))
                        else self)).

Definition get_session_profile (session_id : string) (self : t) : option BrowserProfile.t :=
  Dict.get session_id (session_profiles self).

End SessionManager.

(** ** middlewares/brightdata_proxy.py *)

Module Request.

(** A Scrapy request: [headers] holds the header names as Scrapy
    normalises them. *)
Record t := mk {
  url : string;
  headers : Dict.t string;
  meta : Dict.t Value;
}.

Definition set_meta (v : Dict.t Value) (self : t) : t := mk (url self) (headers self) v.
Definition set_headers (v : Dict.t string) (self : t) : t := mk (url self) v (meta self).

(** [request.copy()]: a new request with its own [meta] and [headers]
    dictionaries holding the same entries. *)
Definition copy (self : t) : t := mk (url self) (headers self) (meta self).

(** [request.meta.get(key)] and [request.meta.get(key, default)] *)
Definition meta_get (key : string) (default : Value) (self : t) : Value :=
  match Dict.get key (meta self) with
  | Some v => v
  | None => default
  end.

End Request.

Module Response.

Record t := mk {
  status : Z;
}.

End Response.

(** The exceptions of the downloader that the middleware tells apart. *)
Inductive DownloadException :=
| TimeoutError
| DNSLookupError
| ConnectionRefusedError
| OtherException.

(** What a hook hands back to Scrapy. *)
Inductive HookResult :=
| Nothing
| NewRequest (request : Request.t)
| PassResponse (response : Response.t).

(** A numeric value in millionths: [int], [bool] and [float] compare and
    add with each other; [None], [str] and [datetime] do not compare with
    a number. *)
Definition micro (v : Value) : option Z :=
  match v with
  | VInt n => Some (n * microseconds_per_second)
  | VBool b => Some (if b then microseconds_per_second else 0)
  | VFloat x => Some x
  | VNone => None
  | VStr _ => None
  | VDatetime _ => None
  end.

(** [v + 1] *)
Definition plus_one (v : Value) : Result Value :=
  match v with
  | VInt n => Ok (VInt (n + 1))
  | VBool b => Ok (VInt ((if b then 1 else 0) + 1))
  | VFloat x => Ok (VFloat (x + microseconds_per_second))
  | VNone => Error TypeError
  | VStr _ => Error TypeError
  | VDatetime _ => Error TypeError
  end.

Definition lift_result {S A} (r : Result A) : M S A :=
  match r with
  | Ok a => ret a
  | Error e => raise e
  end.

(** [pattern in s] on strings. *)
Fixpoint contains (pattern s : string) : bool :=
  String.prefix pattern s
  || match s with
     | EmptyString => false
     | String _ s' => contains pattern s'
     end.

Module Middleware.

Record t := mk {
  max_sessions : Z;
  rotation_interval : Z;
  timeout : Z;
  max_retries : Z;
  proxy_manager : ProxyManager.t;
  stats : Dict.t Z;
  enabled : bool;
  user_agents : list string;
}.

Definition set_proxy_manager (v : ProxyManager.t) (self : t) : t :=
  mk (max_sessions self) (rotation_interval self) (timeout self) (max_retries self)
     v (stats self) (enabled self) (user_agents self).

Definition set_stats (v : Dict.t Z) (self : t) : t :=
  mk (max_sessions self) (rotation_interval self) (timeout self) (max_retries self)
     (proxy_manager self) v (enabled self) (user_agents self).

Definition on_proxy_manager {A} (m : M ProxyManager.t A) : M t A :=
  on_field proxy_manager set_proxy_manager m.

(** [self.stats.inc_value(key)] of Scrapy's stats collector. *)
Definition stats_inc_value (key : string) : M t unit :=
  modify (fun self =>
    set_stats (Dict.set key (match Dict.get key (stats self) with
                             | Some n => n + 1
                             | None => 0 + 1
                             end) (stats self)) self).

Definition the_user_agents : list string :=
  ["Mozilla/5.0 (Windows NT 10.0; Win64; x64) AppleWebKit/537.36 (KHTML, like Gecko) Chrome/120.0.0.0 Safari/537.36";
   "Mozilla/5.0 (Windows NT 10.0; Win64; x64) AppleWebKit/537.36 (KHTML, like Gecko) Chrome/119.0.0.0 Safari/537.36";
   "Mozilla/5.0 (Macintosh; Intel Mac OS X 10_15_7) AppleWebKit/537.36 (KHTML, like Gecko) Chrome/120.0.0.0 Safari/537.36";
   "Mozilla/5.0 (Macintosh; Intel Mac OS X 10_15_7) AppleWebKit/605.1.15 (KHTML, like Gecko) Version/17.1 Safari/605.1.15";
   "Mozilla/5.0 (Windows NT 10.0; Win64; x64; rv:120.0) Gecko/20100101 Firefox/120.0"].

(** [BrightdataProxyMiddleware(crawler)], given the four settings and the
    global configuration manager. *)
Definition __init__ (config_manager : BrightdataConfigManager.t)
    (max_sessions rotation_interval timeout max_retries : Z) : M unit t :=
  pm <- ProxyManager.__init__ config_manager max_sessions rotation_interval ;;
  let enabled := BrightdataConfigManager.is_enabled config_manager in
  if negb enabled then raise NotConfigured
  else ret (mk max_sessions rotation_interval timeout max_retries pm Dict.empty
               enabled the_user_agents).

Definition _should_skip_request (request : Request.t) : bool :=
  let url := BrightdataConfigManager.lower (Request.url request) in
  if existsb (fun pattern => contains pattern url)
             ["/robots.txt"; "/favicon.ico"; "/sitemap"]
  then true
  else if truthy (Request.meta_get "skip_brightdata_proxy" VNone request) then true
  else false.

Definition _get_rotated_user_agent (session_id : string) : M t string :=
  self <- get_self ;;
  h <- hash session_id ;;
  if (List.length (user_agents self) =? 0)%nat then raise ZeroDivisionError
  else
    let agent_index := h mod Z.of_nat (List.length (user_agents self)) in
    match nth_error (user_agents self) (Z.to_nat agent_index) with
    | Some user_agent => ret user_agent
    | None => raise IndexError
    end.

Definition _is_successful_response (response : Response.t) : bool :=
  if (200 <=? Response.status response) && (Response.status response <? 400) then true
  else
    let acceptable_4xx := [404] in
    if existsb (Z.eqb (Response.status response)) acceptable_4xx then true
    else false.

Definition _classify_response_error (response : Response.t) : string :=
  if Response.status response =? 403 then "blocked"
  else if Response.status response =? 429 then "rate_limited"
  else if (500 <=? Response.status response) && (Response.status response <? 600)
       then "server_error"
       else "http_error".

Definition _classify_exception_error (exception : DownloadException) : string :=
  match exception with
  | TimeoutError => "timeout"
  | DNSLookupError | ConnectionRefusedError => "connection_error"
  | OtherException => "unknown_error"
  end.

(** [retry_count >= self.max_retries] for the value found in [meta]. *)
Definition retries_exhausted (self : t) (request : Request.t) : Result bool :=
  let retry_count := Request.meta_get "brightdata_retry_count" (VInt 0) request in
  match micro retry_count with
  | Some c => Ok (max_retries self * microseconds_per_second <=? c)
  | None => Error TypeError
  end.

Definition _should_retry_with_different_proxy (response : Response.t) (request : Request.t)
    : M t bool :=
  self <- get_self ;;
  exhausted <- lift_result (retries_exhausted self request) ;;
  if exhausted then ret false
  else
    let retry_statuses := [403; 429; 502; 503; 504] in
    ret (existsb (Z.eqb (Response.status response)) retry_statuses).

Definition _should_retry_exception_with_different_proxy (exception : DownloadException)
    (request : Request.t) : M t bool :=
  self <- get_self ;;
  exhausted <- lift_result (retries_exhausted self request) ;;
  if exhausted then ret false
  else
    ret (match exception with
         | TimeoutError | DNSLookupError | ConnectionRefusedError => true
         | OtherException => false
         end).

Definition _retry_with_different_proxy (request : Request.t) : M t Request.t :=
  retry_count <- lift_result
    (plus_one (Request.meta_get "brightdata_retry_count" (VInt 0) request)) ;;
  let new_request := Request.copy request in
  let new_request :=
    Request.set_meta (Dict.set "brightdata_retry_count" retry_count (Request.meta new_request))
                     new_request in
  let new_request := Request.set_meta (Dict.del "proxy" (Request.meta new_request)) new_request in
  let new_request :=
    Request.set_meta (Dict.del "proxy_session_id" (Request.meta new_request)) new_request in
  let new_request :=
    Request.set_meta (Dict.del "proxy_created_at" (Request.meta new_request)) new_request in
  let new_request :=
    Request.set_meta (Dict.del "proxy_requests_count" (Request.meta new_request)) new_request in
  ret new_request.

(** [session_id[:8]] inside the log messages: the f-string is built
    whatever the log level, and slicing needs a [str]. *)
Definition short_id (session_id : Value) : M t string :=
  match session_id with
  | VStr s => ret (str_prefix 8 s)
  | _ => raise TypeError
  end.

(** [self.proxy_manager.record_success(session_id, response_time)]: a
    value that is not a [str] is no key of [metrics]. *)
Definition record_success (session_id : Value) (response_time : Q) : M t unit :=
  match session_id with
  | VStr s => on_proxy_manager (ProxyManager.record_success s response_time)
  | _ => ret tt
  end.

Definition record_failure (session_id : Value) (error_type : string) : M t unit :=
  match session_id with
  | VStr s => on_proxy_manager (ProxyManager.record_failure s error_type)
  | _ => ret tt
  end.

Definition process_response (request : Request.t) (response : Response.t)
    : M t HookResult :=
  if negb (truthy (Request.meta_get "brightdata_enabled" VNone request))
  then ret (PassResponse response)
  else
    let session_id := Request.meta_get "proxy_session_id" VNone request in
    let start_time := Request.meta_get "request_start_time" (VInt 0) request in
    response_time <-
      match micro start_time with
      | None => raise TypeError
      | Some start =>
          if 0 <? start
          then n <- now ;; ret (inject_Z (n - start) / inject_Z microseconds_per_second)%Q
          else ret 0%Q
      end ;;
    if _is_successful_response response then
      record_success session_id response_time ;;
      stats_inc_value "brightdata/successful_requests" ;;
      short_id session_id ;;
      ret (PassResponse response)
    else
      let error_type := _classify_response_error response in
      record_failure session_id error_type ;;
      stats_inc_value ("brightdata/" ++ error_type ++ "_requests") ;;
      short_id session_id ;;
      retry <- _should_retry_with_different_proxy response request ;;
      if retry then
        new_request <- _retry_with_different_proxy request ;;
        ret (NewRequest new_request)
      else ret (PassResponse response).

Definition process_exception (request : Request.t) (exception : DownloadException)
    : M t HookResult :=
  if negb (truthy (Request.meta_get "brightdata_enabled" VNone request))
  then ret Nothing
  else
    let session_id := Request.meta_get "proxy_session_id" (VStr "unknown") request in
    let error_type := _classify_exception_error exception in
    record_failure session_id error_type ;;
    stats_inc_value ("brightdata/" ++ error_type ++ "_requests") ;;
    short_id session_id ;;
    retry <- _should_retry_exception_with_different_proxy exception request ;;
    if retry then
      new_request <- _retry_with_different_proxy request ;;
      ret (NewRequest new_request)
    else ret Nothing.

Section SessionCreation.

Variable session_config : BrightdataConfig.t -> string -> Result BrightdataConfig.t.

(** [process_request] always returns [None]; what it does is change the
    request, so the request as it leaves the hook is part of the result. *)
Definition process_request (fuel : nat) (request : Request.t)
    : M t (HookResult * Request.t) :=
  self <- get_self ;;
  if negb (enabled self) then ret (Nothing, request)
  else if truthy (Request.meta_get "proxy" VNone request) then ret (Nothing, request)
  else if _should_skip_request request then ret (Nothing, request)
  else
    proxy_info <- on_proxy_manager (ProxyManager.get_proxy session_config fuel) ;;
    match proxy_info with
    | None => ret (Nothing, request)
    | Some (proxy_url, proxy_meta) =>
        let request :=
          Request.set_meta (Dict.set "proxy" (VStr proxy_url) (Request.meta request)) request in
        let request :=
          Request.set_meta
            (Dict.update (Request.meta request) (ProxyManager.meta_items proxy_meta)) request in
        let request :=
          Request.set_meta
            (Dict.set "brightdata_enabled" (VBool true) (Request.meta request)) request in
        started <- now ;;
        let request :=
          Request.set_meta
            (Dict.set "request_start_time" (VFloat started) (Request.meta request)) request in
        if negb (Dict.mem "User-Agent" (Request.headers request)) then
          user_agent <- _get_rotated_user_agent (ProxyManager.proxy_session_id proxy_meta) ;;
          ret (Nothing,
               Request.set_headers
                 (Dict.set "User-Agent" user_agent (Request.headers request)) request)
        else ret (Nothing, request)
    end.

End SessionCreation.

End Middleware.

(** ** The derived attributes as the specification words them *)

(** "is_expired = (now - created_at >= max_duration) or
    (requests_count >= max_requests)", [max_duration] being in seconds. *)
Definition expired_by_spec (now : Z) (s : ProxySession.t) : Prop :=
  ProxySession.max_duration s * microseconds_per_second <= now - ProxySession.created_at s
  \/ ProxySession.max_requests s <= ProxySession.requests_count s.

(** "is_healthy = (success_rate >= 80) and (last_success within last 5
    minutes or requests_sent < 5)". *)
Definition healthy_by_spec (now : Z) (m : ProxyMetrics.t) : Prop :=
  (80 <= ProxyMetrics.success_rate m)%Q
  /\ ((exists t, ProxyMetrics.last_success m = Some t /\ now - t < timedelta_minutes 5)
      \/ ProxyMetrics.requests_sent m < 5).

(** The number of outcomes recorded for a session. *)
Definition requests_sent_of (session_id : string) (mw : Middleware.t) : option Z :=
  option_map ProxyMetrics.requests_sent
    (Dict.get session_id (ProxyManager.metrics (Middleware.proxy_manager mw))).

(** The user agent that goes with a session id: the entry of the list at
    the hash of the id modulo the length. *)
Definition user_agent_for (user_agents : list string) (str_hash : string -> Z)
    (session_id : string) : option string :=
  nth_error user_agents
    (Z.to_nat (str_hash session_id mod Z.of_nat (List.length user_agents))).

(** The entries of [meta] that the hooks compute with are of the kinds
    the middleware itself stores: the session id is a string, the start
    time a number, the retry count an integer. *)
Definition well_typed_meta (request : Request.t) : Prop :=
  (exists session_id,
     Request.meta_get "proxy_session_id" VNone request = VStr session_id)
  /\ micro (Request.meta_get "request_start_time" (VInt 0) request) <> None
  /\ (exists count,
        Request.meta_get "brightdata_retry_count" (VInt 0) request = VInt count).

(** The request as [process_request] leaves it, when it returns. *)
Definition left_request (r : Outcome (HookResult * Request.t) * Middleware.t * World)
    : option Request.t :=
  match outcome_of r with
  | Return (_, request) => Some request
  | _ => None
  end.

(** ** Concrete inputs *)

Module Examples.

Definition config : BrightdataConfig.t :=
  BrightdataConfig.mk "brd-customer-1-zone-residential" "secret" "brd.superproxy.io" 33335
                      "residential" "DE".

(** The configuration manager of a process started with
    [USE_PROXIES=true] and complete credentials. *)
Definition config_manager : BrightdataConfigManager.t :=
  BrightdataConfigManager.__init__ config "true".

(** A world: the clock starts at [t0] and gains a millisecond per
    reading, every digest is new, the random fraction is one half, and the
    hash of a string is its length. *)
Definition t0 : Z := 1700000000000000.

Definition world : World :=
  mkWorld (fun k => t0 + 1000 * Z.of_nat k) 0
          (fun k => "00000000000" ++ BrightdataConfig.str_of_int (10000 + Z.of_nat k)) 0
          (fun _ => 1 # 2) 0
          (fun s => Z.of_nat (String.length s)).

(** A world whose clock stands still at [t]. *)
Definition frozen_world (t : Z) : World :=
  mkWorld (fun _ => t) 0 (digests world) 0 (randoms world) 0 (str_hash world).

Definition session_id : string := "scraper-0123456789abcdef".

(** A session created at [t0] and not used yet. *)
Definition session : ProxySession.t := ProxySession.new session_id config t0 t0.

Definition rotator : ProxyRotator.t := ProxyRotator.mk "weighted" 0 t0.

(** A manager of capacity 1 whose pool holds [session]. *)
Definition manager : ProxyManager.t :=
  ProxyManager.mk config_manager 1 10
    [(session_id, session)] [session_id]
    Dict.empty
    rotator 0 Dict.empty (timedelta_minutes 30).

Definition middleware_of (pm : ProxyManager.t) : Middleware.t :=
  Middleware.mk (ProxyManager.max_sessions pm) 10 30 3 pm Dict.empty true
                Middleware.the_user_agents.

Definition plain_request : Request.t :=
  Request.mk "https://www.example.com/product/42" Dict.empty Dict.empty.

(** The middleware with the pool of one session, and its first request
    going out: [process_request] attaches [session] to [plain_request]. *)
Definition middleware : Middleware.t := middleware_of manager.

Definition first_pass : Outcome (HookResult * Request.t) * Middleware.t * World :=
  Middleware.process_request ProxyManager.session_config_call 1 plain_request middleware world.

(** The request as it is sent, and the middleware and the world then. *)
Definition proxied_request : Request.t :=
  match left_request first_pass with
  | Some request => request
  | None => plain_request
  end.

Definition middleware_in_flight : Middleware.t := state_of first_pass.
Definition world_in_flight : World := world_of first_pass.

(** Metrics of a session whose single request succeeded at time 0. *)
Definition one_success : ProxyMetrics.t :=
  ProxyMetrics.mk 1 1 0 0 0 (Some 0) (Some 0) None 0%Q [].

(** A request that brings its own [Accept-Language]. *)
Definition english_request : Request.t :=
  Request.mk "https://www.example.com/product/43" [("Accept-Language", "en-US")] Dict.empty.

(** A second session, not used yet either. *)
Definition other_session_id : string := "scraper-ffffffffffffffff".

Definition other_session : ProxySession.t := ProxySession.new other_session_id config t0 t0.

(** Metrics of a session with ten outcomes, half of them failures. *)
Definition mixed_metrics : ProxyMetrics.t :=
  ProxyMetrics.mk 10 5 5 2 1 (Some 0) (Some 0) (Some 0) 0%Q [].

(** Metrics of a session whose three requests were all blocked. *)
Definition blocked_metrics : ProxyMetrics.t :=
  ProxyMetrics.mk 3 0 3 3 0 (Some 0) None (Some 0) 0%Q [].

(** The manager of capacity 1 with [mixed_metrics] on record for its
    session. *)
Definition manager_with_metrics : ProxyManager.t :=
  ProxyManager.set_metrics [(session_id, mixed_metrics)] manager.

(** The middleware as the crawler builds it at its start, with
    [USE_PROXIES=true], complete credentials and the default settings. *)
Definition start_up : Outcome Middleware.t * unit * World :=
  Middleware.__init__ config_manager 5 10 30 3 tt world.

(** What the constructor returns then: a middleware whose manager has no
    session yet. *)
Definition new_manager : ProxyManager.t :=
  ProxyManager.mk config_manager 5 10 Dict.empty [] Dict.empty rotator 0
                  Dict.empty (timedelta_minutes 30).

Definition new_middleware : Middleware.t := middleware_of new_manager.

Definition started_world : World := world_of start_up.

(** A request marked the way the core marks a proxied one: the six meta
    entries of [process_request] and a User-Agent. *)
Definition marked_request : Request.t :=
  Request.mk "https://www.example.com/product/42"
    [("User-Agent",
      "Mozilla/5.0 (Windows NT 10.0; Win64; x64; rv:120.0) Gecko/20100101 Firefox/120.0")]
    [("proxy", VStr (BrightdataConfig.proxy_url config));
     ("proxy_session_id", VStr session_id);
     ("proxy_created_at", VDatetime t0);
     ("proxy_requests_count", VInt 1);
     ("brightdata_enabled", VBool true);
     ("request_start_time", VFloat t0)].

(** The first session after five requests. *)
Definition busy_session : ProxySession.t :=
  ProxySession.mk session_id config t0 t0 5 100 3600.

(** Two sessions, the second less used than the first, and metrics by
    which neither is healthy. *)
Definition two_sessions : list SessionRef :=
  [(session_id, busy_session); (other_session_id, other_session)].

Definition all_blocked : Dict.t ProxyMetrics.t :=
  [(session_id, blocked_metrics); (other_session_id, blocked_metrics)].

(** A world whose string hash is negative. *)
Definition world_with_negative_hash : World :=
  mkWorld (clock world) 0 (digests world) 0 (randoms world) 0 (fun _ => -7).

End Examples.

(** ** Assertions on states and worlds *)

(** Code only consumes readings: the clock, the digests, the random
    fractions and the string hash stay the same functions, the positions
    only move forward. *)
Definition advances (w w' : World) : Prop :=
  clock w' = clock w /\ digests w' = digests w /\ randoms w' = randoms w
  /\ str_hash w' = str_hash w
  /\ (reads w <= reads w')%nat /\ (drawn w <= drawn w')%nat /\ (rolls w <= rolls w')%nat.

Definition steady {S A} (m : M S A) : Prop :=
  forall s w, advances w (world_of (m s w)).

(** From a state and world in [P], the code either returns [a] with [Q a]
    holding afterwards, or ends otherwise with [E] holding. *)
Definition hoare {S A} (P : S -> World -> Prop) (m : M S A)
    (Q : A -> S -> World -> Prop) (E : S -> World -> Prop) : Prop :=
  forall s w, P s w ->
    match m s w with
    | (Return a, s', w') => Q a s' w'
    | (_, s', w') => E s' w'
    end.

(** [I] holds after the code, however it ends, if it held before. *)
Definition preserves {S A} (I : S -> World -> Prop) (m : M S A) : Prop :=
  hoare I m (fun _ => I) I.

(** The world after one reading of the clock. *)
Definition after_reading (w : World) : World :=
  mkWorld (clock w) (S (reads w)) (digests w) (drawn w) (randoms w) (rolls w) (str_hash w).

Definition stable {S} (P : S -> World -> Prop) : Prop :=
  forall s w w', advances w w' -> P s w -> P s w'.

(** Code that leaves the object it runs on as it was. *)
Definition readonly {S A} (m : M S A) : Prop :=
  forall s w, state_of (m s w) = s.

(** The blacklist after the second loop of [_cleanup_expired]. *)
Definition without_keys (ks : list string) (d : Dict.t Z) : Dict.t Z :=
  fold_left (fun d k => Dict.del k d) ks d.

(** (I2) No session id is at once a key of [sessions] and of
    [blacklisted_sessions]. *)
Definition no_session_blacklisted (pm : ProxyManager.t) : Prop :=
  forall k, Dict.mem k (ProxyManager.sessions pm) = true ->
            Dict.mem k (ProxyManager.blacklisted_sessions pm) = false.

(** [session_id] is on the blacklist, with a time not before [since], and
    not in the pool. *)
Definition blacklisted_since (session_id : string) (since : Z) (pm : ProxyManager.t) : Prop :=
  (exists blacklisted_at,
     Dict.get session_id (ProxyManager.blacklisted_sessions pm) = Some blacklisted_at
     /\ since <= blacklisted_at)
  /\ Dict.mem session_id (ProxyManager.sessions pm) = false.

(** The readings of the clock taken so far, from the [from]-th on, lie
    between [since] and [till]. *)
Definition readings_within (from : nat) (since till : Z) (w : World) : Prop :=
  forall i, (from <= i < reads w)%nat -> since <= clock w i <= till.

(** As long as the clock has read within [since, till], an interval no
    longer than the blacklist duration, [session_id] has stayed
    blacklisted and out of the pool. *)
Definition kept_out (session_id : string) (from : nat) (since till : Z)
    (pm : ProxyManager.t) (w : World) : Prop :=
  (from <= reads w)%nat
  /\ till - since <= ProxyManager.blacklist_duration pm
  /\ (readings_within from since till w -> blacklisted_since session_id since pm).

(** The world after one session id has been generated. *)
Definition after_digest (w : World) : World :=
  mkWorld (clock w) (reads w) (digests w) (S (drawn w)) (randoms w) (rolls w) (str_hash w).

(** The [i]-th session id that [_generate_session_id] produces. *)
Definition generated (w : World) (i : nat) : string := "scraper-" ++ digests w i.

(** The session has [n] outcomes on record. *)
Definition counted (session_id : string) (n : Z) : Middleware.t -> World -> Prop :=
  fun mw _ => requests_sent_of session_id mw = Some n.

(** ** The updates the manager makes *)

(** The metrics of a session after [record_success] with the clock
    readings [used] and [succeeded]. *)
Definition metric_after_success (metric : ProxyMetrics.t) (used succeeded : Z)
    (response_time : Q) : ProxyMetrics.t :=
  let response_times :=
    if Qltb 0 response_time
    then ProxyMetrics.deque_append 100 response_time (ProxyMetrics.response_times metric)
    else ProxyMetrics.response_times metric in
  let average_response_time :=
    if Qltb 0 response_time
    then (ProxyMetrics.Qsum response_times
          / inject_Z (Z.of_nat (List.length response_times)))%Q
    else ProxyMetrics.average_response_time metric in
  ProxyMetrics.mk
    (ProxyMetrics.requests_sent metric + 1)
    (ProxyMetrics.successful_requests metric + 1)
    (ProxyMetrics.failed_requests metric)
    (ProxyMetrics.blocked_requests metric)
    (ProxyMetrics.timeout_requests metric)
    (Some used) (Some succeeded)
    (ProxyMetrics.last_failure metric)
    average_response_time response_times.

(** The metrics of a session after [record_failure]. *)
Definition metric_after_failure (metric : ProxyMetrics.t) (used failed : Z)
    (error_type : string) : ProxyMetrics.t :=
  ProxyMetrics.mk
    (ProxyMetrics.requests_sent metric + 1)
    (ProxyMetrics.successful_requests metric)
    (ProxyMetrics.failed_requests metric + 1)
    (if (error_type =? "blocked")%string
     then ProxyMetrics.blocked_requests metric + 1
     else ProxyMetrics.blocked_requests metric)
    (if (error_type =? "blocked")%string
     then ProxyMetrics.timeout_requests metric
     else if (error_type =? "timeout")%string
          then ProxyMetrics.timeout_requests metric + 1
          else ProxyMetrics.timeout_requests metric)
    (Some used)
    (ProxyMetrics.last_success metric)
    (Some failed)
    (ProxyMetrics.average_response_time metric)
    (ProxyMetrics.response_times metric).

Definition with_metric (session_id : string) (metric : ProxyMetrics.t) (pm : ProxyManager.t)
    : ProxyManager.t :=
  ProxyManager.set_metrics (Dict.set session_id metric (ProxyManager.metrics pm)) pm.

(** The manager after [session_id] is taken out of [session_order], if
    it is there. *)
Definition without_order (session_id : string) (pm : ProxyManager.t) : ProxyManager.t :=
  if ProxyManager.list_mem session_id (ProxyManager.session_order pm)
  then ProxyManager.set_session_order
         (ProxyManager.list_remove session_id (ProxyManager.session_order pm)) pm
  else pm.

(** The manager after [_cleanup_expired] has dropped a session. *)
Definition without_session (session_id : string) (pm : ProxyManager.t) : ProxyManager.t :=
  without_order session_id
    (ProxyManager.set_sessions (Dict.del session_id (ProxyManager.sessions pm)) pm).

(** The manager after [_blacklist_session(session_id)] at the time [n]. *)
Definition with_blacklisted (session_id : string) (n : Z) (pm : ProxyManager.t)
    : ProxyManager.t :=
  let pm :=
    ProxyManager.set_blacklisted_sessions
      (Dict.set session_id n (ProxyManager.blacklisted_sessions pm)) pm in
  let pm :=
    if Dict.mem session_id (ProxyManager.sessions pm)
    then ProxyManager.set_sessions (Dict.del session_id (ProxyManager.sessions pm)) pm
    else pm in
  without_order session_id pm.

(** The manager after [_ensure_sessions] has stored a new session. *)
Definition with_session (session : ProxySession.t) (pm : ProxyManager.t) : ProxyManager.t :=
  let session_id := ProxySession.session_id session in
  let pm :=
    ProxyManager.set_sessions (Dict.set session_id session (ProxyManager.sessions pm)) pm in
  ProxyManager.set_session_order (ProxyManager.session_order pm ++ [session_id])%list pm.

(** A session after [use()] at the time [n]. *)
Definition used_session (session : ProxySession.t) (n : Z) : ProxySession.t :=
  ProxySession.mk (ProxySession.session_id session) (ProxySession.config session)
    (ProxySession.created_at session) n (ProxySession.requests_count session + 1)
    (ProxySession.max_requests session) (ProxySession.max_duration session).

(** The manager after [get_proxy] has handed out the session stored
    under [key]. *)
Definition with_use (key : string) (session : ProxySession.t) (n : Z) (pm : ProxyManager.t)
    : ProxyManager.t :=
  let pm :=
    ProxyManager.set_sessions
      (Dict.set key (used_session session n) (ProxyManager.sessions pm)) pm in
  ProxyManager.set_requests_since_rotation (ProxyManager.requests_since_rotation pm + 1) pm.

(** The rotator after a round-robin selection. *)
Definition next_index (r : ProxyRotator.t) : ProxyRotator.t :=
  ProxyRotator.mk (ProxyRotator.rotation_strategy r) (ProxyRotator.current_index r + 1)
                  (ProxyRotator.last_rotation r).

(** The manager holding the rotator and the metrics that [select_next]
    has worked on. *)
Definition with_rotator_state (st : ProxyRotator.St) (pm : ProxyManager.t) : ProxyManager.t :=
  ProxyManager.set_metrics (snd st) (ProxyManager.set_rotator (fst st) pm).

(** [k] calls of [_round_robin_select] in a row on the same list. *)
Fixpoint round_robin_selections (k : nat) (sessions : list SessionRef)
    : M ProxyRotator.St (list SessionRef) :=
  match k with
  | O => ret []
  | S k' =>
      session <- ProxyRotator._round_robin_select sessions ;;
      rest <- round_robin_selections k' sessions ;;
      ret (session :: rest)
  end.

(** ** What holds of the manager between calls *)

(** An assertion on the object alone, whatever the world. *)
Definition always {S} (I : S -> Prop) : S -> World -> Prop := fun s _ => I s.

(** The counters of a metrics entry add up, and each timestamp is there
    exactly when its counter is not zero. *)
Definition counters_add_up (m : ProxyMetrics.t) : Prop :=
  ProxyMetrics.requests_sent m
  = ProxyMetrics.successful_requests m + ProxyMetrics.failed_requests m
  /\ 0 <= ProxyMetrics.successful_requests m
  /\ 0 <= ProxyMetrics.failed_requests m
  /\ 0 <= ProxyMetrics.blocked_requests m
  /\ 0 <= ProxyMetrics.timeout_requests m
  /\ ProxyMetrics.blocked_requests m + ProxyMetrics.timeout_requests m
     <= ProxyMetrics.failed_requests m
  /\ (ProxyMetrics.last_used m = None <-> ProxyMetrics.requests_sent m = 0)
  /\ (ProxyMetrics.last_success m = None <-> ProxyMetrics.successful_requests m = 0)
  /\ (ProxyMetrics.last_failure m = None <-> ProxyMetrics.failed_requests m = 0).

(** The window of response times holds at most 100 of them, and the
    average is the one of the window. *)
Definition window_kept (m : ProxyMetrics.t) : Prop :=
  (List.length (ProxyMetrics.response_times m) <= 100)%nat
  /\ ProxyMetrics.average_response_time m
     = match ProxyMetrics.response_times m with
       | [] => 0%Q
       | _ :: _ =>
           (ProxyMetrics.Qsum (ProxyMetrics.response_times m)
            / inject_Z (Z.of_nat (List.length (ProxyMetrics.response_times m))))%Q
       end.

Definition every_metric (P : ProxyMetrics.t -> Prop) (pm : ProxyManager.t) : Prop :=
  forall session_id metric,
    Dict.get session_id (ProxyManager.metrics pm) = Some metric -> P metric.

(** A session of the pool is stored under its own id, is listed in
    [session_order], has the limits of the dataclass, and has not been
    handed out more often than [max_requests] allows. *)
Definition pooled (pm : ProxyManager.t) (key : string) (session : ProxySession.t) : Prop :=
  ProxySession.session_id session = key
  /\ In key (ProxyManager.session_order pm)
  /\ ProxySession.max_requests session = 100
  /\ ProxySession.max_duration session = 3600
  /\ 0 <= ProxySession.requests_count session <= ProxySession.max_requests session.

Definition pool_kept (pm : ProxyManager.t) : Prop :=
  forall key session,
    Dict.get key (ProxyManager.sessions pm) = Some session -> pooled pm key session.

(** The settings of the manager are those of [pm0], and its counter of
    handed-out sessions and its round-robin index have not gone back. *)
Definition settings_kept (pm0 pm : ProxyManager.t) : Prop :=
  ProxyManager.config_manager pm = ProxyManager.config_manager pm0
  /\ ProxyManager.max_sessions pm = ProxyManager.max_sessions pm0
  /\ ProxyManager.rotation_interval pm = ProxyManager.rotation_interval pm0
  /\ ProxyManager.blacklist_duration pm = ProxyManager.blacklist_duration pm0
  /\ ProxyRotator.rotation_strategy (ProxyManager.rotator pm)
     = ProxyRotator.rotation_strategy (ProxyManager.rotator pm0)
  /\ ProxyRotator.last_rotation (ProxyManager.rotator pm)
     = ProxyRotator.last_rotation (ProxyManager.rotator pm0)
  /\ ProxyRotator.current_index (ProxyManager.rotator pm0)
     <= ProxyRotator.current_index (ProxyManager.rotator pm)
  /\ ProxyManager.requests_since_rotation pm0 <= ProxyManager.requests_since_rotation pm.

(** The pool is in order and [count] sessions have been handed out. *)
Definition handed_out (count : Z) (pm : ProxyManager.t) : Prop :=
  pool_kept pm /\ ProxyManager.requests_since_rotation pm = count.

(** The world after [k] readings of the clock. *)
Definition after_readings (k : nat) (w : World) : World :=
  mkWorld (clock w) (reads w + k) (digests w) (drawn w) (randoms w) (rolls w) (str_hash w).

(** The session whose turn it is at a round-robin index. *)
Definition turn (sessions : list SessionRef) (index : Z) : option SessionRef :=
  nth_error sessions (Z.to_nat (index mod Z.of_nat (List.length sessions))).

(** The rotator after [k] round-robin selections. *)
Definition moved_on (k : nat) (r : ProxyRotator.t) : ProxyRotator.t :=
  ProxyRotator.mk (ProxyRotator.rotation_strategy r)
                  (ProxyRotator.current_index r + Z.of_nat k)
                  (ProxyRotator.last_rotation r).

(** A manager with no session, no metrics entry and nothing blacklisted,
    as a new one is. *)
Definition nothing_pooled (pm : ProxyManager.t) : Prop :=
  ProxyManager.sessions pm = Dict.empty
  /\ ProxyManager.metrics pm = Dict.empty
  /\ ProxyManager.blacklisted_sessions pm = Dict.empty.

(** The last [n] entries of a list. *)
Definition last_entries {A} (n : nat) (l : list A) : list A :=
  skipn (List.length l - n) l.

(** [metrics[k]] on the [defaultdict]: the entry under [k], or a new
    [ProxyMetrics()]. *)
Definition metric_of (d : Dict.t ProxyMetrics.t) (k : string) : ProxyMetrics.t :=
  match Dict.get k d with
  | Some m => m
  | None => ProxyMetrics.default
  end.

(** The test of the comprehension of [select_next], [not
    session.is_expired and metrics[session.session_id].is_healthy], when
    the clock reads [reading]. *)
Definition healthy_at (reading : Z) (d : Dict.t ProxyMetrics.t) (s : SessionRef) : bool :=
  negb (ProxySession.is_expired_at reading (snd s))
  && ProxyMetrics.is_healthy_at reading (metric_of d (ProxySession.session_id (snd s))).

(** [s] is the first of [sessions] with the least [requests_count]. *)
Definition least_used (s : SessionRef) (sessions : list SessionRef) : Prop :=
  exists before after,
    sessions = (before ++ s :: after)%list
    /\ (forall b, In b before ->
          ProxySession.requests_count (snd s) < ProxySession.requests_count (snd b))
    /\ (forall a, In a after ->
          ProxySession.requests_count (snd s) <= ProxySession.requests_count (snd a)).

(** ** What holds of the middleware and of the session manager *)

(** The middleware allows as many retries as [mw] does. *)
Definition same_retries (mw : Middleware.t) : Middleware.t -> World -> Prop :=
  fun s _ => Middleware.max_retries s = Middleware.max_retries mw.

(** [self.stats.get_value(key, 0)] *)
Definition stats_value (key : string) (mw : Middleware.t) : Z :=
  match Dict.get key (Middleware.stats mw) with
  | Some n => n
  | None => 0
  end.

(** The key of the stats counter under which [process_response] counts a
    response. *)
Definition counted_under (response : Response.t) : string :=
  if Middleware._is_successful_response response
  then "brightdata/successful_requests"
  else "brightdata/" ++ Middleware._classify_response_error response ++ "_requests".

(** The stats counter [key] stands at [n]; and the manager is [pm] in case
    [same] holds. *)
Definition tallied (key : string) (n : Z) (same : Prop) (pm : ProxyManager.t)
    : Middleware.t -> World -> Prop :=
  fun mw _ => stats_value key mw = n /\ (same -> Middleware.proxy_manager mw = pm).

(** The headers [get_session_headers] builds from the profile of the
    session and the base headers. *)
Definition headers_of (profile : BrowserProfile.t) (base_headers : option (Dict.t string))
    : Dict.t string :=
  let headers := BrowserProfile.to_headers profile in
  let headers :=
    match base_headers with
    | Some base =>
        if (Dict.len base =? 0)%nat then headers
        else Dict.update headers (Dict.items base)
    | None => headers
    end in
  let headers := Dict.update headers SessionManager.fixed_headers in
  if (BrowserProfile.browser_name profile =? "Chrome")%string
  then Dict.update headers (SessionManager.chrome_headers profile)
  else headers.

(** * Properties *)

(** ** Dictionaries *)

Module DictFacts.

Lemma get_set {V} (k k' : string) (v : V) d :
  Dict.get k (Dict.set k' v d) = if (k =? k')%string then Some v else Dict.get k d.
Proof.
  induction d as [|[k0 v0] d IH]; simpl.
  - reflexivity.
  - destruct (String.eqb_spec k' k0) as [E0|E0]; simpl.
    + subst k0. destruct (String.eqb_spec k k'); reflexivity.
    + destruct (String.eqb_spec k k0) as [E1|E1].
      * subst k0. destruct (String.eqb_spec k k'); congruence.
      * exact IH.
Qed.

Lemma get_del {V} (k k' : string) (d : Dict.t V) :
  Dict.get k (Dict.del k' d) = if (k =? k')%string then None else Dict.get k d.
Proof.
  induction d as [|[k0 v0] d IH]; simpl.
  - destruct (k =? k')%string; reflexivity.
  - destruct (String.eqb_spec k' k0) as [E0|E0]; simpl.
    + subst k0. rewrite IH. destruct (String.eqb_spec k k'); reflexivity.
    + destruct (String.eqb_spec k k0) as [E1|E1].
      * subst k0. destruct (String.eqb_spec k k'); congruence.
      * exact IH.
Qed.

Lemma mem_set {V} (k k' : string) (v : V) d :
  Dict.mem k (Dict.set k' v d) = (k =? k')%string || Dict.mem k d.
Proof.
  unfold Dict.mem. rewrite get_set. destruct (k =? k')%string; reflexivity.
Qed.

Lemma mem_del {V} (k k' : string) (d : Dict.t V) :
  Dict.mem k (Dict.del k' d) = negb (k =? k')%string && Dict.mem k d.
Proof.
  unfold Dict.mem. rewrite get_del. destruct (k =? k')%string; reflexivity.
Qed.

Lemma del_absent {V} (k : string) (d : Dict.t V) :
  Dict.get k d = None -> Dict.del k d = d.
Proof.
  induction d as [|[k0 v0] d IH]; simpl; intros H.
  - reflexivity.
  - destruct (k =? k0)%string.
    + discriminate.
    + rewrite IH by exact H. reflexivity.
Qed.

Lemma mem_get {V} (k : string) (d : Dict.t V) :
  Dict.mem k d = true <-> exists v, Dict.get k d = Some v.
Proof.
  unfold Dict.mem. destruct (Dict.get k d) as [v|].
  - split; [eauto | reflexivity].
  - split; [discriminate | intros [v H]; discriminate].
Qed.

Lemma mem_false_get {V} (k : string) (d : Dict.t V) :
  Dict.mem k d = false <-> Dict.get k d = None.
Proof.
  unfold Dict.mem. destruct (Dict.get k d); split; congruence.
Qed.

Lemma In_items {V} (k : string) (v : V) (d : Dict.t V) :
  In (k, v) (Dict.items d) <-> Dict.get k d = Some v.
Proof.
  induction d as [|[k0 v0] d IH]; simpl.
  - split; [intros [] | discriminate].
  - rewrite filter_In, IH. simpl.
    destruct (String.eqb_spec k k0) as [E|E].
    + subst k0. simpl.
      split.
      * intros [H|[_ H]]; [congruence | discriminate].
      * intros H. left. congruence.
    + split.
      * intros [H|[H _]]; [congruence | exact H].
      * intros H. right. split; [exact H | reflexivity].
Qed.

Lemma In_items_mem {V} (k : string) (v : V) (d : Dict.t V) :
  In (k, v) (Dict.items d) -> Dict.mem k d = true.
Proof.
  intros H. apply mem_get. exists v. apply In_items. exact H.
Qed.

End DictFacts.

(** ** Response classification *)

(** C7.  A response counts as a success exactly when its status is in
    200..399 or is 404; the error kind is "blocked" for 403,
    "rate_limited" for 429, "server_error" for 500..599 and "http_error"
    for every other status. *)
Theorem response_classification :
  forall response : Response.t,
    let status := Response.status response in
    (Middleware._is_successful_response response = true
       <-> (200 <= status < 400 \/ status = 404))
    /\ Middleware._classify_response_error response =
         (if status =? 403 then "blocked"
          else if status =? 429 then "rate_limited"
          else if (500 <=? status) && (status <=? 599) then "server_error"
          else "http_error").
Proof.
  intros [status]; cbn -[Z.leb Z.ltb Z.eqb].
  unfold Middleware._is_successful_response, Middleware._classify_response_error.
  cbn -[Z.leb Z.ltb Z.eqb].
  split.
  - destruct (200 <=? status) eqn:E1; destruct (status <? 400) eqn:E2;
      destruct (status =? 404) eqn:E3; cbn;
      rewrite ?Z.leb_le, ?Z.leb_gt, ?Z.ltb_lt, ?Z.ltb_ge, ?Z.eqb_eq, ?Z.eqb_neq in *;
      split; intros H; try reflexivity; try discriminate; try lia.
  - destruct (status =? 403); [reflexivity|].
    destruct (status =? 429); [reflexivity|].
    destruct (500 <=? status); cbn; [|reflexivity].
    destruct (status <? 600) eqn:E1; destruct (status <=? 599) eqn:E2;
      rewrite ?Z.leb_le, ?Z.leb_gt, ?Z.ltb_lt, ?Z.ltb_ge in *;
      try reflexivity; lia.
Qed.

(** ** Expiry of a session *)

Lemma is_expired_reads_the_clock_once {S} (s : ProxySession.t) (st : S) (w : World) :
  outcome_of (ProxySession.is_expired s st w)
  = Return (ProxySession.is_expired_at (clock w (reads w)) s).
Proof. reflexivity. Qed.

Lemma timedelta_seconds_within_a_day (td : Z) :
  0 <= td < seconds_per_day * microseconds_per_second ->
  timedelta_seconds td = td / microseconds_per_second.
Proof.
  intros H. unfold timedelta_seconds.
  apply Z.mod_small.
  unfold seconds_per_day, microseconds_per_second in *.
  split.
  - apply Z.div_pos; lia.
  - apply Z.div_lt_upper_bound; lia.
Qed.

(** C3, as the claim words it, fails at the boundary: a session that is
    exactly [max_duration] seconds old and has sent nothing is expired by
    the specification and not by the code. *)
Lemma is_expired_differs_at_max_duration :
  let s := Examples.session in
  let now := ProxySession.created_at s + 3600 * microseconds_per_second in
  ~ (outcome_of (ProxySession.is_expired s tt (Examples.frozen_world now)) = Return true
     <-> expired_by_spec now s).
Proof.
  cbv zeta. intros [_ H].
  assert (E : expired_by_spec
                (ProxySession.created_at Examples.session + 3600 * microseconds_per_second)
                Examples.session).
  { left. vm_compute. discriminate. }
  specialize (H E). vm_compute in H. discriminate.
Qed.

(** C3, amended.  For a session that is less than a day old at the reading
    [now] of the clock: [is_expired] is true exactly when the whole
    seconds of [now - created_at] exceed [max_duration], or
    [requests_count >= max_requests]. *)
Theorem is_expired_within_a_day :
  forall (S : Type) (st : S) (w : World) (s : ProxySession.t),
    let now := clock w (reads w) in
    0 <= now - ProxySession.created_at s < seconds_per_day * microseconds_per_second ->
    (outcome_of (ProxySession.is_expired s st w) = Return true
     <-> (ProxySession.max_duration s
            < (now - ProxySession.created_at s) / microseconds_per_second
          \/ ProxySession.max_requests s <= ProxySession.requests_count s)).
Proof.
  intros S st w s now Hday.
  rewrite is_expired_reads_the_clock_once. fold now.
  unfold ProxySession.is_expired_at.
  rewrite (timedelta_seconds_within_a_day Hday).
  split.
  - intros H. injection H as H. apply orb_true_iff in H.
    destruct H as [H|H]; [left; apply Z.ltb_lt | right; apply Z.leb_le]; exact H.
  - intros H. f_equal. apply orb_true_iff.
    destruct H as [H|H]; [left; apply Z.ltb_lt | right; apply Z.leb_le]; exact H.
Qed.

Lemma is_expired_within_a_day_witness :
  outcome_of (ProxySession.is_expired Examples.session tt
                (Examples.frozen_world (Examples.t0 + 3601 * microseconds_per_second)))
  = Return true.
Proof.
  apply (is_expired_within_a_day tt
           (Examples.frozen_world (Examples.t0 + 3601 * microseconds_per_second))
           Examples.session).
  - vm_compute. split; [discriminate | reflexivity].
  - left. vm_compute. reflexivity.
Defined.

(** ** Success rate and health *)

Lemma Qltb_false (x y : Q) : Qltb x y = false <-> (y <= x)%Q.
Proof.
  unfold Qltb. rewrite negb_false_iff. apply Qle_bool_iff.
Qed.

Lemma is_healthy_reads_the_clock {S} (m : ProxyMetrics.t) (st : S) (w : World) :
  outcome_of (ProxyMetrics.is_healthy m st w)
  = Return (ProxyMetrics.is_healthy_at (clock w (reads w)) m).
Proof.
  unfold ProxyMetrics.is_healthy, ProxyMetrics.is_healthy_at.
  destruct (Qltb (ProxyMetrics.success_rate m) 80); [reflexivity|].
  destruct (ProxyMetrics.last_success m); reflexivity.
Qed.

(** C4, as the claim words it, fails for a session with few requests whose
    last success is old: one request, successful, ten minutes ago.  The
    specification calls it healthy (fewer than 5 requests), the code does
    not. *)
Lemma is_healthy_differs_after_old_success :
  let m := Examples.one_success in
  let now := timedelta_minutes 10 in
  ~ (outcome_of (ProxyMetrics.is_healthy m tt (Examples.frozen_world now)) = Return true
     <-> healthy_by_spec now m).
Proof.
  cbv zeta. intros [_ H].
  assert (E : healthy_by_spec (timedelta_minutes 10) Examples.one_success).
  { split.
    - vm_compute. discriminate.
    - right. vm_compute. reflexivity. }
  specialize (H E). vm_compute in H. discriminate.
Qed.

(** C4, amended.  [success_rate] is 100 when [requests_sent = 0] and
    [successful_requests / requests_sent * 100] otherwise; [is_healthy]
    holds exactly when [success_rate >= 80] and, if there has been a
    success, the last one is less than 5 minutes old, and if there has been
    none, [requests_sent < 5]. *)
Theorem success_rate_and_health :
  forall (S : Type) (st : S) (w : World) (m : ProxyMetrics.t),
    let now := clock w (reads w) in
    (ProxyMetrics.requests_sent m = 0 -> ProxyMetrics.success_rate m = 100%Q)
    /\ (ProxyMetrics.requests_sent m <> 0 ->
        ProxyMetrics.success_rate m
        = (inject_Z (ProxyMetrics.successful_requests m)
           / inject_Z (ProxyMetrics.requests_sent m) * 100)%Q)
    /\ (outcome_of (ProxyMetrics.is_healthy m st w) = Return true
        <-> (80 <= ProxyMetrics.success_rate m)%Q
            /\ match ProxyMetrics.last_success m with
               | Some t => now - t < timedelta_minutes 5
               | None => ProxyMetrics.requests_sent m < 5
               end).
Proof.
  intros S st w m now. repeat split.
  - intros H. unfold ProxyMetrics.success_rate. rewrite H. reflexivity.
  - intros H. unfold ProxyMetrics.success_rate.
    destruct (Z.eqb_spec (ProxyMetrics.requests_sent m) 0); [contradiction | reflexivity].
  - rewrite is_healthy_reads_the_clock in H. fold now in H. injection H as H.
    unfold ProxyMetrics.is_healthy_at in H.
    destruct (Qltb (ProxyMetrics.success_rate m) 80) eqn:E; [discriminate|].
    apply Qltb_false. exact E.
  - rewrite is_healthy_reads_the_clock in H. fold now in H. injection H as H.
    unfold ProxyMetrics.is_healthy_at in H.
    destruct (Qltb (ProxyMetrics.success_rate m) 80) eqn:E; [discriminate|].
    destruct (ProxyMetrics.last_success m); apply Z.ltb_lt; exact H.
  - intros [Hrate Hrecent].
    rewrite is_healthy_reads_the_clock. fold now. f_equal.
    unfold ProxyMetrics.is_healthy_at.
    apply Qltb_false in Hrate. rewrite Hrate.
    destruct (ProxyMetrics.last_success m); apply Z.ltb_lt; exact Hrecent.
Qed.

Lemma success_rate_and_health_witness :
  ProxyMetrics.success_rate ProxyMetrics.default = 100%Q
  /\ ProxyMetrics.success_rate Examples.one_success = (inject_Z 1 / inject_Z 1 * 100)%Q
  /\ outcome_of (ProxyMetrics.is_healthy Examples.one_success tt
                   (Examples.frozen_world (timedelta_minutes 4))) = Return true.
Proof.
  split; [|split].
  - apply (success_rate_and_health tt Examples.world ProxyMetrics.default). reflexivity.
  - apply (success_rate_and_health tt Examples.world Examples.one_success). discriminate.
  - apply (success_rate_and_health tt (Examples.frozen_world (timedelta_minutes 4))
             Examples.one_success).
    split.
    + vm_compute. discriminate.
    + vm_compute. reflexivity.
Defined.

(** A session older than a day: only the seconds field of the age is
    compared, so after one day and ten seconds the unused session is not
    expired. *)
Lemma is_expired_forgets_whole_days :
  let s := Examples.session in
  let now := ProxySession.created_at s
             + (seconds_per_day + 10) * microseconds_per_second in
  ProxySession.is_expired_at now s = false.
Proof. vm_compute. reflexivity. Qed.

(** ** Outcomes for a session without metrics *)

(** C10.  When [session_id] has no entry in [metrics], [record_success]
    and [record_failure] return without changing anything: the manager
    (so also its metrics, counters and blacklist) and the world are as
    before. *)
Theorem record_without_metrics_entry :
  forall (pm : ProxyManager.t) (w : World) (session_id : string)
         (response_time : Q) (error_type : string),
    Dict.mem session_id (ProxyManager.metrics pm) = false ->
    ProxyManager.record_success session_id response_time pm w = (Return tt, pm, w)
    /\ ProxyManager.record_failure session_id error_type pm w = (Return tt, pm, w).
Proof.
  intros pm w session_id response_time error_type H.
  apply DictFacts.mem_false_get in H.
  unfold ProxyManager.record_success, ProxyManager.record_failure, bind, get_self.
  rewrite H. split; reflexivity.
Qed.

Lemma record_without_metrics_entry_witness :
  let pm := Middleware.proxy_manager Examples.middleware_in_flight in
  let w := Examples.world_in_flight in
  Dict.mem Examples.session_id (ProxyManager.metrics pm) = true
  /\ ProxyManager.record_success "scraper-ffffffffffffffff" 1 pm w = (Return tt, pm, w)
  /\ ProxyManager.record_failure "scraper-ffffffffffffffff" "blocked" pm w
     = (Return tt, pm, w).
Proof.
  intros pm w. split.
  - vm_compute. reflexivity.
  - apply (record_without_metrics_entry pm w "scraper-ffffffffffffffff" 1 "blocked").
    vm_compute. reflexivity.
Defined.

(** ** The hooks and exceptions *)

(** [session_id] is not a field of [BrightdataConfig]: the constructor
    call of [_ensure_sessions] is a [TypeError], whatever it is given. *)
Lemma session_config_call_raises (config : BrightdataConfig.t) (session_id : string) :
  ProxyManager.session_config_call config session_id = Error TypeError.
Proof. reflexivity. Qed.

(** So whenever the pool has room and the generated id is not blacklisted,
    creating a session raises.  Stated for a manager with no session and
    nothing blacklisted, as it is when the middleware starts. *)
Lemma get_proxy_raises_on_empty_pool (pm : ProxyManager.t) (w : World) (fuel : nat) :
  BrightdataConfigManager.is_enabled (ProxyManager.config_manager pm) = true ->
  ProxyManager.sessions pm = [] ->
  ProxyManager.blacklisted_sessions pm = [] ->
  0 < ProxyManager.max_sessions pm ->
  outcome_of (ProxyManager.get_proxy ProxyManager.session_config_call (S fuel) pm w)
  = Raise TypeError.
Proof.
  destruct pm as [cm ms ri ss so me ro rs bl bd]; cbn [ProxyManager.config_manager
    ProxyManager.sessions ProxyManager.blacklisted_sessions ProxyManager.max_sessions].
  intros Hen -> -> Hms.
  unfold ProxyManager.get_proxy, bind at 1, get_self at 1.
  cbn [ProxyManager.config_manager]. rewrite Hen. cbn [negb].
  assert (Hcfg : exists c, BrightdataConfigManager.get_config cm = Some c).
  { unfold BrightdataConfigManager.is_enabled in Hen.
    destruct (BrightdataConfigManager.get_config cm) as [c|]; [eauto|].
    destruct (BrightdataConfigManager.lower _ =? "true")%string; discriminate. }
  destruct Hcfg as [c Hc].
  apply Z.ltb_lt in Hms.
  unfold outcome_of, bind, ProxyManager._cleanup_expired, ProxyManager._ensure_sessions,
    get_self, now, modify.
  cbn -[Z.ltb timedelta_minutes]. rewrite Hc.
  cbn -[Z.ltb timedelta_minutes]. rewrite Hms.
  reflexivity.
Qed.

(** C1, the failing input.  A middleware started with proxies enabled and
    complete credentials gets its first request: [process_request] asks
    the manager for a proxy, the manager has to create a session, and the
    hook ends in a [TypeError]. *)
Theorem process_request_raises_TypeError :
  match Middleware.__init__ Examples.config_manager 5 10 30 3 tt Examples.world with
  | (Return middleware, _, w) =>
      outcome_of (Middleware.process_request ProxyManager.session_config_call 1
                    Examples.plain_request middleware w)
      = Raise TypeError
  | _ => False
  end.
Proof. vm_compute. reflexivity. Qed.

(** ** How code moves the world *)

Lemma advances_refl (w : World) : advances w w.
Proof. unfold advances. repeat split; auto. Qed.

Lemma advances_trans (w1 w2 w3 : World) :
  advances w1 w2 -> advances w2 w3 -> advances w1 w3.
Proof.
  unfold advances. intros (A1 & A2 & A3 & A4 & A5 & A6 & A7) (B1 & B2 & B3 & B4 & B5 & B6 & B7).
  repeat split; try congruence; lia.
Qed.

Create HintDb steady.

Lemma steady_ret {S A} (a : A) : steady (@ret S A a).
Proof. intros s w. apply advances_refl. Qed.

Lemma steady_raise {S A} (e : exn) : steady (@raise S A e).
Proof. intros s w. apply advances_refl. Qed.

Lemma steady_out_of_fuel {S A} : steady (@out_of_fuel S A).
Proof. intros s w. apply advances_refl. Qed.

Lemma steady_get_self {S} : steady (@get_self S).
Proof. intros s w. apply advances_refl. Qed.

Lemma steady_put_self {S} (s0 : S) : steady (put_self s0).
Proof. intros s w. apply advances_refl. Qed.

Lemma steady_modify {S} (f : S -> S) : steady (modify f).
Proof. intros s w. apply advances_refl. Qed.

Lemma steady_lift_result {S A} (r : Result A) : steady (@lift_result S A r).
Proof. intros s w. destruct r; apply advances_refl. Qed.

Lemma steady_now {S} : steady (@now S).
Proof. intros s w. unfold advances. cbn. repeat split; auto. Qed.

Lemma steady_random {S} : steady (@random S).
Proof. intros s w. unfold advances. cbn. repeat split; auto. Qed.

Lemma steady_next_digest {S} : steady (@next_digest S).
Proof. intros s w. unfold advances. cbn. repeat split; auto. Qed.

Lemma steady_hash {S} (x : string) : steady (@hash S x).
Proof. intros s w. apply advances_refl. Qed.

Lemma steady_bind {S A B} (m : M S A) (f : A -> M S B) :
  steady m -> (forall a, steady (f a)) -> steady (bind m f).
Proof.
  intros Hm Hf s w. unfold bind.
  specialize (Hm s w). unfold world_of in *.
  destruct (m s w) as [[[a|e|] s'] w']; cbn in *; try exact Hm.
  eapply advances_trans; [exact Hm | apply Hf].
Qed.

Lemma steady_on_field {S T A} (proj : S -> T) (upd : T -> S -> S) (m : M T A) :
  steady m -> steady (on_field proj upd m).
Proof.
  intros Hm s w. unfold on_field. specialize (Hm (proj s) w). unfold world_of in *.
  destruct (m (proj s) w) as [[o t'] w']. exact Hm.
Qed.

Lemma steady_call_on {S T A} (obj : T) (m : M T A) :
  steady m -> steady (@call_on S T A obj m).
Proof.
  intros Hm s w. unfold call_on. specialize (Hm obj w). unfold world_of in *.
  destruct (m obj w) as [[[a|e|] t'] w']; exact Hm.
Qed.

Lemma steady_filterM {S A} (p : A -> M S bool) (xs : list A) :
  (forall x, steady (p x)) -> steady (filterM p xs).
Proof.
  intros Hp. induction xs as [|x xs IH]; cbn [filterM].
  - apply steady_ret.
  - apply steady_bind; [apply Hp|]. intros b.
    apply steady_bind; [exact IH|]. intros rest. apply steady_ret.
Qed.

Lemma steady_forM_ {S A} (xs : list A) (body : A -> M S unit) :
  (forall x, steady (body x)) -> steady (forM_ xs body).
Proof.
  intros Hb. induction xs as [|x xs IH]; cbn [forM_].
  - apply steady_ret.
  - apply steady_bind; [apply Hb | intros _; exact IH].
Qed.

#[global] Hint Resolve steady_ret steady_raise steady_out_of_fuel steady_get_self
  steady_put_self steady_modify steady_lift_result steady_now steady_random
  steady_next_digest steady_hash : steady.

(** Splits a computation along its binds, branches and loops. *)
Ltac steady_step :=
  match goal with
  | |- steady (bind _ _) => apply steady_bind; [|intros]
  | |- steady (on_field _ _ _) => apply steady_on_field
  | |- steady (call_on _ _) => apply steady_call_on
  | |- steady (filterM _ _) => apply steady_filterM; intros
  | |- steady (forM_ _ _) => apply steady_forM_; intros
  | |- steady (if ?b then _ else _) => destruct b
  | |- steady (match ?x with _ => _ end) => destruct x
  | |- steady (let _ := _ in _) => cbv zeta
  | |- steady _ => solve [auto with steady]
  end.

Ltac steady_tac := repeat steady_step.

Lemma steady_is_expired {S} (s : ProxySession.t) : steady (@ProxySession.is_expired S s).
Proof. unfold ProxySession.is_expired. steady_tac. Qed.

Lemma steady_is_healthy {S} (m : ProxyMetrics.t) : steady (@ProxyMetrics.is_healthy S m).
Proof. unfold ProxyMetrics.is_healthy. steady_tac. Qed.

Lemma steady_not_expired {S} (s : ProxySession.t) :
  steady (e <- @ProxySession.is_expired S s ;; ret (negb e)).
Proof. apply steady_bind; [apply steady_is_expired | intros e; apply steady_ret]. Qed.

Lemma steady_use : steady ProxySession.use.
Proof. unfold ProxySession.use. steady_tac. Qed.

Lemma steady_getitem_default (k : string) : steady (getitem_default k).
Proof. unfold getitem_default. steady_tac. Qed.

#[global] Hint Resolve steady_is_expired steady_is_healthy steady_use
  steady_getitem_default : steady.

Lemma steady_metrics_getitem (k : string) : steady (ProxyRotator.metrics_getitem k).
Proof. unfold ProxyRotator.metrics_getitem. steady_tac. Qed.

#[global] Hint Resolve steady_metrics_getitem : steady.

Lemma steady_weights_of (sessions : list SessionRef) : steady (ProxyRotator.weights_of sessions).
Proof.
  induction sessions as [|s rest IH]; cbn [ProxyRotator.weights_of]; steady_tac.
Qed.

#[global] Hint Resolve steady_weights_of : steady.

Lemma steady_select_next (sessions : list SessionRef) : steady (ProxyRotator.select_next sessions).
Proof.
  unfold ProxyRotator.select_next, ProxyRotator.healthy, ProxyRotator._round_robin_select,
    ProxyRotator._weighted_select, ProxyRotator.random_choice.
  steady_tac.
Qed.

#[global] Hint Resolve steady_select_next : steady.

Lemma steady_blacklist_session (k : string) : steady (ProxyManager._blacklist_session k).
Proof. unfold ProxyManager._blacklist_session. steady_tac. Qed.

Lemma steady_cleanup_expired : steady ProxyManager._cleanup_expired.
Proof. unfold ProxyManager._cleanup_expired. steady_tac. Qed.

Lemma steady_record_success (k : string) (rt : Q) : steady (ProxyManager.record_success k rt).
Proof. unfold ProxyManager.record_success. steady_tac. Qed.

#[global] Hint Resolve steady_blacklist_session steady_cleanup_expired
  steady_record_success : steady.

Lemma steady_record_failure (k e : string) : steady (ProxyManager.record_failure k e).
Proof. unfold ProxyManager.record_failure. steady_tac. Qed.

Lemma steady_session_details (l : list ProxySession.t) : steady (ProxyManager.session_details l).
Proof.
  induction l as [|s rest IH]; cbn [ProxyManager.session_details]; steady_tac.
Qed.

#[global] Hint Resolve steady_record_failure steady_session_details : steady.

Lemma steady_get_stats : steady ProxyManager.get_stats.
Proof. unfold ProxyManager.get_stats. steady_tac. Qed.

Lemma steady_ensure_loop sc (fuel : nat) (config : BrightdataConfig.t) (active_count : Z) :
  steady (ProxyManager.ensure_loop sc fuel config active_count).
Proof.
  revert active_count.
  induction fuel as [|fuel IH]; intros active_count; cbn [ProxyManager.ensure_loop];
    unfold ProxyManager._generate_session_id; steady_tac.
Qed.

#[global] Hint Resolve steady_get_stats steady_ensure_loop : steady.

Lemma steady_ensure_sessions sc (fuel : nat) : steady (ProxyManager._ensure_sessions sc fuel).
Proof. unfold ProxyManager._ensure_sessions. steady_tac. Qed.

#[global] Hint Resolve steady_ensure_sessions : steady.

Lemma steady_get_proxy sc (fuel : nat) : steady (ProxyManager.get_proxy sc fuel).
Proof.
  unfold ProxyManager.get_proxy, ProxyManager.with_rotator_and_metrics. steady_tac.
Qed.

#[global] Hint Resolve steady_get_proxy : steady.

(** ** Reasoning about stateful code *)

Lemma preserves_state {S A} (I : S -> World -> Prop) (m : M S A) :
  preserves I m -> forall s w, I s w -> I (state_of (m s w)) (world_of (m s w)).
Proof.
  intros H s w Hs. specialize (H s w Hs). unfold state_of, world_of.
  destruct (m s w) as [[[a|e|] s'] w']; exact H.
Qed.

(** When the same assertion holds however the code ends, it holds of the
    state and world the code leaves. *)
Lemma preserves_state_post {S A} (P Q : S -> World -> Prop) (m : M S A) :
  hoare P m (fun _ => Q) Q -> forall s w, P s w -> Q (state_of (m s w)) (world_of (m s w)).
Proof.
  intros H s w Hs. specialize (H s w Hs). unfold state_of, world_of.
  destruct (m s w) as [[[a|e|] s'] w']; exact H.
Qed.

Lemma hoare_conseq {S A} (P P' : S -> World -> Prop) (m : M S A)
    (Q Q' : A -> S -> World -> Prop) (E E' : S -> World -> Prop) :
  hoare P m Q E ->
  (forall s w, P' s w -> P s w) ->
  (forall a s w, Q a s w -> Q' a s w) ->
  (forall s w, E s w -> E' s w) ->
  hoare P' m Q' E'.
Proof.
  intros H HP HQ HE s w Hs. specialize (H s w (HP s w Hs)).
  destruct (m s w) as [[[a|e|] s'] w']; auto.
Qed.

Lemma hoare_ret {S A} (P : S -> World -> Prop) (a : A) Q E :
  (forall s w, P s w -> Q a s w) -> hoare P (ret a) Q E.
Proof. intros H s w Hs. cbn. auto. Qed.

Lemma hoare_raise {S A} (P : S -> World -> Prop) (e : exn) (Q : A -> S -> World -> Prop) E :
  (forall s w, P s w -> E s w) -> hoare P (raise e) Q E.
Proof. intros H s w Hs. cbn. auto. Qed.

Lemma hoare_out_of_fuel {S A} (P : S -> World -> Prop) (Q : A -> S -> World -> Prop) E :
  (forall s w, P s w -> E s w) -> hoare P out_of_fuel Q E.
Proof. intros H s w Hs. cbn. auto. Qed.

Lemma hoare_bind {S A B} (P : S -> World -> Prop) (m : M S A) (f : A -> M S B)
    (R : A -> S -> World -> Prop) Q E :
  hoare P m R E -> (forall a, hoare (R a) (f a) Q E) -> hoare P (bind m f) Q E.
Proof.
  intros Hm Hf s w Hs. unfold bind. specialize (Hm s w Hs).
  destruct (m s w) as [[[a|e|] s'] w']; try exact Hm.
  apply (Hf a s' w' Hm).
Qed.

Lemma hoare_get_self {S} (P : S -> World -> Prop) E :
  hoare P get_self (fun a s w => a = s /\ P s w) E.
Proof. intros s w Hs. cbn. auto. Qed.

Lemma hoare_modify {S} (P : S -> World -> Prop) (f : S -> S) Q E :
  (forall s w, P s w -> Q tt (f s) w) -> hoare P (modify f) Q E.
Proof. intros H s w Hs. cbn. auto. Qed.

Lemma hoare_now {S} (P : S -> World -> Prop) Q E :
  (forall s w, P s w -> Q (clock w (reads w)) s (after_reading w)) -> hoare P now Q E.
Proof. intros H s w Hs. cbn. apply H. exact Hs. Qed.

(** Read-only code keeps any stable assertion, and what it returns is one
    of its possible results. *)
Lemma hoare_readonly {S A} (P : S -> World -> Prop) (m : M S A) (R : A -> Prop) :
  readonly m -> steady m -> stable P ->
  (forall s w a, outcome_of (m s w) = Return a -> R a) ->
  hoare P m (fun a s w => P s w /\ R a) P.
Proof.
  intros Hro Hst HP HR s w Hs.
  specialize (Hro s w). specialize (Hst s w). specialize (HR s w).
  unfold state_of, world_of, outcome_of in *.
  destruct (m s w) as [[o s'] w']; cbn in *. subst s'.
  destruct o as [a|e|]; [split|..]; eauto.
Qed.

Lemma readonly_ret {S A} (a : A) : readonly (@ret S A a).
Proof. intros s w. reflexivity. Qed.

Lemma readonly_bind {S A B} (m : M S A) (f : A -> M S B) :
  readonly m -> (forall a, readonly (f a)) -> readonly (bind m f).
Proof.
  intros Hm Hf s w. unfold bind. specialize (Hm s w). unfold state_of in *.
  destruct (m s w) as [[[a|e|] s'] w']; cbn in *; subst; auto.
  apply Hf.
Qed.

Lemma readonly_filterM {S A} (p : A -> M S bool) (xs : list A) :
  (forall x, readonly (p x)) -> readonly (filterM p xs).
Proof.
  intros Hp. induction xs as [|x xs IH]; cbn [filterM].
  - apply readonly_ret.
  - apply readonly_bind; [apply Hp|]. intros b.
    apply readonly_bind; [exact IH|]. intros rest. apply readonly_ret.
Qed.

Lemma readonly_is_expired {S} (s : ProxySession.t) : readonly (@ProxySession.is_expired S s).
Proof. intros st w. reflexivity. Qed.

Lemma readonly_not_expired {S} (s : ProxySession.t) :
  readonly (e <- @ProxySession.is_expired S s ;; ret (negb e)).
Proof. intros st w. reflexivity. Qed.

Lemma readonly_call_on {S T A} (obj : T) (m : M T A) : readonly (@call_on S T A obj m).
Proof.
  intros s w. unfold call_on, state_of. destruct (m obj w) as [[[a|e|] t'] w']; reflexivity.
Qed.

(** What a comprehension with a test keeps comes from the list it runs over. *)
Lemma filterM_incl {S A} (p : A -> M S bool) (xs : list A) :
  forall s w l, outcome_of (filterM p xs s w) = Return l -> incl l xs.
Proof.
  induction xs as [|x xs IH]; intros s w l; cbn [filterM].
  - cbn. intros H. injection H as <-. apply incl_refl.
  - unfold bind at 1. destruct (p x s w) as [[[b|e|] s1] w1]; try discriminate.
    unfold bind at 1. specialize (IH s1 w1).
    unfold outcome_of in *.
    destruct (filterM p xs s1 w1) as [[[rest|e|] s2] w2]; try discriminate.
    cbn. intros H. injection H as <-.
    specialize (IH rest eq_refl).
    destruct b.
    + apply incl_cons; [left; reflexivity | apply incl_tl; exact IH].
    + apply incl_tl. exact IH.
Qed.

(** A comprehension returns when its test does. *)
Lemma filterM_returns {S A} (p : A -> M S bool) (xs : list A) :
  (forall x s w, returns (outcome_of (p x s w)) = true) ->
  forall s w, returns (outcome_of (filterM p xs s w)) = true.
Proof.
  intros Hp. induction xs as [|x xs IH]; intros s w; cbn [filterM].
  - reflexivity.
  - unfold bind at 1. specialize (Hp x s w). unfold outcome_of in *.
    destruct (p x s w) as [[[b|e|] s1] w1]; try discriminate.
    unfold bind at 1. specialize (IH s1 w1).
    destruct (filterM p xs s1 w1) as [[[rest|e|] s2] w2]; try discriminate.
    reflexivity.
Qed.

(** A loop of plain updates. *)
Lemma forM_modify {S A} (xs : list A) (f : A -> S -> S) (s : S) (w : World) :
  forM_ xs (fun x => modify (f x)) s w = (Return tt, fold_left (fun st x => f x st) xs s, w).
Proof.
  revert s. induction xs as [|x xs IH]; intros s; cbn [forM_ fold_left].
  - reflexivity.
  - unfold bind. cbn. apply IH.
Qed.

Lemma bind_Return_inv {S A B} (m : M S A) (f : A -> M S B) (s : S) (w : World) (b : B) :
  outcome_of (bind m f s w) = Return b ->
  exists a s' w', m s w = (Return a, s', w') /\ outcome_of (f a s' w') = Return b.
Proof.
  unfold bind, outcome_of. destruct (m s w) as [[[a|e|] s'] w']; cbn; try discriminate.
  intros H. exists a, s', w'. split; [reflexivity | exact H].
Qed.

(** ** The rotator picks among the sessions it is given *)

Lemma min_requests_In (best : SessionRef) (rest : list SessionRef) :
  In (ProxyRotator.min_requests best rest) (best :: rest).
Proof.
  revert best. induction rest as [|s rest IH]; intros best; cbn [ProxyRotator.min_requests].
  - left. reflexivity.
  - destruct (_ <? _).
    + right. apply IH.
    + destruct (IH best) as [H|H]; [left; exact H | right; right; exact H].
Qed.

Lemma pick_weighted_In (rand_val current : Q) (weights : list Q) (sessions : list SessionRef)
    (s : SessionRef) :
  ProxyRotator.pick_weighted rand_val current weights sessions = Some s -> In s sessions.
Proof.
  revert current sessions.
  induction weights as [|x weights IH]; intros current [|s0 sessions]; cbn; try discriminate.
  destruct (Qle_bool _ _).
  - intros H. injection H as <-. left. reflexivity.
  - intros H. right. eapply IH. exact H.
Qed.

Lemma round_robin_select_In (sessions : list SessionRef) st w (s : SessionRef) :
  outcome_of (ProxyRotator._round_robin_select sessions st w) = Return s -> In s sessions.
Proof.
  unfold ProxyRotator._round_robin_select, bind, get_self, outcome_of. cbn.
  destruct (List.length sessions =? 0)%nat; [discriminate|].
  destruct (nth_error sessions _) as [x|] eqn:E; cbn; [|discriminate].
  intros H. injection H as <-. eapply nth_error_In. exact E.
Qed.

Lemma weighted_select_In (sessions : list SessionRef) st w (s : SessionRef) :
  outcome_of (ProxyRotator._weighted_select sessions st w) = Return s -> In s sessions.
Proof.
  unfold ProxyRotator._weighted_select. intros H.
  apply bind_Return_inv in H. destruct H as (weights & st1 & w1 & _ & H).
  destruct (Qeq_bool _ 0).
  - destruct sessions as [|x sessions]; [discriminate|].
    injection H as <-. left. reflexivity.
  - apply bind_Return_inv in H. destruct H as (u & st2 & w2 & _ & H).
    destruct (ProxyRotator.pick_weighted _ _ _ _) as [x|] eqn:E.
    + injection H as <-. eapply pick_weighted_In. exact E.
    + destruct (rev sessions) as [|x l] eqn:R; [discriminate|].
      injection H as <-. apply in_rev. rewrite R. left. reflexivity.
Qed.

Lemma random_choice_In (sessions : list SessionRef) st w (s : SessionRef) :
  outcome_of (ProxyRotator.random_choice sessions st w) = Return s -> In s sessions.
Proof.
  unfold ProxyRotator.random_choice. intros H.
  apply bind_Return_inv in H. destruct H as (u & st1 & w1 & _ & H).
  destruct (nth_error sessions _) as [x|] eqn:E; [|discriminate].
  injection H as <-. eapply nth_error_In. exact E.
Qed.

Lemma select_next_In (sessions : list SessionRef) st w (s : SessionRef) :
  outcome_of (ProxyRotator.select_next sessions st w) = Return (Some s) -> In s sessions.
Proof.
  unfold ProxyRotator.select_next.
  destruct sessions as [|first others]; [discriminate|].
  intros H. apply bind_Return_inv in H. destruct H as (hs & st1 & w1 & Hf & H).
  assert (Hincl : incl hs (first :: others)).
  { eapply filterM_incl. unfold outcome_of. rewrite Hf. reflexivity. }
  destruct hs as [|h hs].
  - injection H as <-. apply min_requests_In.
  - apply bind_Return_inv in H. destruct H as (st2 & st3 & w3 & _ & H).
    destruct (_ =? "round_robin")%string.
    { apply bind_Return_inv in H. destruct H as (x & st4 & w4 & Hx & H).
      injection H as <-. apply Hincl. eapply round_robin_select_In.
      unfold outcome_of. rewrite Hx. reflexivity. }
    destruct (_ =? "weighted")%string.
    { apply bind_Return_inv in H. destruct H as (x & st4 & w4 & Hx & H).
      injection H as <-. apply Hincl. eapply weighted_select_In.
      unfold outcome_of. rewrite Hx. reflexivity. }
    destruct (_ =? "random")%string.
    { apply bind_Return_inv in H. destruct H as (x & st4 & w4 & Hx & H).
      injection H as <-. apply Hincl. eapply random_choice_In.
      unfold outcome_of. rewrite Hx. reflexivity. }
    injection H as <-. apply Hincl. left. reflexivity.
Qed.

(** ** Invariants of the manager *)

Lemma set_sessions_same (pm : ProxyManager.t) :
  ProxyManager.set_sessions (ProxyManager.sessions pm) pm = pm.
Proof. destruct pm. reflexivity. Qed.

Lemma set_blacklisted_sessions_same (pm : ProxyManager.t) :
  ProxyManager.set_blacklisted_sessions (ProxyManager.blacklisted_sessions pm) pm = pm.
Proof. destruct pm. reflexivity. Qed.

Lemma fold_unblacklist (ks : list string) (pm : ProxyManager.t) :
  fold_left (fun st k => ProxyManager.set_blacklisted_sessions
                           (Dict.del k (ProxyManager.blacklisted_sessions st)) st) ks pm
  = ProxyManager.set_blacklisted_sessions
      (without_keys ks (ProxyManager.blacklisted_sessions pm)) pm.
Proof.
  unfold without_keys. revert pm. induction ks as [|k ks IH]; intros pm; cbn [fold_left].
  - symmetry. apply set_blacklisted_sessions_same.
  - rewrite IH. reflexivity.
Qed.

Lemma get_without_keys (k : string) (ks : list string) (d : Dict.t Z) :
  ~ In k ks -> Dict.get k (without_keys ks d) = Dict.get k d.
Proof.
  unfold without_keys. revert d. induction ks as [|k0 ks IH]; intros d Hk; cbn [fold_left].
  - reflexivity.
  - rewrite IH by (intros H; apply Hk; right; exact H).
    rewrite DictFacts.get_del.
    destruct (String.eqb_spec k k0) as [E|E]; [|reflexivity].
    exfalso. apply Hk. left. symmetry. exact E.
Qed.

Lemma mem_without_keys (k : string) (ks : list string) (d : Dict.t Z) :
  Dict.mem k (without_keys ks d) = true -> Dict.mem k d = true.
Proof.
  unfold without_keys. revert d. induction ks as [|k0 ks IH]; intros d; cbn [fold_left].
  - auto.
  - intros H. apply IH in H. rewrite DictFacts.mem_del in H.
    apply andb_true_iff in H. apply H.
Qed.

Section ManagerInvariant.

Import ProxyManager.

(** An assertion on the manager and the world that the elementary steps
    of the code keep. *)
Variable I : ProxyManager.t -> World -> Prop.

Hypothesis I_stable : stable I.
Hypothesis I_metrics : forall pm w v, I pm w -> I (set_metrics v pm) w.
Hypothesis I_rotator : forall pm w v, I pm w -> I (set_rotator v pm) w.
Hypothesis I_session_order : forall pm w v, I pm w -> I (set_session_order v pm) w.
Hypothesis I_requests_since_rotation :
  forall pm w v, I pm w -> I (set_requests_since_rotation v pm) w.

(** A session is dropped. *)
Hypothesis I_del_session :
  forall pm w k, I pm w -> I (set_sessions (Dict.del k (sessions pm)) pm) w.

(** A session of the pool is updated. *)
Hypothesis I_update_session :
  forall pm w k v, I pm w -> Dict.mem k (sessions pm) = true ->
    I (set_sessions (Dict.set k v (sessions pm)) pm) w.

(** A session whose id is not blacklisted is stored. *)
Hypothesis I_new_session :
  forall pm w k v, I pm w -> Dict.mem k (blacklisted_sessions pm) = false ->
    I (set_sessions (Dict.set k v (sessions pm)) pm) w.

(** A session is blacklisted at the next reading of the clock and dropped. *)
Hypothesis I_blacklist :
  forall pm w k, I pm w ->
    I (set_sessions (Dict.del k (sessions pm))
         (set_blacklisted_sessions
            (Dict.set k (clock w (reads w)) (blacklisted_sessions pm)) pm))
      (after_reading w).

(** Blacklist entries older than [blacklist_duration] at the next reading
    of the clock are dropped. *)
Hypothesis I_unblacklist :
  forall pm w ks, I pm w ->
    (forall k, In k ks ->
       exists blacklisted_at,
         Dict.get k (blacklisted_sessions pm) = Some blacklisted_at
         /\ blacklist_duration pm < clock w (reads w) - blacklisted_at) ->
    I (set_blacklisted_sessions (without_keys ks (blacklisted_sessions pm)) pm)
      (after_reading w).

Lemma hoare_I_readonly {A} (m : M ProxyManager.t A) :
  readonly m -> steady m -> preserves I m.
Proof.
  intros Hro Hst.
  eapply hoare_conseq.
  - apply hoare_readonly with (P := I) (R := fun _ : A => True); auto.
  - auto.
  - cbn. tauto.
  - auto.
Qed.

Lemma preserves_blacklist_session (k : string) : preserves I (_blacklist_session k).
Proof.
  intros pm w H. cbn.
  set (pm1 := set_blacklisted_sessions _ pm).
  assert (H1 : I (set_sessions (Dict.del k (sessions pm1)) pm1) (after_reading w)).
  { apply (I_blacklist k H). }
  assert (H2 : I (if Dict.mem k (sessions pm1)
                  then set_sessions (Dict.del k (sessions pm1)) pm1 else pm1)
                 (after_reading w)).
  { destruct (Dict.mem k (sessions pm1)) eqn:E; [exact H1|].
    apply DictFacts.mem_false_get in E.
    rewrite (DictFacts.del_absent _ _ E), set_sessions_same in H1. exact H1. }
  destruct (list_mem k _); [apply I_session_order|]; exact H2.
Qed.

Lemma preserves_cleanup_expired : preserves I _cleanup_expired.
Proof.
  unfold _cleanup_expired.
  eapply hoare_bind; [apply hoare_get_self|]. intros self. cbn beta.
  eapply hoare_bind with (R := fun _ => I).
  { eapply hoare_conseq with (P := I) (Q := fun _ => I) (E := I).
    - apply hoare_I_readonly.
      + apply readonly_filterM. intros x. apply readonly_is_expired.
      + steady_tac.
    - intros s w [_ H]. exact H.
    - auto.
    - auto. }
  intros expired_sessions.
  eapply hoare_bind with (R := fun _ => I).
  { intros s w H. rewrite (forM_modify (map fst expired_sessions)
      (fun session_id st =>
         (fun self => if list_mem session_id (session_order self)
                      then set_session_order (list_remove session_id (session_order self)) self
                      else self)
           (set_sessions (Dict.del session_id (sessions st)) st))).
    revert s H. induction (map fst expired_sessions) as [|k ks IH]; intros s H; cbn [fold_left].
    - exact H.
    - apply IH. destruct (list_mem k _).
      + apply I_session_order. apply I_del_session. exact H.
      + apply I_del_session. exact H. }
  intros _. intros s w H. cbn.
  rewrite (forM_modify _
    (fun session_id self =>
       set_blacklisted_sessions (Dict.del session_id (blacklisted_sessions self)) self)).
  rewrite fold_unblacklist.
  apply I_unblacklist; [exact H|].
  intros k Hk. apply in_map_iff in Hk. destruct Hk as ([k' at'] & Hfst & Hin).
  cbn in Hfst. subst k'.
  apply filter_In in Hin. destruct Hin as [Hin Hexp]. cbn in Hexp.
  exists at'. split.
  - apply DictFacts.In_items. exact Hin.
  - apply Z.ltb_lt. exact Hexp.
Qed.

Lemma preserves_record_success (k : string) (rt : Q) : preserves I (record_success k rt).
Proof.
  intros pm w H. unfold record_success, bind, get_self.
  destruct (Dict.get k (metrics pm)); cbn.
  - apply I_metrics. apply (I_stable (w := w)); [|exact H].
    apply (advances_trans (w2 := after_reading w)).
    + apply (steady_now tt w).
    + apply (steady_now tt (after_reading w)).
  - exact H.
Qed.

Lemma preserves_record_failure (k e : string) : preserves I (record_failure k e).
Proof.
  unfold record_failure.
  eapply hoare_bind; [apply hoare_get_self|]. intros self. cbn beta.
  destruct (Dict.get k (metrics self)) as [metric|].
  - eapply hoare_bind with (R := fun _ => I).
    { apply hoare_now. intros s w [_ H]. apply (I_stable (w := w)); [|exact H].
      apply (steady_now tt w). }
    intros used.
    eapply hoare_bind with (R := fun _ => I).
    { apply hoare_now. intros s w H. apply (I_stable (w := w)); [|exact H].
      apply (steady_now tt w). }
    intros failed. cbv zeta.
    eapply hoare_bind with (R := fun _ => I).
    { apply hoare_modify. intros s w H. apply I_metrics. exact H. }
    intros _.
    destruct (_ && _).
    + apply preserves_blacklist_session.
    + apply hoare_ret. auto.
  - apply hoare_ret. intros s w [_ H]. exact H.
Qed.

Section SessionCreation.

Variable session_config : BrightdataConfig.t -> string -> Result BrightdataConfig.t.

Lemma preserves_ensure_loop (fuel : nat) (config : BrightdataConfig.t) (active_count : Z) :
  preserves I (ensure_loop session_config fuel config active_count).
Proof.
  revert active_count. induction fuel as [|fuel IH]; intros active_count; cbn [ensure_loop].
  - eapply hoare_bind; [apply hoare_get_self|]. intros self. cbn beta.
    destruct (_ <? _).
    + apply hoare_out_of_fuel. intros s w [_ H]. exact H.
    + apply hoare_ret. intros s w [_ H]. exact H.
  - eapply hoare_bind; [apply hoare_get_self|]. intros self. cbn beta.
    destruct (_ <? _); [|apply hoare_ret; intros s w [_ H]; exact H].
    eapply hoare_bind with (R := fun _ => I).
    { intros s w [_ H]. cbn. apply (I_stable (w := w)); [|exact H].
      apply (steady_next_digest tt w). }
    intros session_id.
    eapply hoare_bind; [apply hoare_get_self|]. intros self'. cbn beta.
    destruct (Dict.mem session_id (blacklisted_sessions self')) eqn:Hbl.
    { eapply hoare_conseq; [apply IH | | auto | auto]. intros s w [_ H]. exact H. }
    destruct (session_config config session_id) as [sc|e].
    + eapply hoare_bind with (R := fun _ s w => s = self' /\ I s w).
      { apply hoare_now. intros s w [E H]. split; [auto|].
        apply (I_stable (w := w)); [|exact H]. apply (steady_now tt w). }
      intros created_at.
      eapply hoare_bind with (R := fun _ s w => s = self' /\ I s w).
      { apply hoare_now. intros s w [E H]. split; [auto|].
        apply (I_stable (w := w)); [|exact H]. apply (steady_now tt w). }
      intros last_used. cbv zeta.
      eapply hoare_bind with (R := fun _ => I).
      { apply hoare_modify. intros s w [E H]. subst s.
        apply I_new_session; [exact H | exact Hbl]. }
      intros _.
      eapply hoare_bind with (R := fun _ => I).
      { apply hoare_modify. intros s w H. apply I_session_order. exact H. }
      intros _. apply IH.
    + apply hoare_raise. intros s w [_ H]. exact H.
Qed.

Lemma preserves_ensure_sessions (fuel : nat) :
  preserves I (_ensure_sessions session_config fuel).
Proof.
  unfold _ensure_sessions.
  eapply hoare_bind; [apply hoare_get_self|]. intros self. cbn beta.
  destruct (BrightdataConfigManager.get_config _) as [config|].
  - eapply hoare_bind with (R := fun _ => I).
    { eapply hoare_conseq with (P := I) (Q := fun _ => I) (E := I).
      - apply hoare_I_readonly.
        + apply readonly_filterM. intros x. apply readonly_not_expired.
        + steady_tac.
      - intros s w [_ H]. exact H.
      - auto.
      - auto. }
    intros active. apply preserves_ensure_loop.
  - apply hoare_ret. intros s w [_ H]. exact H.
Qed.

Lemma hoare_with_rotator_and_metrics {A} (P : ProxyManager.t -> World -> Prop)
    (m : M ProxyRotator.St A) (R : A -> Prop) :
  stable P ->
  (forall s w r v, P s w -> P (set_metrics v (set_rotator r s)) w) ->
  steady m ->
  (forall st w a, outcome_of (m st w) = Return a -> R a) ->
  hoare P (with_rotator_and_metrics m) (fun a s w => P s w /\ R a) P.
Proof.
  intros HP Hins Hst HR s w H.
  unfold with_rotator_and_metrics, on_field.
  specialize (Hst (rotator s, metrics s) w). specialize (HR (rotator s, metrics s) w).
  unfold world_of, outcome_of in *.
  destruct (m (rotator s, metrics s) w) as [[o [r v]] w']. cbn in *.
  assert (H' : P (set_metrics v (set_rotator r s)) w').
  { apply (HP _ w); [exact Hst|]. apply Hins. exact H. }
  destruct o as [a|e|]; [split|..]; auto.
Qed.

Lemma preserves_session_details (l : list ProxySession.t) :
  preserves I (session_details l).
Proof.
  induction l as [|s rest IH]; cbn [session_details].
  - apply hoare_ret. auto.
  - eapply hoare_bind with (R := fun _ => I).
    { intros pm w H. unfold on_field.
      pose proof (steady_getitem_default (ProxySession.session_id s) (metrics pm) w) as Hst.
      unfold world_of in Hst.
      destruct (getitem_default _ _ w) as [[o d'] w']. cbn in Hst.
      assert (H' : I (set_metrics d' pm) w').
      { apply (I_stable (w := w)); [exact Hst|]. apply I_metrics. exact H. }
      destruct o; exact H'. }
    intros metric.
    eapply hoare_bind with (R := fun _ => I).
    { apply hoare_now. intros pm w H. apply (I_stable (w := w)); [|exact H].
      apply (steady_now tt w). }
    intros n. cbv zeta.
    eapply hoare_bind; [exact IH|]. intros details.
    apply hoare_ret. auto.
Qed.

Lemma preserves_get_stats : preserves I get_stats.
Proof.
  unfold get_stats.
  eapply hoare_bind; [apply hoare_get_self|]. intros self. cbn beta.
  eapply hoare_bind with (R := fun _ => I).
  { eapply hoare_conseq with (P := I) (Q := fun _ => I) (E := I).
    - apply hoare_I_readonly.
      + apply readonly_filterM. intros x. apply readonly_not_expired.
      + steady_tac.
    - intros s w [_ H]. exact H.
    - auto.
    - auto. }
  intros active. cbv zeta.
  eapply hoare_bind; [apply preserves_session_details|]. intros details.
  apply hoare_ret. auto.
Qed.

Lemma preserves_get_proxy (fuel : nat) : preserves I (get_proxy session_config fuel).
Proof.
  unfold get_proxy.
  eapply hoare_bind; [apply hoare_get_self|]. intros self0. cbn beta.
  destruct (negb _); [apply hoare_ret; intros s w [_ H]; exact H|].
  eapply hoare_bind with (R := fun _ => I).
  { eapply hoare_conseq; [apply preserves_cleanup_expired | | auto | auto].
    intros s w [_ H]. exact H. }
  intros _.
  eapply hoare_bind; [apply preserves_ensure_sessions|]. intros ?.
  eapply hoare_bind; [apply hoare_get_self|]. intros self. cbn beta.
  set (P := fun (s : ProxyManager.t) (w : World) => sessions s = sessions self /\ I s w).
  assert (HP : stable P).
  { intros s w w' Hadv [E H]. split; [exact E|]. apply (I_stable Hadv H). }
  eapply hoare_bind
    with (R := fun active s w => P s w /\ incl active (Dict.items (sessions self))).
  { eapply hoare_conseq with (P := P) (E := P).
    - apply hoare_readonly with (R := fun active => incl active (Dict.items (sessions self))).
      + apply readonly_filterM. intros x. apply readonly_not_expired.
      + steady_tac.
      + exact HP.
      + intros s w l Hl. eapply filterM_incl. exact Hl.
    - intros s w [E H]. subst s. split; [reflexivity | exact H].
    - auto.
    - intros s w [_ H]. exact H. }
  intros active.
  destruct active as [|a0 active].
  { apply hoare_ret. intros s w [[_ H] _]. exact H. }
  eapply hoare_bind
    with (R := fun selected s w =>
                 P s w /\ forall x, selected = Some x -> In x (Dict.items (sessions self))).
  { eapply hoare_conseq
      with (P := fun s w => P s w /\ incl (a0 :: active) (Dict.items (sessions self)))
           (E := fun s w => P s w /\ incl (a0 :: active) (Dict.items (sessions self))).
    - apply hoare_with_rotator_and_metrics
        with (R := fun selected => forall x, selected = Some x -> In x (a0 :: active)).
      + intros s w w' Hadv [Hp Hi]. split; [apply (HP _ _ _ Hadv Hp) | exact Hi].
      + intros s w r v [[E H] Hi]. split; [split|exact Hi].
        * exact E.
        * apply I_metrics. apply I_rotator. exact H.
      + apply steady_select_next.
      + intros st w sel Hsel x ->. eapply select_next_In. exact Hsel.
    - auto.
    - intros sel s w [[Hp Hi] Hsel]. split; [exact Hp|].
      intros x Hx. apply Hi. apply Hsel. exact Hx.
    - intros s w [[_ H] _]. exact H. }
  intros selected.
  destruct selected as [[key selected_session]|].
  2: { apply hoare_ret. intros s w [[_ H] _]. exact H. }
  eapply hoare_bind
    with (R := fun _ s w => P s w /\ In (key, selected_session) (Dict.items (sessions self))).
  { eapply hoare_conseq
      with (P := fun s w => P s w /\ In (key, selected_session) (Dict.items (sessions self)))
           (E := fun s w => P s w /\ In (key, selected_session) (Dict.items (sessions self))).
    - apply hoare_readonly with (R := fun _ => True).
      + apply readonly_call_on.
      + apply steady_call_on. apply steady_use.
      + intros s w w' Hadv [Hp Hi]. split; [apply (HP _ _ _ Hadv Hp) | exact Hi].
      + auto.
    - intros s w [Hp Hsel]. split; [exact Hp|]. apply Hsel. reflexivity.
    - intros r s w [H _]. exact H.
    - intros s w [[_ H] _]. exact H. }
  intros used. cbv zeta.
  eapply hoare_bind with (R := fun _ => I).
  { apply hoare_modify. intros s w [[E H] Hin].
    apply I_update_session; [exact H|].
    rewrite E. eapply DictFacts.In_items_mem. exact Hin. }
  intros _.
  eapply hoare_bind with (R := fun _ => I).
  { apply hoare_modify. intros s w H. apply I_requests_since_rotation. exact H. }
  intros _. apply hoare_ret. auto.
Qed.

(** Every call on the manager keeps [I], and so does every sequence of
    calls. *)
Lemma preserves_call (op : Op) : preserves I (call session_config op).
Proof.
  destruct op; cbn [call].
  - eapply hoare_bind; [apply preserves_get_proxy|]. intros ?. apply hoare_ret. auto.
  - apply preserves_record_success.
  - apply preserves_record_failure.
  - eapply hoare_bind; [apply preserves_get_stats|]. intros ?. apply hoare_ret. auto.
  - apply preserves_ensure_sessions.
  - apply preserves_cleanup_expired.
  - apply preserves_blacklist_session.
Qed.

Lemma preserves_calls (ops : list Op) (pm : ProxyManager.t) (w : World) :
  I pm w ->
  I (fst (calls session_config ops pm w)) (snd (calls session_config ops pm w)).
Proof.
  revert pm w. induction ops as [|op ops IH]; intros pm w H; cbn [calls].
  - exact H.
  - apply IH. apply preserves_state; [apply preserves_call | exact H].
Qed.

End SessionCreation.

End ManagerInvariant.

(** ** Active sessions and the blacklist *)

Lemma new_manager_no_session_blacklisted cm max_sessions rotation_interval w :
  match ProxyManager.__init__ cm max_sessions rotation_interval tt w with
  | (Return pm, _, _) => no_session_blacklisted pm
  | _ => False
  end.
Proof. cbn. intros k H. discriminate. Qed.

Lemma calls_keep_no_session_blacklisted sc (ops : list ProxyManager.Op)
    (pm : ProxyManager.t) (w : World) :
  no_session_blacklisted pm ->
  no_session_blacklisted (fst (ProxyManager.calls sc ops pm w)).
Proof.
  apply (preserves_calls (I := fun pm _ => no_session_blacklisted pm));
    unfold no_session_blacklisted; cbn.
  - intros s w0 w' _ H. exact H.
  - auto.
  - auto.
  - auto.
  - auto.
  - intros pm0 w0 k H k' Hk'. rewrite DictFacts.mem_del in Hk'.
    apply andb_true_iff in Hk'. apply H. apply Hk'.
  - intros pm0 w0 k v H Hk k' Hk'. rewrite DictFacts.mem_set in Hk'.
    destruct (String.eqb_spec k' k) as [E|E].
    + subst k'. apply H. exact Hk.
    + apply H. exact Hk'.
  - intros pm0 w0 k v H Hk k' Hk'. rewrite DictFacts.mem_set in Hk'.
    destruct (String.eqb_spec k' k) as [E|E].
    + subst k'. exact Hk.
    + apply H. exact Hk'.
  - intros pm0 w0 k H k' Hk'. rewrite DictFacts.mem_del in Hk'.
    apply andb_true_iff in Hk'. destruct Hk' as [Hne Hk'].
    rewrite DictFacts.mem_set. apply negb_true_iff in Hne. rewrite Hne.
    apply H. exact Hk'.
  - intros pm0 w0 ks H _ k Hk.
    destruct (Dict.mem k (without_keys ks _)) eqn:E; [|reflexivity].
    apply mem_without_keys in E. rewrite (H k Hk) in E. discriminate.
Qed.

Lemma readings_within_earlier (from : nat) (since till : Z) (w w' : World) :
  advances w w' -> readings_within from since till w' -> readings_within from since till w.
Proof.
  intros (C & _ & _ & _ & R & _ & _) H i Hi. rewrite <- C. apply H. lia.
Qed.

Lemma readings_within_next (from : nat) (since till : Z) (w : World) :
  (from <= reads w)%nat ->
  readings_within from since till (after_reading w) ->
  readings_within from since till w /\ since <= clock w (reads w) <= till.
Proof.
  intros Hfrom H. split.
  - intros i Hi. apply (H i). cbn. lia.
  - apply (H (reads w)). cbn. lia.
Qed.

Lemma calls_keep_out sc (session_id : string) (from : nat) (since till : Z)
    (ops : list ProxyManager.Op) (pm : ProxyManager.t) (w : World) :
  kept_out session_id from since till pm w ->
  kept_out session_id from since till
    (fst (ProxyManager.calls sc ops pm w)) (snd (ProxyManager.calls sc ops pm w)).
Proof.
  apply (preserves_calls (I := kept_out session_id from since till));
    unfold kept_out, blacklisted_since; cbn.
  - intros s w0 w' Hadv (H1 & H2 & H3).
    destruct Hadv as (C & D & R & Hh & Hr & Hd & Hl).
    split; [lia|]. split; [exact H2|].
    intros Hw. apply H3.
    apply (readings_within_earlier (w := w0) (w' := w')); [|exact Hw].
    unfold advances. repeat split; assumption.
  - auto.
  - auto.
  - auto.
  - auto.
  - intros pm0 w0 k (H1 & H2 & H3). repeat split; auto; try apply H3; auto.
    rewrite DictFacts.mem_del. destruct (H3 H) as [_ H5]. rewrite H5. apply andb_false_r.
  - intros pm0 w0 k v (H1 & H2 & H3) Hk. repeat split; auto; try apply H3; auto.
    rewrite DictFacts.mem_set. destruct (H3 H) as [_ H5]. rewrite H5.
    destruct (String.eqb_spec session_id k) as [E|E]; [congruence | reflexivity].
  - intros pm0 w0 k v (H1 & H2 & H3) Hk. repeat split; auto; try apply H3; auto.
    rewrite DictFacts.mem_set. destruct (H3 H) as [(b & H4 & _) H5]. rewrite H5.
    destruct (String.eqb_spec session_id k) as [E|E]; [|reflexivity].
    apply DictFacts.mem_false_get in Hk. congruence.
  - intros pm0 w0 k (H1 & H2 & H3).
    split; [lia|]. split; [exact H2|].
    intros Hw. destruct (readings_within_next H1 Hw) as [Hw0 Hnow].
    destruct (H3 Hw0) as [(b & H4 & H4') H5].
    split.
    + rewrite DictFacts.get_set.
      destruct (String.eqb_spec session_id k) as [E|E].
      * exists (clock w0 (reads w0)). split; [reflexivity | apply Hnow].
      * exists b. split; assumption.
    + rewrite DictFacts.mem_del, H5. apply andb_false_r.
  - intros pm0 w0 ks (H1 & H2 & H3) Hks.
    split; [lia|]. split; [exact H2|].
    intros Hw. destruct (readings_within_next H1 Hw) as [Hw0 Hnow].
    destruct (H3 Hw0) as [(b & H4 & H4') H5].
    split; [|exact H5].
    exists b. split; [|exact H4'].
    rewrite get_without_keys; [exact H4|].
    intros Hin. destruct (Hks _ Hin) as (b' & Hb' & Hexp).
    assert (b' = b) by congruence. subst b'. lia.
Qed.

(** Right after [_blacklist_session] the session is kept out. *)
Lemma blacklist_session_keeps_out (session_id : string) (pm : ProxyManager.t) (w : World) :
  let blacklisted_at := clock w (reads w) in
  let r := ProxyManager._blacklist_session session_id pm w in
  kept_out session_id (reads w) blacklisted_at
    (blacklisted_at + ProxyManager.blacklist_duration pm) (state_of r) (world_of r).
Proof.
  intros blacklisted_at r. subst r. unfold kept_out, blacklisted_since. cbn.
  split; [lia|]. split.
  - destruct (Dict.mem session_id (ProxyManager.sessions pm));
      destruct (ProxyManager.list_mem session_id _); cbn; lia.
  - intros _. split.
    + exists blacklisted_at. split; [|lia].
      destruct (Dict.mem session_id (ProxyManager.sessions pm));
        destruct (ProxyManager.list_mem session_id _); cbn;
        rewrite DictFacts.get_set, String.eqb_refl; reflexivity.
    + destruct (Dict.mem session_id (ProxyManager.sessions pm)) eqn:E;
        destruct (ProxyManager.list_mem session_id _); cbn;
        rewrite ?DictFacts.mem_del, ?String.eqb_refl; auto.
Qed.

Lemma steady_call sc (op : ProxyManager.Op) : steady (ProxyManager.call sc op).
Proof. destruct op; cbn [ProxyManager.call]; steady_tac. Qed.

Lemma calls_advance sc (ops : list ProxyManager.Op) (pm : ProxyManager.t) (w : World) :
  advances w (snd (ProxyManager.calls sc ops pm w)).
Proof.
  revert pm w. induction ops as [|op ops IH]; intros pm w; cbn [ProxyManager.calls].
  - apply advances_refl.
  - eapply advances_trans; [apply (steady_call sc op pm w) | apply IH].
Qed.

(** C8.  A manager in which no session id is both active and blacklisted
    stays so under every sequence of calls, whatever creates the session
    configurations.  And once [_blacklist_session] has put a session id on
    the blacklist at the clock reading [t0], then after every sequence of
    calls during which the clock has read within
    [t0, t0 + blacklist_duration), the id is still blacklisted and not in
    [sessions]: [_ensure_sessions] and [get_proxy] have not brought it
    back. *)
Theorem blacklisted_sessions_stay_out :
  forall (session_config : BrightdataConfig.t -> string -> Result BrightdataConfig.t)
         (pm : ProxyManager.t) (w : World),
    no_session_blacklisted pm ->
    (forall ops, no_session_blacklisted (fst (ProxyManager.calls session_config ops pm w)))
    /\ (forall session_id ops,
          let t0 := clock w (reads w) in
          let r := ProxyManager._blacklist_session session_id pm w in
          let after := ProxyManager.calls session_config ops (state_of r) (world_of r) in
          (forall i, (reads w <= i < reads (snd after))%nat ->
                     t0 <= clock w i < t0 + ProxyManager.blacklist_duration pm) ->
          Dict.mem session_id (ProxyManager.sessions (fst after)) = false
          /\ Dict.mem session_id (ProxyManager.blacklisted_sessions (fst after)) = true).
Proof.
  intros sc pm w Hdisj. split.
  - intros ops. apply calls_keep_no_session_blacklisted. exact Hdisj.
  - intros session_id ops t0 r after Hwin.
    pose proof (blacklist_session_keeps_out session_id pm w) as K. cbv zeta in K.
    fold t0 r in K.
    apply (calls_keep_out sc ops) in K. fold after in K.
    destruct K as (_ & _ & K).
    assert (Hadv : advances w (snd after)).
    { eapply advances_trans.
      - apply (steady_blacklist_session session_id pm w).
      - apply calls_advance. }
    destruct Hadv as (C & _).
    destruct K as [(b & Hb & _) Hout].
    { intros i Hi. rewrite C. specialize (Hwin i Hi). lia. }
    split; [exact Hout|]. apply DictFacts.mem_get. exists b. exact Hb.
Qed.

Lemma blacklisted_sessions_stay_out_witness :
  let ops := [ProxyManager.GetProxy 2;
              ProxyManager.RecordFailure Examples.session_id "blocked";
              ProxyManager.CleanupExpired;
              ProxyManager.EnsureSessions 2] in
  let w := Examples.frozen_world Examples.t0 in
  no_session_blacklisted
    (fst (ProxyManager.calls ProxyManager.session_config_call ops Examples.manager w))
  /\ (let r := ProxyManager._blacklist_session Examples.session_id Examples.manager w in
      let pm' := fst (ProxyManager.calls ProxyManager.session_config_call ops
                        (state_of r) (world_of r)) in
      Dict.mem Examples.session_id (ProxyManager.sessions pm') = false
      /\ Dict.mem Examples.session_id (ProxyManager.blacklisted_sessions pm') = true).
Proof.
  intros ops w.
  assert (H : no_session_blacklisted Examples.manager).
  { intros k _. reflexivity. }
  destruct (@blacklisted_sessions_stay_out ProxyManager.session_config_call
              Examples.manager w H) as [H1 H2].
  split.
  - apply H1.
  - apply H2. intros i _. cbn. unfold Examples.t0. lia.
Defined.

(** ** Termination of session creation *)

(** One pass through the body of the loop. *)
Lemma ensure_loop_step sc (fuel : nat) (config : BrightdataConfig.t) (active_count : Z)
    (pm : ProxyManager.t) (w : World) :
  ProxyManager.ensure_loop sc (S fuel) config active_count pm w
  = if active_count <? ProxyManager.max_sessions pm then
      let session_id := generated w (drawn w) in
      let w1 := after_digest w in
      if Dict.mem session_id (ProxyManager.blacklisted_sessions pm)
      then ProxyManager.ensure_loop sc fuel config active_count pm w1
      else
        match sc config session_id with
        | Ok session_config =>
            let session :=
              ProxySession.new session_id session_config
                (clock w1 (reads w1)) (clock w1 (S (reads w1))) in
            ProxyManager.ensure_loop sc fuel config (active_count + 1)
              (ProxyManager.set_session_order
                 (ProxyManager.session_order pm ++ [session_id])%list
                 (ProxyManager.set_sessions
                    (Dict.set session_id session (ProxyManager.sessions pm)) pm))
              (after_reading (after_reading w1))
        | Error e => (Raise e, pm, w1)
        end
    else (Return tt, pm, w).
Proof.
  cbn [ProxyManager.ensure_loop]. unfold bind at 1, get_self at 1.
  destruct (active_count <? ProxyManager.max_sessions pm); [|reflexivity].
  unfold bind at 1. cbn [ProxyManager._generate_session_id next_digest bind ret].
  unfold ProxyManager._generate_session_id, bind at 1, next_digest, ret.
  unfold bind at 1, get_self at 1. cbv zeta.
  fold (generated w (drawn w)). fold (after_digest w).
  destruct (Dict.mem _ _); [reflexivity|].
  destruct (sc config (generated w (drawn w))); reflexivity.
Qed.

Lemma ensure_loop_out_of_fuel sc (config : BrightdataConfig.t) (active_count : Z)
    (pm : ProxyManager.t) (w : World) :
  ProxyManager.ensure_loop sc 0 config active_count pm w
  = if active_count <? ProxyManager.max_sessions pm
    then (OutOfFuel, pm, w) else (Return tt, pm, w).
Proof.
  cbn [ProxyManager.ensure_loop]. unfold bind, get_self.
  destruct (_ <? _); reflexivity.
Qed.

(** While the pool is below capacity and every generated id is on the
    blacklist, the loop does not come to an end, however long it runs. *)
Lemma ensure_loop_spins sc (fuel : nat) (config : BrightdataConfig.t) (active_count : Z)
    (pm : ProxyManager.t) (w : World) :
  active_count < ProxyManager.max_sessions pm ->
  (forall i, (drawn w <= i)%nat ->
     Dict.mem (generated w i) (ProxyManager.blacklisted_sessions pm) = true) ->
  outcome_of (ProxyManager.ensure_loop sc fuel config active_count pm w) = OutOfFuel.
Proof.
  intros Hroom. apply Z.ltb_lt in Hroom.
  revert w. induction fuel as [|fuel IH]; intros w Hcol.
  - rewrite ensure_loop_out_of_fuel, Hroom. reflexivity.
  - rewrite ensure_loop_step, Hroom. cbv zeta.
    rewrite (Hcol (drawn w) (le_n _)).
    apply IH. intros i Hi. apply (Hcol i). cbn in Hi. lia.
Qed.

(** Once the generated ids stop colliding, the loop ends within as many
    passes as there were collisions plus sessions to create. *)
Lemma ensure_loop_settles sc (config : BrightdataConfig.t) (fuel : nat) :
  forall (collisions : nat) (active_count : Z) (pm : ProxyManager.t) (w : World),
    (forall i, (drawn w + collisions <= i)%nat ->
       Dict.mem (generated w i) (ProxyManager.blacklisted_sessions pm) = false) ->
    (collisions + Z.to_nat (ProxyManager.max_sessions pm - active_count) <= fuel)%nat ->
    settles (outcome_of (ProxyManager.ensure_loop sc fuel config active_count pm w)) = true.
Proof.
  induction fuel as [|fuel IH]; intros collisions active_count pm w Hfree Hfuel.
  - rewrite ensure_loop_out_of_fuel.
    destruct (Z.ltb_spec active_count (ProxyManager.max_sessions pm)); [lia | reflexivity].
  - rewrite ensure_loop_step.
    destruct (Z.ltb_spec active_count (ProxyManager.max_sessions pm)) as [Hroom|]; [|reflexivity].
    cbv zeta.
    destruct (Dict.mem (generated w (drawn w)) _) eqn:Hcol.
    + destruct collisions as [|collisions].
      { rewrite Hfree in Hcol by lia. discriminate. }
      apply (IH collisions).
      * intros i Hi. apply (Hfree i). cbn in Hi. lia.
      * lia.
    + destruct (sc config (generated w (drawn w))); try reflexivity.
      apply (IH collisions).
      * intros i Hi. apply (Hfree i). cbn in Hi. lia.
      * cbn [ProxyManager.max_sessions ProxyManager.set_session_order
             ProxyManager.set_sessions]. lia.
Qed.

(** X27.  [_ensure_sessions] comes to an end, by returning or by raising,
    once the generated ids stop colliding with the blacklist: if every id
    from the [collisions]-th one on is free, [collisions + max_sessions]
    passes of the loop are enough, whatever the constructor call does. *)
Theorem ensure_sessions_ends_when_collisions_cease :
  forall (session_config : BrightdataConfig.t -> string -> Result BrightdataConfig.t)
         (pm : ProxyManager.t) (w : World) (collisions fuel : nat),
    (forall i, (drawn w + collisions <= i)%nat ->
       Dict.mem (generated w i) (ProxyManager.blacklisted_sessions pm) = false) ->
    (collisions + Z.to_nat (ProxyManager.max_sessions pm) <= fuel)%nat ->
    settles (outcome_of (ProxyManager._ensure_sessions session_config fuel pm w)) = true.
Proof.
  intros sc pm w collisions fuel Hfree Hfuel.
  unfold ProxyManager._ensure_sessions.
  unfold bind at 1, get_self at 1.
  destruct (BrightdataConfigManager.get_config _) as [config|]; [|reflexivity].
  set (count := filterM _ _).
  unfold bind.
  pose proof (readonly_filterM
                (fun s : ProxySession.t => e <- ProxySession.is_expired s ;; ret (negb e))
                (Dict.values (ProxyManager.sessions pm))
                (fun x => readonly_not_expired x) pm w) as Hro.
  pose proof (steady_filterM
                (fun s : ProxySession.t => e <- ProxySession.is_expired s ;; ret (negb e))
                (Dict.values (ProxyManager.sessions pm))
                (fun x => steady_not_expired x) pm w) as Hst.
  fold count in Hro, Hst. unfold state_of, world_of in *.
  assert (Hret : returns (outcome_of (count pm w)) = true).
  { apply filterM_returns. intros x s0 w0. reflexivity. }
  unfold outcome_of in Hret.
  destruct (count pm w) as [[[active|e|] pm1] w1]; cbn in Hro, Hst; try discriminate.
  subst pm1. destruct Hst as (_ & Hd & _ & _ & _ & Hdr & _).
  apply ensure_loop_settles with (collisions := collisions).
  - intros i Hi. unfold generated. rewrite Hd. apply Hfree. lia.
  - lia.
Qed.

Lemma ensure_sessions_ends_when_collisions_cease_witness :
  settles (outcome_of (ProxyManager._ensure_sessions ProxyManager.session_config_call 5
                         Examples.new_manager Examples.world))
  = true.
Proof.
  apply (@ensure_sessions_ends_when_collisions_cease ProxyManager.session_config_call
           Examples.new_manager Examples.world 0 5).
  - intros i Hi. reflexivity.
  - cbn. lia.
Defined.

(** ** Recording outcomes *)

Lemma record_success_counts (pm : ProxyManager.t) (w : World) (k : string) (rt : Q)
    (m : ProxyMetrics.t) :
  Dict.get k (ProxyManager.metrics pm) = Some m ->
  exists pm' w',
    ProxyManager.record_success k rt pm w = (Return tt, pm', w')
    /\ option_map ProxyMetrics.requests_sent (Dict.get k (ProxyManager.metrics pm'))
       = Some (ProxyMetrics.requests_sent m + 1).
Proof.
  intros H. unfold ProxyManager.record_success, bind, get_self. rewrite H. cbn.
  eexists. eexists. split; [reflexivity|].
  cbn. rewrite DictFacts.get_set, String.eqb_refl. reflexivity.
Qed.

Lemma blacklist_session_keeps_metrics (k : string) (pm : ProxyManager.t) (w : World) :
  exists pm' w',
    ProxyManager._blacklist_session k pm w = (Return tt, pm', w')
    /\ ProxyManager.metrics pm' = ProxyManager.metrics pm.
Proof.
  cbn. eexists. eexists. split; [reflexivity|].
  destruct (Dict.mem k _); destruct (ProxyManager.list_mem k _); reflexivity.
Qed.

Lemma record_failure_counts (pm : ProxyManager.t) (w : World) (k e : string)
    (m : ProxyMetrics.t) :
  Dict.get k (ProxyManager.metrics pm) = Some m ->
  exists pm' w',
    ProxyManager.record_failure k e pm w = (Return tt, pm', w')
    /\ option_map ProxyMetrics.requests_sent (Dict.get k (ProxyManager.metrics pm'))
       = Some (ProxyMetrics.requests_sent m + 1).
Proof.
  intros H. unfold ProxyManager.record_failure.
  unfold bind at 1. unfold get_self at 1. cbv beta iota. rewrite H.
  unfold bind at 1. unfold now at 1. cbv beta iota.
  unfold bind at 1. unfold now at 1. cbv beta iota zeta.
  unfold bind at 1. unfold modify at 1. cbv beta iota.
  destruct (_ && _).
  - match goal with
    | |- context [ProxyManager._blacklist_session k ?s ?w0] =>
        destruct (blacklist_session_keeps_metrics k s w0) as (pm' & w' & Hr & Hm)
    end.
    exists pm', w'. split; [exact Hr|].
    rewrite Hm. cbn. rewrite DictFacts.get_set, String.eqb_refl. reflexivity.
  - eexists. eexists. split; [reflexivity|].
    cbn. rewrite DictFacts.get_set, String.eqb_refl. reflexivity.
Qed.

Section ProcessResponse.

Variables (request : Request.t) (response : Response.t) (session_id : string) (sent : Z).

Hypothesis proxied :
  truthy (Request.meta_get "brightdata_enabled" VNone request) = true.
Hypothesis with_session :
  Request.meta_get "proxy_session_id" VNone request = VStr session_id.
Hypothesis start_time_is_a_number :
  micro (Request.meta_get "request_start_time" (VInt 0) request) <> None.

Lemma hoare_record_success (rt : Q) :
  hoare (counted session_id sent) (Middleware.record_success (VStr session_id) rt)
        (fun _ => counted session_id (sent + 1)) (counted session_id (sent + 1)).
Proof.
  intros mw w H. unfold counted, requests_sent_of in H.
  cbn [Middleware.record_success]. unfold Middleware.on_proxy_manager, on_field.
  destruct (Dict.get session_id (ProxyManager.metrics (Middleware.proxy_manager mw)))
    as [m|] eqn:Hm; [|discriminate].
  cbn in H. injection H as H.
  destruct (@record_success_counts (Middleware.proxy_manager mw) w session_id rt m Hm)
    as (pm' & w' & Hr & Hc).
  rewrite Hr. unfold counted, requests_sent_of. cbn. rewrite Hc, H. reflexivity.
Qed.

Lemma hoare_record_failure (error_type : string) :
  hoare (counted session_id sent) (Middleware.record_failure (VStr session_id) error_type)
        (fun _ => counted session_id (sent + 1)) (counted session_id (sent + 1)).
Proof.
  intros mw w H. unfold counted, requests_sent_of in H.
  cbn [Middleware.record_failure]. unfold Middleware.on_proxy_manager, on_field.
  destruct (Dict.get session_id (ProxyManager.metrics (Middleware.proxy_manager mw)))
    as [m|] eqn:Hm; [|discriminate].
  cbn in H. injection H as H.
  destruct (@record_failure_counts (Middleware.proxy_manager mw) w session_id error_type m Hm)
    as (pm' & w' & Hr & Hc).
  rewrite Hr. unfold counted, requests_sent_of. cbn. rewrite Hc, H. reflexivity.
Qed.

Lemma hoare_after_recording {A} (m : M Middleware.t A) (n : Z) :
  readonly m ->
  hoare (counted session_id n) m (fun _ => counted session_id n) (counted session_id n).
Proof.
  intros Hro mw w H. specialize (Hro mw w). unfold state_of in Hro.
  destruct (m mw w) as [[[a|e|] mw'] w']; cbn in Hro; subst mw'; exact H.
Qed.

Lemma readonly_should_retry (resp : Response.t) (req : Request.t) :
  readonly (Middleware._should_retry_with_different_proxy resp req).
Proof.
  intros mw w. unfold Middleware._should_retry_with_different_proxy, bind, get_self.
  destruct (Middleware.retries_exhausted mw req) as [[|]|e]; reflexivity.
Qed.

Lemma readonly_retry (req : Request.t) :
  readonly (Middleware._retry_with_different_proxy req).
Proof.
  intros mw w. unfold Middleware._retry_with_different_proxy, bind.
  destruct (plus_one _) as [v|e]; reflexivity.
Qed.

(** One call of [process_response] for a proxied request whose session
    has a metrics entry adds one to the count of that entry, also when
    the call then raises. *)
Lemma process_response_counts :
  hoare (counted session_id sent) (Middleware.process_response request response)
        (fun _ => counted session_id (sent + 1)) (counted session_id (sent + 1)).
Proof.
  unfold Middleware.process_response.
  rewrite proxied, with_session. cbn [negb]. cbv zeta.
  destruct (micro (Request.meta_get "request_start_time" (VInt 0) request)) as [start|];
    [|contradiction].
  eapply hoare_bind with (R := fun _ => counted session_id sent).
  { destruct (0 <? start).
    - eapply hoare_bind with (R := fun _ => counted session_id sent).
      + apply hoare_now. auto.
      + intros n. apply hoare_ret. auto.
    - apply hoare_ret. auto. }
  intros response_time.
  destruct (Middleware._is_successful_response response).
  - eapply hoare_bind; [apply hoare_record_success|]. intros ?.
    eapply hoare_bind with (R := fun _ => counted session_id (sent + 1)).
    { apply hoare_modify. auto. }
    intros _. apply hoare_ret. auto.
  - eapply hoare_bind; [apply hoare_record_failure|]. intros ?.
    eapply hoare_bind with (R := fun _ => counted session_id (sent + 1)).
    { apply hoare_modify. auto. }
    intros _.
    eapply hoare_bind with (R := fun _ => counted session_id (sent + 1)).
    { apply hoare_ret. auto. }
    intros _.
    eapply hoare_bind; [apply hoare_after_recording; apply readonly_should_retry|].
    intros retry. cbn beta.
    destruct retry.
    + eapply hoare_bind; [apply hoare_after_recording; apply readonly_retry|].
      intros new_request. apply hoare_ret. auto.
    + apply hoare_ret. auto.
Qed.

End ProcessResponse.

Lemma record_success_without_entry (k : string) (rt : Q) (pm : ProxyManager.t) (w : World) :
  Dict.get k (ProxyManager.metrics pm) = None ->
  ProxyManager.record_success k rt pm w = (Return tt, pm, w).
Proof. intros H. unfold ProxyManager.record_success, bind, get_self. rewrite H. reflexivity. Qed.

Lemma record_failure_without_entry (k e : string) (pm : ProxyManager.t) (w : World) :
  Dict.get k (ProxyManager.metrics pm) = None ->
  ProxyManager.record_failure k e pm w = (Return tt, pm, w).
Proof. intros H. unfold ProxyManager.record_failure, bind, get_self. rewrite H. reflexivity. Qed.

Section Tally.

Variables (request : Request.t) (response : Response.t) (session_id : string).
Variables (key : string) (n : Z) (pm : ProxyManager.t) (no_entry : Prop).

Hypothesis without_entry :
  no_entry -> Dict.get session_id (ProxyManager.metrics pm) = None.

Hypothesis proxied :
  truthy (Request.meta_get "brightdata_enabled" VNone request) = true.
Hypothesis with_session :
  Request.meta_get "proxy_session_id" VNone request = VStr session_id.
Hypothesis start_time_is_a_number :
  micro (Request.meta_get "request_start_time" (VInt 0) request) <> None.

Lemma hoare_tallied_record_success (rt : Q) (E : Middleware.t -> World -> Prop) :
  hoare (tallied key n no_entry pm) (Middleware.record_success (VStr session_id) rt)
        (fun _ => tallied key n no_entry pm) E.
Proof.
  intros mw w [Hn Hpm]. cbn [Middleware.record_success].
  unfold Middleware.on_proxy_manager, on_field.
  destruct (Dict.get session_id (ProxyManager.metrics (Middleware.proxy_manager mw)))
    as [m|] eqn:Hm.
  - destruct (@record_success_counts (Middleware.proxy_manager mw) w session_id rt m Hm)
      as (pm' & w' & Hr & _).
    rewrite Hr. split; [exact Hn|]. intros Hno. exfalso.
    specialize (Hpm Hno). apply without_entry in Hno. rewrite Hpm in Hm. congruence.
  - rewrite (@record_success_without_entry session_id rt _ w Hm).
    split; [exact Hn|]. intros Hno. cbn. destruct mw; cbn in *. apply Hpm. exact Hno.
Qed.

Lemma hoare_tallied_record_failure (error_type : string)
    (E : Middleware.t -> World -> Prop) :
  hoare (tallied key n no_entry pm) (Middleware.record_failure (VStr session_id) error_type)
        (fun _ => tallied key n no_entry pm) E.
Proof.
  intros mw w [Hn Hpm]. cbn [Middleware.record_failure].
  unfold Middleware.on_proxy_manager, on_field.
  destruct (Dict.get session_id (ProxyManager.metrics (Middleware.proxy_manager mw)))
    as [m|] eqn:Hm.
  - destruct (@record_failure_counts (Middleware.proxy_manager mw) w session_id error_type
                m Hm) as (pm' & w' & Hr & _).
    rewrite Hr. split; [exact Hn|]. intros Hno. exfalso.
    specialize (Hpm Hno). apply without_entry in Hno. rewrite Hpm in Hm. congruence.
  - rewrite (@record_failure_without_entry session_id error_type _ w Hm).
    split; [exact Hn|]. intros Hno. cbn. destruct mw; cbn in *. apply Hpm. exact Hno.
Qed.

Lemma hoare_tallied_inc_value :
  hoare (tallied key n no_entry pm) (Middleware.stats_inc_value key)
        (fun _ => tallied key (n + 1) no_entry pm) (tallied key (n + 1) no_entry pm).
Proof.
  apply hoare_modify. intros mw w [Hn Hpm]. split; [|exact Hpm].
  unfold stats_value in *. cbn. rewrite DictFacts.get_set, String.eqb_refl.
  destruct (Dict.get key (Middleware.stats mw)); lia.
Qed.

Lemma hoare_tallied_readonly {A} (m : M Middleware.t A) (k : Z) :
  readonly m ->
  hoare (tallied key k no_entry pm) m (fun _ => tallied key k no_entry pm)
        (tallied key k no_entry pm).
Proof.
  intros Hro mw w H. specialize (Hro mw w). unfold state_of in Hro.
  destruct (m mw w) as [[[a|e|] mw'] w']; cbn in Hro; subst mw'; exact H.
Qed.

Hypothesis key_of_response : key = counted_under response.

(** One call of [process_response] for a proxied request adds one to the
    stats counter of the response's class, also when the call then raises;
    and it leaves the manager as it is when the session has no metrics
    entry. *)
Lemma process_response_tallies :
  hoare (tallied key n no_entry pm) (Middleware.process_response request response)
        (fun _ => tallied key (n + 1) no_entry pm) (tallied key (n + 1) no_entry pm).
Proof.
  unfold Middleware.process_response.
  rewrite proxied, with_session. cbn [negb]. cbv zeta.
  destruct (micro (Request.meta_get "request_start_time" (VInt 0) request)) as [start|];
    [|contradiction].
  eapply hoare_bind with (R := fun _ => tallied key n no_entry pm).
  { destruct (0 <? start).
    - eapply hoare_bind with (R := fun _ => tallied key n no_entry pm).
      + apply hoare_now. auto.
      + intros ?. apply hoare_ret. auto.
    - apply hoare_ret. auto. }
  intros response_time.
  unfold counted_under in key_of_response.
  destruct (Middleware._is_successful_response response).
  - eapply hoare_bind; [apply hoare_tallied_record_success|]. intros ?.
    eapply hoare_bind with (R := fun _ => tallied key (n + 1) no_entry pm).
    { rewrite <- key_of_response. apply hoare_tallied_inc_value. }
    intros ?.
    eapply hoare_bind with (R := fun _ => tallied key (n + 1) no_entry pm).
    { apply hoare_ret. auto. }
    intros ?. apply hoare_ret. auto.
  - eapply hoare_bind; [apply hoare_tallied_record_failure|]. intros ?.
    eapply hoare_bind with (R := fun _ => tallied key (n + 1) no_entry pm).
    { rewrite <- key_of_response. apply hoare_tallied_inc_value. }
    intros ?.
    eapply hoare_bind with (R := fun _ => tallied key (n + 1) no_entry pm).
    { apply hoare_ret. auto. }
    intros ?.
    eapply hoare_bind; [apply hoare_tallied_readonly; apply readonly_should_retry|].
    intros retry. cbn beta.
    destruct retry.
    + eapply hoare_bind; [apply hoare_tallied_readonly; apply readonly_retry|].
      intros new_request. apply hoare_ret. auto.
    + apply hoare_ret. auto.
Qed.

End Tally.




(** ** The User-Agent of a session *)

Lemma get_rotated_user_agent_returns (session_id : string) (mw : Middleware.t) (w : World)
    (ua : string) :
  outcome_of (Middleware._get_rotated_user_agent session_id mw w) = Return ua ->
  user_agent_for (Middleware.user_agents mw) (str_hash w) session_id = Some ua.
Proof.
  unfold Middleware._get_rotated_user_agent, bind, get_self, hash, outcome_of, user_agent_for.
  cbn.
  destruct (List.length (Middleware.user_agents mw) =? 0)%nat; [discriminate|].
  destruct (nth_error _ _) as [x|]; [|discriminate].
  cbn. intros H. injection H as <-. reflexivity.
Qed.

Lemma on_proxy_manager_frame {A} (m : M ProxyManager.t A) (mw : Middleware.t) (w : World) :
  steady m ->
  Middleware.user_agents (state_of (Middleware.on_proxy_manager m mw w))
  = Middleware.user_agents mw
  /\ str_hash (world_of (Middleware.on_proxy_manager m mw w)) = str_hash w.
Proof.
  intros Hst. unfold Middleware.on_proxy_manager, on_field, state_of, world_of.
  specialize (Hst (Middleware.proxy_manager mw) w). unfold world_of in Hst.
  destruct (m (Middleware.proxy_manager mw) w) as [[o pm'] w']. cbn.
  split; [reflexivity | apply Hst].
Qed.

(** What [process_request] does to a request that comes without a
    User-Agent and leaves with a session attached: the User-Agent is set
    to the one that goes with the session id, nothing else is changed in
    the headers. *)
Lemma process_request_sets_user_agent sc (fuel : nat) (mw : Middleware.t) (w : World)
    (r out : Request.t) (res : HookResult) (session_id : string) :
  Dict.mem "User-Agent" (Request.headers r) = false ->
  Dict.get "proxy_session_id" (Request.meta r) = None ->
  outcome_of (Middleware.process_request sc fuel r mw w) = Return (res, out) ->
  Dict.get "proxy_session_id" (Request.meta out) = Some (VStr session_id) ->
  exists ua,
    user_agent_for (Middleware.user_agents mw) (str_hash w) session_id = Some ua
    /\ Request.headers out = Dict.set "User-Agent" ua (Request.headers r).
Proof.
  intros Hua Hnone H Hsid.
  assert (Hsame : forall (s0 : Middleware.t) (w0 : World),
             outcome_of (ret (Nothing, r) s0 w0) = Return (res, out) -> False).
  { intros s0 w0 E. injection E as _ E. subst out. congruence. }
  unfold Middleware.process_request in H.
  apply bind_Return_inv in H. destruct H as (self & s0 & w0 & Hself & H).
  injection Hself as <- <- <-.
  destruct (negb (Middleware.enabled mw)); [exfalso; eapply Hsame; exact H|].
  destruct (truthy _); [exfalso; eapply Hsame; exact H|].
  destruct (Middleware._should_skip_request r); [exfalso; eapply Hsame; exact H|].
  apply bind_Return_inv in H. destruct H as (proxy_info & mw1 & w1 & Hgp & H).
  destruct (@on_proxy_manager_frame _ (ProxyManager.get_proxy sc fuel) mw w
              (steady_get_proxy sc fuel)) as [Hagents Hhash].
  rewrite Hgp in Hagents, Hhash. cbn in Hagents, Hhash.
  destruct proxy_info as [[proxy_url proxy_meta]|]; [|exfalso; eapply Hsame; exact H].
  cbv zeta in H.
  apply bind_Return_inv in H. destruct H as (started & mw2 & w2 & Hnow & H).
  injection Hnow as <- <- <-.
  cbn [Request.headers Request.set_meta Request.set_headers] in H.
  rewrite Hua in H. cbn [negb] in H.
  apply bind_Return_inv in H. destruct H as (ua & mw3 & w3 & Hget & H).
  injection H as _ H. subst out.
  cbn [Request.meta Request.set_meta Request.set_headers Request.headers] in Hsid |- *.
  unfold Dict.update, ProxyManager.meta_items in Hsid. cbn [fold_left fst snd] in Hsid.
  rewrite !DictFacts.get_set in Hsid. cbn in Hsid. injection Hsid as Hsid.
  exists ua. split; [|reflexivity].
  rewrite <- Hagents, <- Hhash, <- Hsid.
  change (str_hash w1) with (str_hash (after_reading w1)).
  apply get_rotated_user_agent_returns.
  unfold outcome_of, after_reading. rewrite Hget. reflexivity.
Qed.

(** X28.  Requests that enter [process_request] without a User-Agent
    header and without a session id, and leave it with the same session
    attached, leave it with the same User-Agent: the entry of the
    middleware's [user_agents] at [hash(session_id)] modulo their number.
    The other headers are as they came in. *)
Theorem user_agent_is_fixed_per_session :
  forall (session_config : BrightdataConfig.t -> string -> Result BrightdataConfig.t)
         (fuel1 fuel2 : nat) (mw1 mw2 : Middleware.t) (w1 w2 : World)
         (r1 r2 out1 out2 : Request.t) (session_id : string),
    Middleware.user_agents mw1 = Middleware.user_agents mw2 ->
    str_hash w1 = str_hash w2 ->
    Dict.mem "User-Agent" (Request.headers r1) = false ->
    Dict.mem "User-Agent" (Request.headers r2) = false ->
    Dict.get "proxy_session_id" (Request.meta r1) = None ->
    Dict.get "proxy_session_id" (Request.meta r2) = None ->
    left_request (Middleware.process_request session_config fuel1 r1 mw1 w1) = Some out1 ->
    left_request (Middleware.process_request session_config fuel2 r2 mw2 w2) = Some out2 ->
    Dict.get "proxy_session_id" (Request.meta out1) = Some (VStr session_id) ->
    Dict.get "proxy_session_id" (Request.meta out2) = Some (VStr session_id) ->
    (exists ua,
       user_agent_for (Middleware.user_agents mw1) (str_hash w1) session_id = Some ua
       /\ Dict.get "User-Agent" (Request.headers out1) = Some ua
       /\ Dict.get "User-Agent" (Request.headers out2) = Some ua)
    /\ (forall h, h <> "User-Agent" ->
          Dict.get h (Request.headers out1) = Dict.get h (Request.headers r1)
          /\ Dict.get h (Request.headers out2) = Dict.get h (Request.headers r2)).
Proof.
  intros sc fuel1 fuel2 mw1 mw2 w1 w2 r1 r2 out1 out2 session_id
         Hagents Hhash Hua1 Hua2 Hn1 Hn2 Hl1 Hl2 Hs1 Hs2.
  assert (Hleft : forall fuel r mw w out,
             left_request (Middleware.process_request sc fuel r mw w) = Some out ->
             exists res, outcome_of (Middleware.process_request sc fuel r mw w)
                         = Return (res, out)).
  { intros fuel r mw w out. unfold left_request.
    destruct (outcome_of _) as [[res o]|e|]; try discriminate.
    intros E. injection E as <-. exists res. reflexivity. }
  destruct (Hleft _ _ _ _ _ Hl1) as [res1 Ho1].
  destruct (Hleft _ _ _ _ _ Hl2) as [res2 Ho2].
  destruct (process_request_sets_user_agent _ _ _ _ _ Hua1 Hn1 Ho1 Hs1) as (ua1 & Hu1 & Hh1).
  destruct (process_request_sets_user_agent _ _ _ _ _ Hua2 Hn2 Ho2 Hs2) as (ua2 & Hu2 & Hh2).
  rewrite <- Hagents, <- Hhash in Hu2.
  assert (ua2 = ua1) by congruence. subst ua2.
  split.
  - exists ua1. rewrite Hh1, Hh2, !DictFacts.get_set. cbn. auto.
  - intros h Hh. rewrite Hh1, Hh2, !DictFacts.get_set.
    destruct (String.eqb_spec h "User-Agent"); [contradiction | split; reflexivity].
Qed.

Lemma user_agent_is_fixed_per_session_witness :
  let second := Middleware.process_request ProxyManager.session_config_call 1
                  Examples.english_request
                  Examples.middleware_in_flight Examples.world_in_flight in
  match left_request Examples.first_pass, left_request second with
  | Some out1, Some out2 =>
      Dict.get "User-Agent" (Request.headers out1)
        = Some "Mozilla/5.0 (Windows NT 10.0; Win64; x64; rv:120.0) Gecko/20100101 Firefox/120.0"
      /\ Dict.get "User-Agent" (Request.headers out2)
         = Some "Mozilla/5.0 (Windows NT 10.0; Win64; x64; rv:120.0) Gecko/20100101 Firefox/120.0"
  | _, _ => False
  end.
Proof.
  cbv zeta.
  destruct (left_request Examples.first_pass)
    as [out1|] eqn:E1; [|vm_compute in E1; discriminate].
  destruct (left_request (Middleware.process_request _ 1 Examples.english_request _ _))
    as [out2|] eqn:E2; [|vm_compute in E2; discriminate].
  assert (F1 := E1). vm_compute in F1. injection F1 as F1.
  assert (F2 := E2). vm_compute in F2. injection F2 as F2.
  destruct (@user_agent_is_fixed_per_session ProxyManager.session_config_call 1 1
              Examples.middleware Examples.middleware_in_flight
              Examples.world Examples.world_in_flight
              Examples.plain_request Examples.english_request out1 out2
              Examples.session_id) as [(ua & Hua & H1 & H2) _];
    try exact E1; try exact E2;
    try (vm_compute; reflexivity);
    try (subst out1; reflexivity); try (subst out2; reflexivity).
  vm_compute in Hua. injection Hua as <-. split; assumption.
Defined.

(** ** Retrying with a different proxy *)

(** What [_retry_with_different_proxy] hands back for a request whose
    retry count is the integer [count]: a copy with the count one higher
    and without the four entries that [process_request] took from the
    manager.  The URL, the headers and the other entries of [meta] are
    those of the request. *)
Lemma retry_directive (request : Request.t) (count : Z) (mw : Middleware.t) (w : World) :
  Request.meta_get "brightdata_retry_count" (VInt 0) request = VInt count ->
  exists new_request,
    Middleware._retry_with_different_proxy request mw w = (Return new_request, mw, w)
    /\ Request.url new_request = Request.url request
    /\ Request.headers new_request = Request.headers request
    /\ Dict.get "brightdata_retry_count" (Request.meta new_request) = Some (VInt (count + 1))
    /\ Dict.get "proxy" (Request.meta new_request) = None
    /\ Dict.get "proxy_session_id" (Request.meta new_request) = None
    /\ Dict.get "proxy_created_at" (Request.meta new_request) = None
    /\ Dict.get "proxy_requests_count" (Request.meta new_request) = None
    /\ (forall key,
          ~ In key ["brightdata_retry_count"; "proxy"; "proxy_session_id";
                    "proxy_created_at"; "proxy_requests_count"] ->
          Dict.get key (Request.meta new_request) = Dict.get key (Request.meta request)).
Proof.
  intros Hcount. unfold Middleware._retry_with_different_proxy, bind.
  rewrite Hcount. cbn [plus_one lift_result ret]. cbv zeta.
  eexists. split; [reflexivity|].
  cbn [Request.url Request.headers Request.meta Request.set_meta Request.copy].
  repeat split; rewrite ?DictFacts.get_del, ?DictFacts.get_set; try reflexivity.
  intros key Hkey.
  rewrite !DictFacts.get_del, DictFacts.get_set.
  repeat match goal with
         | |- context [String.eqb key ?k] =>
             destruct (String.eqb_spec key k) as [E|_];
             [exfalso; apply Hkey; subst key; cbn; tauto|]
         end.
  reflexivity.
Qed.


(** What the flag left in the retry leads to.  With no room for a session
    ([BRIGHTDATA_MAX_SESSIONS=0]) [process_request] lets the retry through
    without a proxy; its response is then taken for the response of a
    proxied request, and [process_response] raises on the missing session
    id. *)
Lemma stale_proxy_flag_makes_process_response_raise :
  match Middleware.__init__ Examples.config_manager 0 10 30 3 tt Examples.world with
  | (Return middleware, _, w) =>
      match Middleware.process_response Examples.marked_request (Response.mk 403) middleware w with
      | (Return (NewRequest retry), mw1, w1) =>
          match Middleware.process_request ProxyManager.session_config_call 1
                  retry mw1 w1 with
          | (Return (Nothing, sent), mw2, w2) =>
              sent = retry
              /\ outcome_of (Middleware.process_response sent (Response.mk 200) mw2 w2)
                 = Raise TypeError
          | _ => False
          end
      | _ => False
      end
  | _ => False
  end.
Proof. vm_compute. repeat split; reflexivity. Qed.

Lemma record_failure_returns (k e : string) (pm : ProxyManager.t) (w : World) :
  outcome_of (ProxyManager.record_failure k e pm w) = Return tt.
Proof.
  destruct (Dict.get k (ProxyManager.metrics pm)) as [m|] eqn:Hm.
  - destruct (@record_failure_counts pm w k e m Hm) as (pm' & w' & Hr & _).
    rewrite Hr. reflexivity.
  - unfold ProxyManager.record_failure, bind, get_self. rewrite Hm. reflexivity.
Qed.

(** The part of C2 that the code does: for a proxied request whose retry
    count is an integer below [max_retries] and a response with status
    403, 429, 502, 503 or 504, [process_response] returns a retry in place
    of the response, with the count one higher and without the four
    entries taken from the manager. *)
Lemma process_response_emits_retry (mw : Middleware.t) (w : World) (request : Request.t)
    (response : Response.t) (session_id : string) (count : Z) :
  truthy (Request.meta_get "brightdata_enabled" VNone request) = true ->
  Request.meta_get "proxy_session_id" VNone request = VStr session_id ->
  micro (Request.meta_get "request_start_time" (VInt 0) request) <> None ->
  Request.meta_get "brightdata_retry_count" (VInt 0) request = VInt count ->
  count < Middleware.max_retries mw ->
  In (Response.status response) [403; 429; 502; 503; 504] ->
  exists new_request,
    outcome_of (Middleware.process_response request response mw w)
    = Return (NewRequest new_request)
    /\ Request.url new_request = Request.url request
    /\ Dict.get "brightdata_retry_count" (Request.meta new_request) = Some (VInt (count + 1))
    /\ Dict.get "proxy" (Request.meta new_request) = None
    /\ Dict.get "proxy_session_id" (Request.meta new_request) = None
    /\ Dict.get "proxy_created_at" (Request.meta new_request) = None
    /\ Dict.get "proxy_requests_count" (Request.meta new_request) = None.
Proof.
  intros Hp Hs Ht Hc Hlt Hst.
  set (Q := fun (res : HookResult) (_ : Middleware.t) (_ : World) =>
              exists new_request,
                res = NewRequest new_request
                /\ Request.url new_request = Request.url request
                /\ Dict.get "brightdata_retry_count" (Request.meta new_request)
                   = Some (VInt (count + 1))
                /\ Dict.get "proxy" (Request.meta new_request) = None
                /\ Dict.get "proxy_session_id" (Request.meta new_request) = None
                /\ Dict.get "proxy_created_at" (Request.meta new_request) = None
                /\ Dict.get "proxy_requests_count" (Request.meta new_request) = None).
  set (P := fun (s : Middleware.t) (_ : World) =>
              Middleware.max_retries s = Middleware.max_retries mw).
  assert (H : hoare P (Middleware.process_response request response) Q (fun _ _ => False)).
  { unfold Middleware.process_response.
    rewrite Hp, Hs. cbn [negb]. cbv zeta.
    destruct (micro (Request.meta_get "request_start_time" (VInt 0) request)) as [start|];
      [|contradiction].
    eapply hoare_bind with (R := fun _ => P).
    { destruct (0 <? start).
      - eapply hoare_bind with (R := fun _ => P).
        + apply hoare_now. auto.
        + intros n. apply hoare_ret. auto.
      - apply hoare_ret. auto. }
    intros response_time.
    assert (Hfail : Middleware._is_successful_response response = false).
    { destruct response as [status]. cbn in Hst.
      destruct Hst as [<-|[<-|[<-|[<-|[<-|[]]]]]]; reflexivity. }
    assert (Hretry : existsb (Z.eqb (Response.status response)) [403; 429; 502; 503; 504]
                     = true).
    { destruct response as [status]. cbn in Hst.
      destruct Hst as [<-|[<-|[<-|[<-|[<-|[]]]]]]; reflexivity. }
    rewrite Hfail.
    eapply hoare_bind with (R := fun _ => P).
    { intros s w0 H0. cbn [Middleware.record_failure].
      unfold Middleware.on_proxy_manager, on_field.
      pose proof (record_failure_returns session_id
                    (Middleware._classify_response_error response)
                    (Middleware.proxy_manager s) w0) as Hr.
      unfold outcome_of in Hr.
      destruct (ProxyManager.record_failure _ _ _ _) as [[o pm'] w']. cbn in Hr. subst o.
      exact H0. }
    intros _.
    eapply hoare_bind with (R := fun _ => P).
    { apply hoare_modify. auto. }
    intros _.
    eapply hoare_bind with (R := fun _ => P).
    { apply hoare_ret. auto. }
    intros _.
    eapply hoare_bind with (R := fun retry s _ => retry = true).
    { intros s w0 H0.
      unfold Middleware._should_retry_with_different_proxy, bind, get_self,
        Middleware.retries_exhausted.
      rewrite Hc. cbn [micro lift_result]. unfold P in H0. rewrite H0.
      assert (E : (Middleware.max_retries mw * microseconds_per_second
                   <=? count * microseconds_per_second) = false).
      { apply Z.leb_gt. unfold microseconds_per_second. lia. }
      rewrite E. cbn. exact Hretry. }
    intros retry. cbn beta.
    intros s w0 ->.
    destruct (@retry_directive request count s w0 Hc)
      as (nr & Hr & Hurl & _ & H1 & H2 & H3 & H4 & H5 & _).
    unfold bind. rewrite Hr. cbn.
    exists nr. repeat split; assumption. }
  specialize (H mw w eq_refl). unfold outcome_of.
  destruct (Middleware.process_response request response mw w) as [[[res|e|] s'] w'];
    try contradiction.
  destruct H as (nr & -> & H). exists nr. split; [reflexivity | exact H].
Qed.

(** A proxied request without a session id, as a retry is when the next
    pass leaves it without a proxy: [process_response] raises on it. *)
Lemma process_response_raises_without_session (mw : Middleware.t) (w : World)
    (request : Request.t) (response : Response.t) :
  truthy (Request.meta_get "brightdata_enabled" VNone request) = true ->
  Dict.get "proxy_session_id" (Request.meta request) = None ->
  Dict.get "request_start_time" (Request.meta request) = None ->
  outcome_of (Middleware.process_response request response mw w) = Raise TypeError.
Proof.
  intros Hp Hs Ht. unfold Middleware.process_response.
  rewrite Hp. cbn [negb]. unfold Request.meta_get. rewrite Hs, Ht. cbv zeta.
  cbn [micro]. cbn -[Z.ltb Z.leb Z.eqb].
  unfold bind, ret, outcome_of. cbn -[Z.ltb Z.leb Z.eqb].
  destruct (Middleware._is_successful_response response); reflexivity.
Qed.

(** The first request of an enabled middleware that is not skipped ends
    in a [TypeError], whatever the request. *)
Lemma process_request_raises_on_empty_pool (mw : Middleware.t) (w : World)
    (request : Request.t) (fuel : nat) :
  Middleware.enabled mw = true ->
  truthy (Request.meta_get "proxy" VNone request) = false ->
  Middleware._should_skip_request request = false ->
  BrightdataConfigManager.is_enabled
    (ProxyManager.config_manager (Middleware.proxy_manager mw)) = true ->
  ProxyManager.sessions (Middleware.proxy_manager mw) = [] ->
  ProxyManager.blacklisted_sessions (Middleware.proxy_manager mw) = [] ->
  0 < ProxyManager.max_sessions (Middleware.proxy_manager mw) ->
  outcome_of (Middleware.process_request ProxyManager.session_config_call (S fuel)
                request mw w)
  = Raise TypeError.
Proof.
  intros He Hp Hk Hen Hs Hb Hm.
  unfold Middleware.process_request, bind at 1, get_self at 1. cbv beta iota.
  rewrite He, Hp, Hk. cbn [negb].
  unfold bind at 1, Middleware.on_proxy_manager, on_field.
  pose proof (@get_proxy_raises_on_empty_pool (Middleware.proxy_manager mw) w fuel
                Hen Hs Hb Hm) as Hr.
  unfold outcome_of in Hr |- *.
  destruct (ProxyManager.get_proxy _ _ _ _) as [[o pm'] w']. cbn in Hr. subst o.
  reflexivity.
Qed.

(** ** The hooks that do not raise *)

Lemma record_success_returns (k : string) (rt : Q) (pm : ProxyManager.t) (w : World) :
  outcome_of (ProxyManager.record_success k rt pm w) = Return tt.
Proof.
  destruct (Dict.get k (ProxyManager.metrics pm)) as [m|] eqn:Hm.
  - destruct (@record_success_counts pm w k rt m Hm) as (pm' & w' & Hr & _).
    rewrite Hr. reflexivity.
  - unfold ProxyManager.record_success, bind, get_self. rewrite Hm. reflexivity.
Qed.

Lemma hoare_on_proxy_manager_returns (m : M ProxyManager.t unit) :
  (forall pm w, outcome_of (m pm w) = Return tt) ->
  hoare (fun _ _ => True) (Middleware.on_proxy_manager m)
        (fun _ _ _ => True) (fun _ _ => False).
Proof.
  intros Hm s w _. unfold Middleware.on_proxy_manager, on_field.
  specialize (Hm (Middleware.proxy_manager s) w). unfold outcome_of in Hm.
  destruct (m (Middleware.proxy_manager s) w) as [[o pm'] w']. cbn in Hm. subst o.
  exact I.
Qed.

Lemma hoare_retry_or (request : Request.t) (count : Z) (retry : bool) (otherwise : HookResult) :
  Request.meta_get "brightdata_retry_count" (VInt 0) request = VInt count ->
  hoare (fun _ _ => True)
        (if retry
         then new_request <- Middleware._retry_with_different_proxy request ;;
              ret (NewRequest new_request)
         else ret otherwise)
        (fun res _ _ => res = otherwise \/ exists new_request, res = NewRequest new_request)
        (fun _ _ => False).
Proof.
  intros Hc s w _. destruct retry.
  - destruct (@retry_directive request count s w Hc) as (nr & Hr & _).
    unfold bind. rewrite Hr. cbn. right. exists nr. reflexivity.
  - cbn. left. reflexivity.
Qed.

(** [process_response] returns, with the response or with a retry, for
    every request that is not proxied and for every proxied request whose
    meta entries are well typed. *)
Lemma process_response_returns (mw : Middleware.t) (w : World) (request : Request.t)
    (response : Response.t) :
  truthy (Request.meta_get "brightdata_enabled" VNone request) = false
  \/ well_typed_meta request ->
  exists res,
    outcome_of (Middleware.process_response request response mw w) = Return res
    /\ (res = PassResponse response \/ exists new_request, res = NewRequest new_request).
Proof.
  intros Hreq.
  assert (H : hoare (fun _ _ => True) (Middleware.process_response request response)
                (fun res _ _ =>
                   res = PassResponse response \/ exists nr, res = NewRequest nr)
                (fun _ _ => False)).
  { unfold Middleware.process_response.
    destruct (truthy (Request.meta_get "brightdata_enabled" VNone request)) eqn:Hp;
      cbn [negb]; [|apply hoare_ret; auto].
    destruct Hreq as [Hreq|((sid & Hs) & Ht & (count & Hc))]; [discriminate|].
    rewrite Hs. cbv zeta.
    destruct (micro (Request.meta_get "request_start_time" (VInt 0) request)) as [start|];
      [|contradiction].
    eapply hoare_bind with (R := fun _ _ _ => True).
    { destruct (0 <? start).
      - eapply hoare_bind with (R := fun _ _ _ => True).
        + apply hoare_now. auto.
        + intros n. apply hoare_ret. auto.
      - apply hoare_ret. auto. }
    intros response_time.
    destruct (Middleware._is_successful_response response).
    - eapply hoare_bind with (R := fun _ _ _ => True).
      { apply hoare_on_proxy_manager_returns. apply record_success_returns. }
      intros _.
      eapply hoare_bind with (R := fun _ _ _ => True); [apply hoare_modify; auto|].
      intros _.
      eapply hoare_bind with (R := fun _ _ _ => True); [apply hoare_ret; auto|].
      intros _. apply hoare_ret. auto.
    - eapply hoare_bind with (R := fun _ _ _ => True).
      { apply hoare_on_proxy_manager_returns. apply record_failure_returns. }
      intros _.
      eapply hoare_bind with (R := fun _ _ _ => True); [apply hoare_modify; auto|].
      intros _.
      eapply hoare_bind with (R := fun _ _ _ => True); [apply hoare_ret; auto|].
      intros _.
      eapply hoare_bind with (R := fun _ _ _ => True).
      { intros s w0 _.
        unfold Middleware._should_retry_with_different_proxy, bind, get_self,
          Middleware.retries_exhausted.
        rewrite Hc. cbn [micro lift_result].
        destruct (_ <=? _); cbn; exact I. }
      intros retry. cbn beta. apply hoare_retry_or with (count := count). exact Hc. }
  specialize (H mw w I). unfold outcome_of.
  destruct (Middleware.process_response request response mw w) as [[[res|e|] s'] w'];
    try contradiction.
  exists res. split; [reflexivity | exact H].
Qed.

(** [process_exception] returns, with nothing or with a retry, for every
    request that is not proxied and for every proxied request whose
    session id is a string or missing and whose retry count is an integer
    or missing. *)
Lemma process_exception_returns (mw : Middleware.t) (w : World) (request : Request.t)
    (exception : DownloadException) (session_id : string) (count : Z) :
  Request.meta_get "proxy_session_id" (VStr "unknown") request = VStr session_id ->
  Request.meta_get "brightdata_retry_count" (VInt 0) request = VInt count ->
  exists res,
    outcome_of (Middleware.process_exception request exception mw w) = Return res
    /\ (res = Nothing \/ exists new_request, res = NewRequest new_request).
Proof.
  intros Hs Hc.
  assert (H : hoare (fun _ _ => True) (Middleware.process_exception request exception)
                (fun res _ _ => res = Nothing \/ exists nr, res = NewRequest nr)
                (fun _ _ => False)).
  { unfold Middleware.process_exception.
    destruct (truthy (Request.meta_get "brightdata_enabled" VNone request));
      cbn [negb]; [|apply hoare_ret; auto].
    rewrite Hs. cbv zeta.
    eapply hoare_bind with (R := fun _ _ _ => True).
    { apply hoare_on_proxy_manager_returns. apply record_failure_returns. }
    intros _.
    eapply hoare_bind with (R := fun _ _ _ => True); [apply hoare_modify; auto|].
    intros _.
    eapply hoare_bind with (R := fun _ _ _ => True); [apply hoare_ret; auto|].
    intros _.
    eapply hoare_bind with (R := fun _ _ _ => True).
    { intros s w0 _.
      unfold Middleware._should_retry_exception_with_different_proxy, bind, get_self,
        Middleware.retries_exhausted.
      rewrite Hc. cbn [micro lift_result].
      destruct (_ <=? _); cbn; exact I. }
    intros retry. cbn beta. apply hoare_retry_or with (count := count). exact Hc. }
  specialize (H mw w I). unfold outcome_of.
  destruct (Middleware.process_exception request exception mw w) as [[[res|e|] s'] w'];
    try contradiction.
  exists res. split; [reflexivity | exact H].
Qed.

(** ** Dictionaries, continued *)

Lemma get_filter_other {V} (k k0 : string) (l : list (string * V)) :
  k <> k0 ->
  Dict.get k (filter (fun kv => negb (fst kv =? k0)%string) l) = Dict.get k l.
Proof.
  intros Hne. induction l as [|[k1 v1] l IH]; cbn; [reflexivity|].
  destruct (String.eqb_spec k1 k0) as [E|E]; cbn.
  - subst k1. destruct (String.eqb_spec k k0); [contradiction | exact IH].
  - destruct (k =? k1)%string; [reflexivity | exact IH].
Qed.

Lemma get_items {V} (k : string) (d : Dict.t V) : Dict.get k (Dict.items d) = Dict.get k d.
Proof.
  induction d as [|[k0 v0] d IH]; cbn; [reflexivity|].
  destruct (String.eqb_spec k k0) as [E|E]; [reflexivity|].
  rewrite get_filter_other by exact E. exact IH.
Qed.

Lemma keys_filter {V} (p : string * V -> bool) (l : list (string * V)) (k : string) :
  In k (map fst (filter p l)) -> In k (map fst l).
Proof.
  intros H. apply in_map_iff in H. destruct H as (kv & E & Hin).
  apply filter_In in Hin. apply in_map_iff. exists kv. split; [exact E | apply Hin].
Qed.

Lemma NoDup_keys_filter {V} (p : string * V -> bool) (l : list (string * V)) :
  NoDup (map fst l) -> NoDup (map fst (filter p l)).
Proof.
  induction l as [|kv l IH]; cbn; intros H; [constructor|].
  inversion H as [|? ? Hnin Hnd]; subst.
  destruct (p kv); cbn; [|apply IH; exact Hnd].
  constructor; [|apply IH; exact Hnd].
  intros Hin. apply Hnin. eapply keys_filter. exact Hin.
Qed.

Lemma items_NoDup {V} (d : Dict.t V) : NoDup (Dict.keys d).
Proof.
  unfold Dict.keys. induction d as [|[k v] d IH]; cbn; [constructor|].
  constructor.
  - intros Hin. apply in_map_iff in Hin. destruct Hin as ([k' v'] & E & Hin).
    cbn in E. subst k'. apply filter_In in Hin. destruct Hin as [_ Hin]. cbn in Hin.
    rewrite String.eqb_refl in Hin. discriminate.
  - apply NoDup_keys_filter. exact IH.
Qed.

Lemma get_not_key {V} (k : string) (l : list (string * V)) :
  ~ In k (map fst l) -> Dict.get k l = None.
Proof.
  induction l as [|[k0 v0] l IH]; cbn; intros H; [reflexivity|].
  destruct (String.eqb_spec k k0) as [E|E]; [exfalso; apply H; left; auto|].
  apply IH. intros Hin. apply H. right. exact Hin.
Qed.

(** [d.update(other)]: the entries of [other] come first. *)
Lemma get_update {V} (k : string) (d other : Dict.t V) :
  NoDup (map fst other) ->
  Dict.get k (Dict.update d other)
  = match Dict.get k other with
    | Some v => Some v
    | None => Dict.get k d
    end.
Proof.
  unfold Dict.update. revert d.
  induction other as [|[k0 v0] other IH]; intros d Hnd; cbn [fold_left fst snd].
  - reflexivity.
  - inversion Hnd as [|? ? Hnin Hnd']; subst. rewrite (IH _ Hnd').
    cbn [Dict.get]. rewrite DictFacts.get_set.
    destruct (String.eqb_spec k k0) as [E|E]; [|reflexivity].
    subst k. rewrite (get_not_key _ _ Hnin). reflexivity.
Qed.

Lemma get_update_items {V} (k : string) (d other : Dict.t V) :
  Dict.get k (Dict.update d (Dict.items other))
  = match Dict.get k other with
    | Some v => Some v
    | None => Dict.get k d
    end.
Proof. rewrite get_update by apply items_NoDup. rewrite get_items. reflexivity. Qed.

Lemma get_of_empty {V} (k : string) (d : Dict.t V) :
  Dict.len d = 0%nat -> Dict.get k d = None.
Proof.
  unfold Dict.len. intros H. rewrite <- get_items.
  destruct (Dict.items d); [reflexivity | discriminate].
Qed.

Lemma get_fold_del {V} (k : string) (ks : list string) (d : Dict.t V) :
  Dict.get k (fold_left (fun d k => Dict.del k d) ks d)
  = if existsb (String.eqb k) ks then None else Dict.get k d.
Proof.
  revert d. induction ks as [|k0 ks IH]; intros d; cbn [fold_left existsb].
  - reflexivity.
  - rewrite IH, DictFacts.get_del.
    destruct (existsb (String.eqb k) ks); [rewrite orb_true_r; reflexivity|].
    rewrite orb_false_r. destruct (k =? k0)%string; reflexivity.
Qed.

Lemma In_keys_mem {V} (k : string) (d : Dict.t V) :
  In k (Dict.keys d) <-> Dict.mem k d = true.
Proof.
  unfold Dict.keys. rewrite in_map_iff, DictFacts.mem_get. split.
  - intros ([k' v] & E & Hin). cbn in E. subst k'. exists v. apply DictFacts.In_items. exact Hin.
  - intros [v Hv]. exists (k, v). split; [reflexivity | apply DictFacts.In_items; exact Hv].
Qed.

Lemma existsb_filter_keys {V} (k : string) (p : string -> bool) (d : Dict.t V) :
  existsb (String.eqb k) (filter p (Dict.keys d)) = Dict.mem k d && p k.
Proof.
  apply eq_true_iff_eq. rewrite existsb_exists, andb_true_iff. split.
  - intros (x & Hin & E). apply String.eqb_eq in E. subst x.
    apply filter_In in Hin. destruct Hin as [Hin Hp]. split; [apply In_keys_mem; exact Hin | exact Hp].
  - intros [Hm Hp]. exists k. split; [|apply String.eqb_refl].
    apply filter_In. split; [apply In_keys_mem; exact Hm | exact Hp].
Qed.

Lemma existsb_keys_of_filter {V} (k : string) (p : string * V -> bool) (d : Dict.t V) :
  existsb (String.eqb k) (map fst (filter p (Dict.items d)))
  = match Dict.get k d with
    | Some v => p (k, v)
    | None => false
    end.
Proof.
  apply eq_true_iff_eq. rewrite existsb_exists. split.
  - intros (x & Hin & E). apply String.eqb_eq in E. subst x.
    apply in_map_iff in Hin. destruct Hin as ([k' v] & Ek & Hin). cbn in Ek. subst k'.
    apply filter_In in Hin. destruct Hin as [Hin Hp].
    apply DictFacts.In_items in Hin. rewrite Hin. exact Hp.
  - destruct (Dict.get k d) as [v|] eqn:E; [|discriminate].
    intros Hp. exists k. split; [|apply String.eqb_refl].
    apply in_map_iff. exists (k, v). split; [reflexivity|].
    apply filter_In. split; [apply DictFacts.In_items; exact E | exact Hp].
Qed.

(** ** Loading the configuration *)

Lemma is_enabled_after_init (env : BrightdataConfig.t) (use_proxies : string) :
  BrightdataConfigManager.is_enabled (BrightdataConfigManager.__init__ env use_proxies) = true
  <-> (BrightdataConfigManager.lower use_proxies = "true"
       /\ BrightdataConfig.username env <> ""
       /\ BrightdataConfig.password env <> ""
       /\ BrightdataConfig.endpoint env <> ""
       /\ BrightdataConfig.port env <> 0
       /\ BrightdataConfig.zone env <> "").
Proof.
  unfold BrightdataConfigManager.is_enabled, BrightdataConfigManager.__init__,
    BrightdataConfigManager._load_from_environment, BrightdataConfigManager.get_config,
    BrightdataConfig.call, BrightdataConfig.__post_init__.
  cbn [forallb existsb BrightdataConfig.accepts_keyword BrightdataConfig.fields
       BrightdataConfig.required negb].
  cbn -[String.eqb Z.eqb BrightdataConfigManager.lower].
  destruct (BrightdataConfigManager.lower use_proxies =? "true")%string eqn:Hu;
  destruct (BrightdataConfig.username env =? "")%string eqn:H1;
  destruct (BrightdataConfig.password env =? "")%string eqn:H2;
  destruct (BrightdataConfig.endpoint env =? "")%string eqn:H3;
  destruct (BrightdataConfig.port env =? 0) eqn:H4;
  destruct (BrightdataConfig.zone env =? "")%string eqn:H5;
  cbn; rewrite ?Hu; cbn;
  rewrite ?String.eqb_eq, ?String.eqb_neq, ?Z.eqb_eq, ?Z.eqb_neq in *;
  split; try discriminate; intuition congruence.
Qed.

(** X1.  A configuration manager loaded from the environment, the port
    being a number, is enabled exactly when [USE_PROXIES] is [true] in
    some capitalisation and none of the user name, password, endpoint,
    port and zone is empty (or, for the port, zero). *)
Theorem is_enabled_iff_environment_complete :
  forall (env : BrightdataConfig.t) (use_proxies : string),
    BrightdataConfigManager.is_enabled (BrightdataConfigManager.__init__ env use_proxies) = true
    <-> (BrightdataConfigManager.lower use_proxies = "true"
         /\ BrightdataConfig.username env <> ""
         /\ BrightdataConfig.password env <> ""
         /\ BrightdataConfig.endpoint env <> ""
         /\ BrightdataConfig.port env <> 0
         /\ BrightdataConfig.zone env <> "").
Proof. intros env use_proxies. apply is_enabled_after_init. Qed.

Lemma get_config_after_call (op : BrightdataConfigManager.Op) (self : BrightdataConfigManager.t) :
  BrightdataConfigManager.get_config self <> None ->
  BrightdataConfigManager.get_config (BrightdataConfigManager.call op self) <> None.
Proof.
  unfold BrightdataConfigManager.get_config. destruct op as [name config|name]; cbn.
  - rewrite DictFacts.get_set. destruct (_ =? _)%string; [discriminate | auto].
  - unfold BrightdataConfigManager.set_current_config.
    destruct (Dict.mem name _) eqn:E; cbn; [|auto].
    intros _. unfold Dict.mem in E.
    destruct (Dict.get name _); [discriminate | discriminate].
Qed.

(** X2.  With [USE_PROXIES] as it is, an enabled configuration manager
    stays enabled under every sequence of [add_config] and
    [set_current_config]: adding never removes the current configuration,
    and the current name only moves to a name that is there. *)
Theorem enabled_manager_stays_enabled :
  forall (ops : list BrightdataConfigManager.Op) (self : BrightdataConfigManager.t),
    BrightdataConfigManager.is_enabled self = true ->
    BrightdataConfigManager.is_enabled (BrightdataConfigManager.calls ops self) = true.
Proof.
  intros ops. unfold BrightdataConfigManager.calls.
  induction ops as [|op ops IH]; intros self H; cbn [fold_left]; [exact H|].
  apply IH.
  assert (Hu : BrightdataConfigManager.USE_PROXIES (BrightdataConfigManager.call op self)
               = BrightdataConfigManager.USE_PROXIES self).
  { destruct op as [name config|name]; cbn; [reflexivity|].
    unfold BrightdataConfigManager.set_current_config. destruct (Dict.mem _ _); reflexivity. }
  pose proof (@get_config_after_call op self) as Hc.
  unfold BrightdataConfigManager.is_enabled in *. rewrite Hu.
  destruct (BrightdataConfigManager.lower _ =? "true")%string; [|discriminate].
  destruct (BrightdataConfigManager.get_config self); [|discriminate].
  destruct (BrightdataConfigManager.get_config (BrightdataConfigManager.call op self));
    [reflexivity|].
  exfalso. apply Hc; [discriminate | reflexivity].
Qed.

Lemma enabled_manager_stays_enabled_witness :
  BrightdataConfigManager.is_enabled
    (BrightdataConfigManager.calls
       [BrightdataConfigManager.SetCurrentConfig "fr";
        BrightdataConfigManager.AddConfig "fr" Examples.config;
        BrightdataConfigManager.SetCurrentConfig "fr";
        BrightdataConfigManager.AddConfig "default" Examples.config]
       Examples.config_manager) = true.
Proof.
  apply enabled_manager_stays_enabled. vm_compute. reflexivity.
Defined.

(** X3.  A configuration that is added under a name and made current is
    the one [get_config()] returns; [get_config(name)] returns it too,
    unless the name is empty, which stands for the current name; and the
    name is among the available ones. *)
Theorem add_config_then_select :
  forall (name : string) (config : BrightdataConfig.t) (self : BrightdataConfigManager.t),
    BrightdataConfigManager.get_config
      (BrightdataConfigManager.set_current_config name
         (BrightdataConfigManager.add_config name config self)) = Some config
    /\ BrightdataConfigManager.get_config_named (Some name)
         (BrightdataConfigManager.add_config name config self)
       = (if (name =? "")%string
          then BrightdataConfigManager.get_config
                 (BrightdataConfigManager.add_config name config self)
          else Some config)
    /\ BrightdataConfigManager.get_config_named (Some "") self
       = BrightdataConfigManager.get_config self
    /\ In name (BrightdataConfigManager.get_available_configs
                  (BrightdataConfigManager.add_config name config self)).
Proof.
  intros name config self.
  assert (Hget : Dict.get name (Dict.set name config (BrightdataConfigManager.configs self))
                 = Some config).
  { rewrite DictFacts.get_set, String.eqb_refl. reflexivity. }
  repeat split.
  - unfold BrightdataConfigManager.set_current_config, BrightdataConfigManager.add_config,
      BrightdataConfigManager.get_config. cbn.
    unfold Dict.mem. rewrite Hget. cbn. exact Hget.
  - unfold BrightdataConfigManager.get_config_named, BrightdataConfigManager.get_config.
    destruct (name =? "")%string; [reflexivity|]. exact Hget.
  - unfold BrightdataConfigManager.get_available_configs, Dict.keys,
      BrightdataConfigManager.add_config. cbn.
    apply in_map_iff. exists (name, config). split; [reflexivity|].
    apply DictFacts.In_items. exact Hget.
Qed.

(** ** The steps of the manager, one by one *)

Lemma blacklist_session_runs (k : string) (pm : ProxyManager.t) (w : World) :
  ProxyManager._blacklist_session k pm w
  = (Return tt, with_blacklisted k (clock w (reads w)) pm, after_reading w).
Proof. reflexivity. Qed.

Lemma record_success_runs (k : string) (rt : Q) (pm : ProxyManager.t) (w : World) :
  ProxyManager.record_success k rt pm w
  = match Dict.get k (ProxyManager.metrics pm) with
    | None => (Return tt, pm, w)
    | Some m =>
        (Return tt,
         with_metric k (metric_after_success m (clock w (reads w)) (clock w (S (reads w))) rt) pm,
         after_reading (after_reading w))
    end.
Proof.
  unfold ProxyManager.record_success, bind, get_self.
  destruct (Dict.get k (ProxyManager.metrics pm)); reflexivity.
Qed.

Lemma record_failure_runs (k e : string) (pm : ProxyManager.t) (w : World) :
  ProxyManager.record_failure k e pm w
  = match Dict.get k (ProxyManager.metrics pm) with
    | None => (Return tt, pm, w)
    | Some m =>
        let metric := metric_after_failure m (clock w (reads w)) (clock w (S (reads w))) e in
        let pm1 := with_metric k metric pm in
        let w1 := after_reading (after_reading w) in
        if Qltb (ProxyMetrics.success_rate metric) 50
           && (10 <? ProxyMetrics.requests_sent metric)
        then (Return tt, with_blacklisted k (clock w1 (reads w1)) pm1, after_reading w1)
        else (Return tt, pm1, w1)
    end.
Proof.
  unfold ProxyManager.record_failure.
  unfold bind at 1. unfold get_self at 1. cbv beta iota.
  destruct (Dict.get k (ProxyManager.metrics pm)) as [m|]; [|reflexivity].
  unfold bind at 1. unfold now at 1. cbv beta iota.
  unfold bind at 1. unfold now at 1. cbv beta iota zeta.
  unfold bind at 1. unfold modify at 1. cbv beta iota.
  fold (metric_after_failure m (clock w (reads w)) (clock w (S (reads w))) e).
  destruct (_ && _); reflexivity.
Qed.

(** ** Assertions that every step keeps *)

Lemma keeps_readonly {S A} (I : S -> Prop) (m : M S A) :
  readonly m -> preserves (always I) m.
Proof.
  intros Hro s w H. specialize (Hro s w). unfold state_of in Hro.
  destruct (m s w) as [[[a|e|] s'] w']; cbn in Hro; subst s'; exact H.
Qed.

Lemma keeps_bind {S A B} (I : S -> Prop) (m : M S A) (f : A -> M S B) :
  preserves (always I) m -> (forall a, preserves (always I) (f a)) ->
  preserves (always I) (bind m f).
Proof. intros Hm Hf. eapply hoare_bind; [exact Hm | exact Hf]. Qed.

Lemma keeps_ret {S A} (I : S -> Prop) (a : A) : preserves (always I) (ret a).
Proof. apply hoare_ret. auto. Qed.

Lemma keeps_raise {S A} (I : S -> Prop) (e : exn) : preserves (always I) (@raise S A e).
Proof. apply hoare_raise. auto. Qed.

Lemma keeps_filterM {S A} (I : S -> Prop) (p : A -> M S bool) (xs : list A) :
  (forall x, preserves (always I) (p x)) -> preserves (always I) (filterM p xs).
Proof.
  intros Hp. induction xs as [|x xs IH]; cbn [filterM].
  - apply keeps_ret.
  - apply keeps_bind; [apply Hp|]. intros b.
    apply keeps_bind; [exact IH|]. intros rest. apply keeps_ret.
Qed.

Lemma readonly_now {S} : readonly (@now S).
Proof. intros s w. reflexivity. Qed.

Lemma readonly_random {S} : readonly (@random S).
Proof. intros s w. reflexivity. Qed.

Lemma readonly_next_digest {S} : readonly (@next_digest S).
Proof. intros s w. reflexivity. Qed.

Lemma readonly_get_self {S} : readonly (@get_self S).
Proof. intros s w. reflexivity. Qed.

Lemma readonly_is_healthy {S} (m : ProxyMetrics.t) : readonly (@ProxyMetrics.is_healthy S m).
Proof.
  intros s w. unfold ProxyMetrics.is_healthy.
  destruct (Qltb _ _); [reflexivity|]. destruct (ProxyMetrics.last_success m); reflexivity.
Qed.

Section RotatorSteps.

(** An assertion on the rotator and the metrics that is kept when a
    missing metrics entry is created and when the round-robin index
    moves on. *)
Variable J : ProxyRotator.St -> Prop.

Hypothesis J_default :
  forall r d k, J (r, d) -> Dict.get k d = None -> J (r, Dict.set k ProxyMetrics.default d).
Hypothesis J_next_index : forall r d, J (r, d) -> J (next_index r, d).

Lemma keeps_metrics_getitem (k : string) : preserves (always J) (ProxyRotator.metrics_getitem k).
Proof.
  intros [r d] w H. unfold always in *.
  unfold ProxyRotator.metrics_getitem, on_field, getitem_default, bind, get_self. cbn.
  destruct (Dict.get k d) eqn:E; cbn; [exact H|].
  apply J_default; assumption.
Qed.

Lemma keeps_healthy (s : SessionRef) : preserves (always J) (ProxyRotator.healthy s).
Proof.
  unfold ProxyRotator.healthy.
  apply keeps_bind; [apply keeps_readonly; apply readonly_is_expired|].
  intros expired. destruct expired; [apply keeps_ret|].
  apply keeps_bind; [apply keeps_metrics_getitem|].
  intros metric. apply keeps_readonly. apply readonly_is_healthy.
Qed.

Lemma keeps_round_robin_select (l : list SessionRef) :
  preserves (always J) (ProxyRotator._round_robin_select l).
Proof.
  intros [r d] w H. unfold always in *.
  unfold ProxyRotator._round_robin_select, bind, get_self. cbn.
  destruct (List.length l =? 0)%nat; cbn; [exact H|].
  destruct (nth_error l _); cbn; [|exact H].
  apply J_next_index. exact H.
Qed.

Lemma keeps_weights_of (l : list SessionRef) : preserves (always J) (ProxyRotator.weights_of l).
Proof.
  induction l as [|s rest IH]; cbn [ProxyRotator.weights_of].
  - apply keeps_ret.
  - apply keeps_bind; [apply keeps_metrics_getitem|]. intros metric. cbv zeta.
    destruct (_ =? 0); [apply keeps_raise|].
    apply keeps_bind; [exact IH|]. intros ws. apply keeps_ret.
Qed.

Lemma keeps_weighted_select (l : list SessionRef) :
  preserves (always J) (ProxyRotator._weighted_select l).
Proof.
  unfold ProxyRotator._weighted_select.
  apply keeps_bind; [apply keeps_weights_of|]. intros weights. cbv zeta.
  destruct (Qeq_bool _ _).
  - destruct l; [apply keeps_raise | apply keeps_ret].
  - apply keeps_bind; [apply keeps_readonly; apply readonly_random|]. intros u.
    destruct (ProxyRotator.pick_weighted _ _ _ _); [apply keeps_ret|].
    destruct (rev l); [apply keeps_raise | apply keeps_ret].
Qed.

Lemma keeps_random_choice (l : list SessionRef) :
  preserves (always J) (ProxyRotator.random_choice l).
Proof.
  unfold ProxyRotator.random_choice.
  apply keeps_bind; [apply keeps_readonly; apply readonly_random|]. intros u.
  destruct (nth_error _ _); [apply keeps_ret | apply keeps_raise].
Qed.

Lemma keeps_select_next (l : list SessionRef) :
  preserves (always J) (ProxyRotator.select_next l).
Proof.
  unfold ProxyRotator.select_next. destruct l as [|first others]; [apply keeps_ret|].
  apply keeps_bind; [apply keeps_filterM; intros x; apply keeps_healthy|].
  intros healthy_sessions. destruct healthy_sessions as [|h hs]; [apply keeps_ret|].
  apply keeps_bind; [apply keeps_readonly; apply readonly_get_self|]. intros st. cbv zeta.
  destruct (_ =? "round_robin")%string.
  { apply keeps_bind; [apply keeps_round_robin_select | intros; apply keeps_ret]. }
  destruct (_ =? "weighted")%string.
  { apply keeps_bind; [apply keeps_weighted_select | intros; apply keeps_ret]. }
  destruct (_ =? "random")%string.
  { apply keeps_bind; [apply keeps_random_choice | intros; apply keeps_ret]. }
  apply keeps_ret.
Qed.

End RotatorSteps.

Lemma set_metrics_same (pm : ProxyManager.t) :
  ProxyManager.set_metrics (ProxyManager.metrics pm) pm = pm.
Proof. destruct pm. reflexivity. Qed.

Lemma with_rotator_state_same (pm : ProxyManager.t) :
  with_rotator_state (ProxyManager.rotator pm, ProxyManager.metrics pm) pm = pm.
Proof. destruct pm. reflexivity. Qed.

(** The sessions that pass the test [not s.is_expired] come from the list
    and have requests left. *)
Lemma active_sessions_have_requests_left {S} (xs : list SessionRef) (st : S) (w : World) :
  match filterM (fun s : SessionRef => e <- ProxySession.is_expired (snd s) ;; ret (negb e))
                xs st w with
  | (Return l, st', _) =>
      st' = st
      /\ Forall (fun x => In x xs
                          /\ ProxySession.requests_count (snd x)
                             < ProxySession.max_requests (snd x)) l
  | (_, st', _) => st' = st
  end.
Proof.
  revert w. induction xs as [|x xs IH]; intros w; cbn [filterM].
  - cbn. auto.
  - unfold bind at 1.
    change ((e <- ProxySession.is_expired (snd x) ;; ret (negb e)) st w)
      with (Return (negb (ProxySession.is_expired_at (clock w (reads w)) (snd x))), st,
            after_reading w).
    cbv beta iota. unfold bind at 1.
    specialize (IH (after_reading w)).
    destruct (filterM _ xs st _) as [[[rest|e|] st1] w1]; cbn; try exact IH.
    destruct IH as [-> IH]. split; [reflexivity|].
    assert (Hrest : Forall (fun x0 => In x0 (x :: xs)
                                      /\ ProxySession.requests_count (snd x0)
                                         < ProxySession.max_requests (snd x0)) rest).
    { eapply Forall_impl; [|exact IH]. cbn. intros a [Ha Hc]. auto. }
    destruct (ProxySession.is_expired_at _ (snd x)) eqn:E; cbn; [exact Hrest|].
    constructor; [|exact Hrest]. split; [left; reflexivity|].
    unfold ProxySession.is_expired_at in E. apply orb_false_iff in E.
    destruct E as [_ E]. apply Z.leb_gt in E. exact E.
Qed.

Section ManagerSteps.

Import ProxyManager.

(** An assertion on the manager that each of its updates keeps. *)
Variable I : ProxyManager.t -> Prop.

Hypothesis I_default :
  forall pm k, I pm -> Dict.get k (metrics pm) = None ->
    I (with_metric k ProxyMetrics.default pm).
Hypothesis I_next_index :
  forall pm, I pm -> I (set_rotator (next_index (rotator pm)) pm).
Hypothesis I_success :
  forall pm k m used succeeded rt, I pm -> Dict.get k (metrics pm) = Some m ->
    I (with_metric k (metric_after_success m used succeeded rt) pm).
Hypothesis I_failure :
  forall pm k m used failed e, I pm -> Dict.get k (metrics pm) = Some m ->
    I (with_metric k (metric_after_failure m used failed e) pm).
Hypothesis I_blacklisted : forall pm k n, I pm -> I (with_blacklisted k n pm).
Hypothesis I_without_session : forall pm k, I pm -> I (without_session k pm).
Hypothesis I_unblacklist :
  forall pm ks, I pm ->
    I (set_blacklisted_sessions (without_keys ks (blacklisted_sessions pm)) pm).
Hypothesis I_with_session :
  forall pm k config created_at last_used, I pm ->
    I (with_session (ProxySession.new k config created_at last_used) pm).
Hypothesis I_with_use :
  forall pm key session n, I pm ->
    Dict.get key (sessions pm) = Some session ->
    ProxySession.requests_count session < ProxySession.max_requests session ->
    I (with_use key session n pm).

Lemma keeps_blacklist_session (k : string) : preserves (always I) (_blacklist_session k).
Proof.
  intros pm w H. rewrite blacklist_session_runs. apply I_blacklisted. exact H.
Qed.

Lemma keeps_record_success (k : string) (rt : Q) : preserves (always I) (record_success k rt).
Proof.
  intros pm w H. rewrite record_success_runs.
  destruct (Dict.get k (metrics pm)) eqn:E; [|exact H].
  apply I_success; assumption.
Qed.

Lemma keeps_record_failure (k e : string) : preserves (always I) (record_failure k e).
Proof.
  intros pm w H. rewrite record_failure_runs.
  destruct (Dict.get k (metrics pm)) eqn:E; [|exact H].
  cbv zeta. destruct (_ && _).
  - apply I_blacklisted. apply I_failure; assumption.
  - apply I_failure; assumption.
Qed.

Lemma keeps_cleanup_expired : preserves (always I) _cleanup_expired.
Proof.
  unfold _cleanup_expired.
  apply keeps_bind; [apply keeps_readonly; apply readonly_get_self|]. intros self.
  apply keeps_bind.
  { apply keeps_readonly. apply readonly_filterM. intros x. apply readonly_is_expired. }
  intros expired_sessions.
  apply keeps_bind.
  { intros s w H. rewrite (forM_modify (map fst expired_sessions) without_session).
    unfold always in *.
    revert s H. induction (map fst expired_sessions) as [|k ks IH]; intros s H; cbn [fold_left].
    - exact H.
    - apply IH. apply I_without_session. exact H. }
  intros _.
  apply keeps_bind; [apply keeps_readonly; apply readonly_now|]. intros n.
  apply keeps_bind; [apply keeps_readonly; apply readonly_get_self|]. intros self'. cbv zeta.
  intros s w H.
  rewrite (forM_modify _
    (fun session_id self =>
       set_blacklisted_sessions (Dict.del session_id (blacklisted_sessions self)) self)).
  rewrite fold_unblacklist. apply I_unblacklist. exact H.
Qed.

Section SessionCreation.

Variable session_config : BrightdataConfig.t -> string -> Result BrightdataConfig.t.

Lemma keeps_ensure_loop (fuel : nat) (config : BrightdataConfig.t) (active_count : Z) :
  preserves (always I) (ensure_loop session_config fuel config active_count).
Proof.
  revert active_count. induction fuel as [|fuel IH]; intros active_count; cbn [ensure_loop].
  - apply keeps_bind; [apply keeps_readonly; apply readonly_get_self|]. intros self.
    destruct (_ <? _); [apply hoare_out_of_fuel; auto | apply keeps_ret].
  - apply keeps_bind; [apply keeps_readonly; apply readonly_get_self|]. intros self.
    destruct (_ <? _); [|apply keeps_ret].
    apply keeps_bind.
    { apply keeps_readonly. intros s w. reflexivity. }
    intros session_id.
    apply keeps_bind; [apply keeps_readonly; apply readonly_get_self|]. intros self'.
    destruct (Dict.mem session_id (blacklisted_sessions self')); [apply IH|].
    destruct (session_config config session_id) as [sc|e]; [|apply keeps_raise].
    apply keeps_bind; [apply keeps_readonly; apply readonly_now|]. intros created_at.
    apply keeps_bind; [apply keeps_readonly; apply readonly_now|]. intros last_used.
    cbv zeta.
    set (session := ProxySession.new session_id sc created_at last_used).
    eapply hoare_bind
      with (R := fun _ s _ =>
                   exists s0, I s0
                              /\ s = set_sessions (Dict.set session_id session (sessions s0)) s0).
    { apply hoare_modify. intros s w H. exists s. split; [exact H | reflexivity]. }
    intros _.
    eapply hoare_bind with (R := fun _ => always I).
    { apply hoare_modify. intros s w (s0 & H & ->).
      apply (I_with_session session_id sc created_at last_used H). }
    intros _. apply IH.
Qed.

Lemma keeps_ensure_sessions (fuel : nat) :
  preserves (always I) (_ensure_sessions session_config fuel).
Proof.
  unfold _ensure_sessions.
  apply keeps_bind; [apply keeps_readonly; apply readonly_get_self|]. intros self.
  destruct (BrightdataConfigManager.get_config _) as [config|]; [|apply keeps_ret].
  apply keeps_bind.
  { apply keeps_readonly. apply readonly_filterM. intros x. apply readonly_not_expired. }
  intros active. apply keeps_ensure_loop.
Qed.

Lemma keeps_session_details (l : list ProxySession.t) :
  preserves (always I) (session_details l).
Proof.
  induction l as [|s rest IH]; cbn [session_details].
  - apply keeps_ret.
  - apply keeps_bind.
    { intros pm w H. unfold on_field, getitem_default, bind, get_self. unfold always in *.
      destruct (Dict.get (ProxySession.session_id s) (metrics pm)) eqn:E; cbn.
      - rewrite set_metrics_same. exact H.
      - apply (I_default _ H E). }
    intros metric.
    apply keeps_bind; [apply keeps_readonly; apply readonly_now|]. intros n. cbv zeta.
    apply keeps_bind; [exact IH|]. intros details. apply keeps_ret.
Qed.

Lemma keeps_get_stats : preserves (always I) get_stats.
Proof.
  unfold get_stats.
  apply keeps_bind; [apply keeps_readonly; apply readonly_get_self|]. intros self.
  apply keeps_bind.
  { apply keeps_readonly. apply readonly_filterM. intros x. apply readonly_not_expired. }
  intros active. cbv zeta.
  apply keeps_bind; [apply keeps_session_details|]. intros details. apply keeps_ret.
Qed.

Lemma keeps_get_proxy (fuel : nat) : preserves (always I) (get_proxy session_config fuel).
Proof.
  unfold get_proxy.
  apply keeps_bind; [apply keeps_readonly; apply readonly_get_self|]. intros self0.
  destruct (negb _); [apply keeps_ret|].
  apply keeps_bind; [apply keeps_cleanup_expired|]. intros _.
  apply keeps_bind; [apply keeps_ensure_sessions|]. intros _.
  intros pm w H. unfold always in H.
  unfold bind at 1, get_self at 1. cbv beta iota.
  unfold bind at 1.
  pose proof (@active_sessions_have_requests_left _ (Dict.items (sessions pm)) pm w) as Hact.
  revert Hact.
  match goal with
  | |- context [@filterM ?S ?A ?p ?xs pm w] =>
      destruct (@filterM S A p xs pm w) as [[[active|e|] pm1] w1]
  end; intros Hact; try (subst pm1; exact H).
  destruct Hact as [-> Hact].
  destruct active as [|a0 active]; [exact H|].
  unfold bind at 1.
  unfold with_rotator_and_metrics, on_field.
  pose proof (@keeps_select_next (fun st => I (with_rotator_state st pm))) as Hsel.
  specialize (Hsel
    (fun r d k Hj Hk => I_default (pm := with_rotator_state (r, d) pm) k Hj Hk)
    (fun r d Hj => I_next_index (pm := with_rotator_state (r, d) pm) Hj)
    (a0 :: active) (rotator pm, metrics pm) w1).
  unfold always in Hsel. rewrite with_rotator_state_same in Hsel. specialize (Hsel H).
  pose proof (@select_next_In (a0 :: active) (rotator pm, metrics pm) w1) as Hin.
  unfold outcome_of in Hin.
  destruct (ProxyRotator.select_next (a0 :: active) (rotator pm, metrics pm) w1)
    as [[[selected|e|] st'] w2]; cbn [fst snd] in *; try exact Hsel.
  fold (with_rotator_state st' pm).
  destruct selected as [[key session]|]; [|exact Hsel].
  specialize (Hin (key, session) eq_refl).
  rewrite Forall_forall in Hact. destruct (Hact _ Hin) as [Hitem Hleft]. cbn in Hleft.
  cbn.
  apply (I_with_use (pm := with_rotator_state st' pm) key (clock w2 (reads w2)) Hsel).
  - cbn. apply DictFacts.In_items. exact Hitem.
  - exact Hleft.
Qed.

Lemma keeps_call (op : Op) : preserves (always I) (call session_config op).
Proof.
  destruct op; cbn [call].
  - apply keeps_bind; [apply keeps_get_proxy | intros; apply keeps_ret].
  - apply keeps_record_success.
  - apply keeps_record_failure.
  - apply keeps_bind; [apply keeps_get_stats | intros; apply keeps_ret].
  - apply keeps_ensure_sessions.
  - apply keeps_cleanup_expired.
  - apply keeps_blacklist_session.
Qed.

Lemma keeps_calls (ops : list Op) (pm : ProxyManager.t) (w : World) :
  I pm -> I (fst (calls session_config ops pm w)).
Proof.
  revert pm w. induction ops as [|op ops IH]; intros pm w H; cbn [calls].
  - exact H.
  - apply IH. apply (preserves_state (keeps_call op) pm w H).
Qed.

End SessionCreation.

End ManagerSteps.

(** ** What the updates leave alone *)

Lemma metrics_without_order (k : string) (pm : ProxyManager.t) :
  ProxyManager.metrics (without_order k pm) = ProxyManager.metrics pm.
Proof. unfold without_order. destruct (ProxyManager.list_mem _ _); reflexivity. Qed.

Lemma sessions_without_order (k : string) (pm : ProxyManager.t) :
  ProxyManager.sessions (without_order k pm) = ProxyManager.sessions pm.
Proof. unfold without_order. destruct (ProxyManager.list_mem _ _); reflexivity. Qed.

Lemma metrics_with_blacklisted (k : string) (n : Z) (pm : ProxyManager.t) :
  ProxyManager.metrics (with_blacklisted k n pm) = ProxyManager.metrics pm.
Proof.
  unfold with_blacklisted. cbv zeta. rewrite metrics_without_order.
  destruct (Dict.mem _ _); reflexivity.
Qed.

Lemma metrics_without_session (k : string) (pm : ProxyManager.t) :
  ProxyManager.metrics (without_session k pm) = ProxyManager.metrics pm.
Proof. unfold without_session. rewrite metrics_without_order. reflexivity. Qed.

(** ** The counters of the metrics *)

Lemma every_metric_with_metric (P : ProxyMetrics.t -> Prop) (k : string) (m : ProxyMetrics.t)
    (pm : ProxyManager.t) :
  every_metric P pm -> P m -> every_metric P (with_metric k m pm).
Proof.
  intros H Hm k' m' Hget. unfold with_metric in Hget. cbn in Hget.
  rewrite DictFacts.get_set in Hget.
  destruct (k' =? k)%string; [injection Hget as <-; exact Hm | eapply H; exact Hget].
Qed.

Lemma every_metric_same (P : ProxyMetrics.t -> Prop) (pm pm' : ProxyManager.t) :
  ProxyManager.metrics pm' = ProxyManager.metrics pm -> every_metric P pm -> every_metric P pm'.
Proof. intros E H k m Hget. rewrite E in Hget. eapply H. exact Hget. Qed.

(** An assertion on every metrics entry is kept by the calls on the
    manager when a new entry has it and recording an outcome keeps it. *)
Lemma calls_keep_every_metric (P : ProxyMetrics.t -> Prop) :
  P ProxyMetrics.default ->
  (forall m used succeeded rt, P m -> P (metric_after_success m used succeeded rt)) ->
  (forall m used failed e, P m -> P (metric_after_failure m used failed e)) ->
  forall sc (ops : list ProxyManager.Op) (pm : ProxyManager.t) (w : World),
    every_metric P pm -> every_metric P (fst (ProxyManager.calls sc ops pm w)).
Proof.
  intros Hd Hs Hf sc ops pm w.
  apply keeps_calls with (I := every_metric P).
  - intros pm0 k H _. apply every_metric_with_metric; assumption.
  - intros pm0 H. eapply every_metric_same; [|exact H]. reflexivity.
  - intros pm0 k m used succeeded rt H Hget.
    apply every_metric_with_metric; [exact H|]. apply Hs. eapply H. exact Hget.
  - intros pm0 k m used failed e H Hget.
    apply every_metric_with_metric; [exact H|]. apply Hf. eapply H. exact Hget.
  - intros pm0 k n H. eapply every_metric_same; [|exact H]. apply metrics_with_blacklisted.
  - intros pm0 k H. eapply every_metric_same; [|exact H]. apply metrics_without_session.
  - intros pm0 ks H. eapply every_metric_same; [|exact H]. reflexivity.
  - intros pm0 k config c l H. eapply every_metric_same; [|exact H]. reflexivity.
  - intros pm0 key s n H _ _. eapply every_metric_same; [|exact H]. reflexivity.
Qed.

Lemma counters_add_up_default : counters_add_up ProxyMetrics.default.
Proof. unfold counters_add_up. cbn. repeat split; auto; lia. Qed.

Lemma counters_add_up_success (m : ProxyMetrics.t) (used succeeded : Z) (rt : Q) :
  counters_add_up m -> counters_add_up (metric_after_success m used succeeded rt).
Proof.
  unfold counters_add_up, metric_after_success. cbn.
  intros (H1 & H2 & H3 & H4 & H5 & H6 & H7 & H8 & H9).
  repeat split; try lia; try discriminate; try tauto; intros; try lia.
Qed.

Lemma counters_add_up_failure (m : ProxyMetrics.t) (used failed : Z) (e : string) :
  counters_add_up m -> counters_add_up (metric_after_failure m used failed e).
Proof.
  unfold counters_add_up, metric_after_failure. cbn.
  intros (H1 & H2 & H3 & H4 & H5 & H6 & H7 & H8 & H9).
  destruct (e =? "blocked")%string; [|destruct (e =? "timeout")%string];
    repeat split; try lia; try discriminate; try tauto; intros; try lia.
Qed.

(** X4.  When in every metrics entry the counters add up
    ([requests_sent = successful_requests + failed_requests], nothing
    negative, [blocked + timeout <= failed], each timestamp present
    exactly when its counter is not zero), they still do after every
    sequence of calls on the manager. *)
Theorem metrics_counters_add_up :
  forall (session_config : BrightdataConfig.t -> string -> Result BrightdataConfig.t)
         (ops : list ProxyManager.Op) (pm : ProxyManager.t) (w : World),
    every_metric counters_add_up pm ->
    every_metric counters_add_up (fst (ProxyManager.calls session_config ops pm w)).
Proof.
  intros sc ops pm w. apply calls_keep_every_metric.
  - apply counters_add_up_default.
  - apply counters_add_up_success.
  - apply counters_add_up_failure.
Qed.

Lemma metrics_counters_add_up_witness :
  every_metric counters_add_up
    (fst (ProxyManager.calls ProxyManager.session_config_call
            [ProxyManager.RecordFailure Examples.session_id "timeout";
             ProxyManager.GetProxy 1;
             ProxyManager.RecordSuccess Examples.session_id 1;
             ProxyManager.GetStats]
            Examples.manager_with_metrics Examples.world)).
Proof.
  apply metrics_counters_add_up.
  intros k m H. cbn in H.
  destruct (k =? Examples.session_id)%string; [|discriminate].
  injection H as <-. unfold counters_add_up. cbn.
  repeat split; try lia; try discriminate.
Defined.

(** ** The window of response times *)

Lemma deque_append_length (maxlen : nat) (x : Q) (d : list Q) :
  (0 < maxlen)%nat -> (List.length d <= maxlen)%nat ->
  (List.length (ProxyMetrics.deque_append maxlen x d) <= maxlen)%nat
  /\ ProxyMetrics.deque_append maxlen x d <> [].
Proof.
  intros Hpos H. unfold ProxyMetrics.deque_append.
  assert (Hlen : List.length (d ++ [x])%list = S (List.length d)).
  { rewrite length_app. cbn. lia. }
  destruct (maxlen <? List.length (d ++ [x])%list)%nat eqn:E.
  - apply Nat.ltb_lt in E. destruct (d ++ [x])%list as [|y l] eqn:D; cbn in *; [lia|].
    split; [lia|]. destruct l; [cbn in *; lia | discriminate].
  - apply Nat.ltb_ge in E. split; [exact E|]. destruct d; discriminate.
Qed.

Lemma window_kept_success (m : ProxyMetrics.t) (used succeeded : Z) (rt : Q) :
  window_kept m -> window_kept (metric_after_success m used succeeded rt).
Proof.
  unfold window_kept, metric_after_success. cbn. intros [Hlen Havg].
  destruct (Qltb 0 rt); [|split; assumption].
  destruct (@deque_append_length 100 rt (ProxyMetrics.response_times m)) as [Hl Hne];
    [lia | exact Hlen |].
  split; [exact Hl|].
  destruct (ProxyMetrics.deque_append 100 rt (ProxyMetrics.response_times m));
    [contradiction | reflexivity].
Qed.

Lemma deque_append_last_entries (x : Q) (d : list Q) :
  (List.length d <= 100)%nat ->
  ProxyMetrics.deque_append 100 x d = last_entries 100 (d ++ [x]).
Proof.
  intros H. unfold ProxyMetrics.deque_append, last_entries.
  assert (Hlen : List.length (d ++ [x])%list = S (List.length d)).
  { rewrite length_app. cbn. lia. }
  rewrite Hlen.
  destruct (100 <? S (List.length d))%nat eqn:E.
  - apply Nat.ltb_lt in E.
    replace (S (List.length d) - 100)%nat with 1%nat by lia.
    destruct (d ++ [x])%list; reflexivity.
  - apply Nat.ltb_ge in E.
    replace (S (List.length d) - 100)%nat with 0%nat by lia. reflexivity.
Qed.

(** What one [record_success] does to the window of a session with a
    metrics entry. *)
Lemma record_success_window (session_id : string) (response_time : Q)
    (pm : ProxyManager.t) (w : World) (metric : ProxyMetrics.t) :
  window_kept metric ->
  Dict.get session_id (ProxyManager.metrics pm) = Some metric ->
  exists metric',
    Dict.get session_id
      (ProxyManager.metrics
         (state_of (ProxyManager.record_success session_id response_time pm w)))
    = Some metric'
    /\ ((0 < response_time)%Q ->
        ProxyMetrics.response_times metric'
        = last_entries 100 (ProxyMetrics.response_times metric ++ [response_time]))
    /\ (~ (0 < response_time)%Q ->
        ProxyMetrics.response_times metric' = ProxyMetrics.response_times metric
        /\ ProxyMetrics.average_response_time metric'
           = ProxyMetrics.average_response_time metric).
Proof.
  intros [Hlen _] Hget. rewrite record_success_runs, Hget.
  eexists. split.
  { cbn. rewrite DictFacts.get_set, String.eqb_refl. reflexivity. }
  unfold metric_after_success. cbn.
  destruct (Qltb 0 response_time) eqn:E.
  - split; [intros _; apply deque_append_last_entries; exact Hlen|].
    intros Hn. exfalso. apply Hn.
    unfold Qltb in E. apply negb_true_iff in E.
    apply Qnot_le_lt. intros Hle. apply Qle_bool_iff in Hle. congruence.
  - apply Qltb_false in E. split; [|intros _; split; reflexivity].
    intros Hpos. exfalso. apply (Qlt_not_le _ _ Hpos). exact E.
Qed.

(** X5.  The window of response times never holds more than 100 entries,
    and [average_response_time] is the average of the window (0 while it
    is empty): if this holds of every metrics entry, it holds after every
    sequence of calls on the manager.  One [record_success] for a session
    with a metrics entry appends a positive response time to the window,
    keeping the last 100 entries, and leaves window and average as they
    are when the response time is not positive. *)
Theorem response_time_window_is_bounded :
  forall (session_config : BrightdataConfig.t -> string -> Result BrightdataConfig.t)
         (ops : list ProxyManager.Op) (pm : ProxyManager.t) (w : World),
    every_metric window_kept pm ->
    every_metric window_kept (fst (ProxyManager.calls session_config ops pm w))
    /\ forall (session_id : string) (response_time : Q) (metric : ProxyMetrics.t),
         Dict.get session_id (ProxyManager.metrics pm) = Some metric ->
         exists metric',
           Dict.get session_id
             (ProxyManager.metrics
                (state_of (ProxyManager.record_success session_id response_time pm w)))
           = Some metric'
           /\ ((0 < response_time)%Q ->
               ProxyMetrics.response_times metric'
               = last_entries 100 (ProxyMetrics.response_times metric ++ [response_time]))
           /\ (~ (0 < response_time)%Q ->
               ProxyMetrics.response_times metric' = ProxyMetrics.response_times metric
               /\ ProxyMetrics.average_response_time metric'
                  = ProxyMetrics.average_response_time metric).
Proof.
  intros sc ops pm w H. split.
  - revert H. apply calls_keep_every_metric.
    + unfold window_kept. cbn. split; [lia | reflexivity].
    + apply window_kept_success.
    + intros m used failed e Hm. exact Hm.
  - intros session_id response_time metric Hget.
    apply record_success_window; [|exact Hget].
    apply (H session_id). exact Hget.
Qed.

Lemma response_time_window_is_bounded_witness :
  let ops := [ProxyManager.RecordSuccess Examples.session_id (3 # 2);
              ProxyManager.RecordSuccess Examples.session_id 0;
              ProxyManager.RecordFailure Examples.session_id "blocked";
              ProxyManager.RecordSuccess Examples.session_id (1 # 2)] in
  every_metric window_kept
    (fst (ProxyManager.calls ProxyManager.session_config_call ops
            Examples.manager_with_metrics Examples.world))
  /\ exists metric',
       Dict.get Examples.session_id
         (ProxyManager.metrics
            (state_of (ProxyManager.record_success Examples.session_id 0
                         Examples.manager_with_metrics Examples.world)))
       = Some metric'
       /\ ProxyMetrics.response_times metric' = []
       /\ ProxyMetrics.average_response_time metric' = 0%Q.
Proof.
  cbv zeta.
  destruct (@response_time_window_is_bounded ProxyManager.session_config_call
              [ProxyManager.RecordSuccess Examples.session_id (3 # 2);
               ProxyManager.RecordSuccess Examples.session_id 0;
               ProxyManager.RecordFailure Examples.session_id "blocked";
               ProxyManager.RecordSuccess Examples.session_id (1 # 2)]
              Examples.manager_with_metrics Examples.world) as [H1 H2].
  - intros k m H. cbn in H.
    destruct (k =? Examples.session_id)%string; [|discriminate].
    injection H as <-. unfold window_kept. cbn. split; [lia | reflexivity].
  - split; [exact H1|].
    destruct (H2 Examples.session_id 0%Q Examples.mixed_metrics eq_refl)
      as (metric' & Hget & _ & Hsame).
    exists metric'. split; [exact Hget|].
    destruct Hsame as [Hw Ha]; [intros Hlt; discriminate Hlt|].
    split; [rewrite Hw | rewrite Ha]; reflexivity.
Defined.

(** ** The pool *)

Lemma list_remove_other (x y : string) (l : list string) :
  In x l -> x <> y -> In x (ProxyManager.list_remove y l).
Proof.
  intros Hin Hne. induction l as [|z l IH]; cbn; [contradiction|].
  destruct (String.eqb_spec y z) as [E|E].
  - destruct Hin as [->|Hin]; [congruence | exact Hin].
  - destruct Hin as [->|Hin]; [left; reflexivity | right; apply IH; exact Hin].
Qed.

Lemma In_without_order (x k : string) (pm : ProxyManager.t) :
  In x (ProxyManager.session_order pm) -> x <> k ->
  In x (ProxyManager.session_order (without_order k pm)).
Proof.
  intros Hin Hne. unfold without_order.
  destruct (ProxyManager.list_mem k _); [|exact Hin].
  cbn. apply list_remove_other; assumption.
Qed.

Lemma pooled_same (pm pm' : ProxyManager.t) (key : string) (session : ProxySession.t) :
  ProxyManager.session_order pm' = ProxyManager.session_order pm ->
  pooled pm key session -> pooled pm' key session.
Proof. unfold pooled. intros ->. auto. Qed.

Lemma pool_kept_same (pm pm' : ProxyManager.t) :
  ProxyManager.sessions pm' = ProxyManager.sessions pm ->
  ProxyManager.session_order pm' = ProxyManager.session_order pm ->
  pool_kept pm -> pool_kept pm'.
Proof.
  intros Es Eo H key session Hget. rewrite Es in Hget.
  eapply pooled_same; [exact Eo | apply H; exact Hget].
Qed.

Lemma pool_kept_without (k : string) (pm pm1 : ProxyManager.t) :
  ProxyManager.session_order pm1 = ProxyManager.session_order pm ->
  (forall key session,
     Dict.get key (ProxyManager.sessions pm1) = Some session ->
     key <> k /\ Dict.get key (ProxyManager.sessions pm) = Some session) ->
  pool_kept pm -> pool_kept (without_order k pm1).
Proof.
  intros Eo Hs H key session Hget. rewrite sessions_without_order in Hget.
  destruct (Hs _ _ Hget) as [Hne Hold].
  destruct (H _ _ Hold) as (H1 & H2 & H3).
  split; [exact H1|]. split; [|exact H3].
  apply In_without_order; [rewrite Eo; exact H2 | exact Hne].
Qed.

Lemma calls_keep_pool sc (ops : list ProxyManager.Op) (pm : ProxyManager.t) (w : World) :
  pool_kept pm -> pool_kept (fst (ProxyManager.calls sc ops pm w)).
Proof.
  apply keeps_calls with (I := pool_kept).
  - intros pm0 k H _. eapply pool_kept_same; [| |exact H]; reflexivity.
  - intros pm0 H. eapply pool_kept_same; [| |exact H]; reflexivity.
  - intros pm0 k m used succeeded rt H _. eapply pool_kept_same; [| |exact H]; reflexivity.
  - intros pm0 k m used failed e H _. eapply pool_kept_same; [| |exact H]; reflexivity.
  - intros pm0 k n H. unfold with_blacklisted. cbv zeta.
    apply pool_kept_without with (pm := pm0); [| |exact H].
    + destruct (Dict.mem _ _); reflexivity.
    + intros key session Hget.
      destruct (Dict.mem k _) eqn:E; cbn in Hget, E.
      * rewrite DictFacts.get_del in Hget.
        destruct (String.eqb_spec key k); [discriminate | auto].
      * apply DictFacts.mem_false_get in E.
        split; [intros ->; congruence | exact Hget].
  - intros pm0 k H. unfold without_session.
    apply pool_kept_without with (pm := pm0); [reflexivity | | exact H].
    intros key session Hget. cbn in Hget. rewrite DictFacts.get_del in Hget.
    destruct (String.eqb_spec key k); [discriminate | auto].
  - intros pm0 ks H. eapply pool_kept_same; [| |exact H]; reflexivity.
  - intros pm0 k config c l H key session Hget.
    unfold with_session in *. cbn in Hget |- *. rewrite DictFacts.get_set in Hget.
    unfold pooled. cbn.
    destruct (String.eqb_spec key k) as [->|Hne].
    + injection Hget as <-. cbn. repeat split; try lia.
      apply in_or_app. right. left. reflexivity.
    + destruct (H _ _ Hget) as (H1 & H2 & H3).
      split; [exact H1|]. split; [|exact H3]. apply in_or_app. left. exact H2.
  - intros pm0 key s n H Hs Hleft key' session Hget.
    unfold with_use in *. cbn in Hget |- *. rewrite DictFacts.get_set in Hget.
    unfold pooled. cbn.
    destruct (String.eqb_spec key' key) as [->|Hne].
    + injection Hget as <-. destruct (H _ _ Hs) as (H1 & H2 & H3 & H4 & H5).
      cbn. repeat split; try assumption; lia.
    + exact (H _ _ Hget).
Qed.

(** X6.  When every session of the pool is stored under its own id, is
    listed in [session_order], has the limits 100 and 3600 of the
    dataclass and a [requests_count] between 0 and [max_requests], this
    still holds after every sequence of calls on the manager, whatever
    creates the session configurations.  So no session is handed out more
    often than [max_requests] allows. *)
Theorem pool_stays_in_order :
  forall (session_config : BrightdataConfig.t -> string -> Result BrightdataConfig.t)
         (ops : list ProxyManager.Op) (pm : ProxyManager.t) (w : World),
    pool_kept pm ->
    pool_kept (fst (ProxyManager.calls session_config ops pm w)).
Proof. intros sc ops pm w. apply calls_keep_pool. Qed.

Lemma pool_stays_in_order_witness :
  pool_kept
    (fst (ProxyManager.calls (fun config _ => Ok config)
            [ProxyManager.GetProxy 3;
             ProxyManager.RecordFailure Examples.session_id "blocked";
             ProxyManager.BlacklistSession Examples.session_id;
             ProxyManager.GetProxy 3;
             ProxyManager.CleanupExpired]
            Examples.manager Examples.world)).
Proof.
  apply pool_stays_in_order.
  intros key session H. cbn in H.
  destruct (key =? Examples.session_id)%string eqn:E; [|discriminate].
  apply String.eqb_eq in E. subst key. injection H as <-.
  unfold pooled. cbn. repeat split; auto; lia.
Defined.

(** ** The settings *)

Lemma settings_kept_refl (pm : ProxyManager.t) : settings_kept pm pm.
Proof. unfold settings_kept. repeat split; lia. Qed.

Lemma settings_kept_same (pm0 pm pm' : ProxyManager.t) :
  ProxyManager.config_manager pm' = ProxyManager.config_manager pm ->
  ProxyManager.max_sessions pm' = ProxyManager.max_sessions pm ->
  ProxyManager.rotation_interval pm' = ProxyManager.rotation_interval pm ->
  ProxyManager.blacklist_duration pm' = ProxyManager.blacklist_duration pm ->
  ProxyManager.rotator pm' = ProxyManager.rotator pm ->
  ProxyManager.requests_since_rotation pm' = ProxyManager.requests_since_rotation pm ->
  settings_kept pm0 pm -> settings_kept pm0 pm'.
Proof. unfold settings_kept. intros -> -> -> -> -> ->. auto. Qed.

Lemma settings_kept_without_order (pm0 pm : ProxyManager.t) (k : string) :
  settings_kept pm0 pm -> settings_kept pm0 (without_order k pm).
Proof.
  intros H. unfold without_order. destruct (ProxyManager.list_mem _ _); [|exact H].
  eapply settings_kept_same; [| | | | | |exact H]; reflexivity.
Qed.

(** X7.  No call on the manager changes its configuration manager,
    [max_sessions], [rotation_interval], [blacklist_duration], or the
    strategy and [last_rotation] of its rotator; [requests_since_rotation]
    and the round-robin index never go back. *)
Theorem settings_are_never_changed :
  forall (session_config : BrightdataConfig.t -> string -> Result BrightdataConfig.t)
         (ops : list ProxyManager.Op) (pm : ProxyManager.t) (w : World),
    settings_kept pm (fst (ProxyManager.calls session_config ops pm w)).
Proof.
  intros sc ops pm w.
  apply keeps_calls with (I := settings_kept pm); [..|apply settings_kept_refl].
  - intros pm0 k H _. eapply settings_kept_same; [| | | | | |exact H]; reflexivity.
  - intros pm0 H. unfold settings_kept in *. cbn. intuition lia.
  - intros pm0 k m used succeeded rt H _.
    eapply settings_kept_same; [| | | | | |exact H]; reflexivity.
  - intros pm0 k m used failed e H _.
    eapply settings_kept_same; [| | | | | |exact H]; reflexivity.
  - intros pm0 k n H. unfold with_blacklisted. cbv zeta.
    apply settings_kept_without_order.
    destruct (Dict.mem _ _); eapply settings_kept_same; try exact H; reflexivity.
  - intros pm0 k H. unfold without_session. apply settings_kept_without_order.
    eapply settings_kept_same; [| | | | | |exact H]; reflexivity.
  - intros pm0 ks H. eapply settings_kept_same; [| | | | | |exact H]; reflexivity.
  - intros pm0 k config c l H. eapply settings_kept_same; [| | | | | |exact H]; reflexivity.
  - intros pm0 key s n H _ _. unfold settings_kept in *. cbn. intuition lia.
Qed.

(** ** The statistics *)

Lemma Zsum_from (l : list Z) (a : Z) : fold_left Z.add l a = a + ProxyManager.Zsum l.
Proof.
  unfold ProxyManager.Zsum. revert a. induction l as [|x l IH]; intros a; cbn [fold_left].
  - lia.
  - rewrite IH. rewrite (IH (0 + x)). lia.
Qed.

Lemma Zsum_cons (x : Z) (l : list Z) : ProxyManager.Zsum (x :: l) = x + ProxyManager.Zsum l.
Proof. unfold ProxyManager.Zsum at 1. cbn [fold_left]. rewrite Zsum_from. lia. Qed.

Lemma Zsum_counters (ms : list ProxyMetrics.t) :
  Forall counters_add_up ms ->
  ProxyManager.Zsum (map ProxyMetrics.requests_sent ms)
  = ProxyManager.Zsum (map ProxyMetrics.successful_requests ms)
    + ProxyManager.Zsum (map ProxyMetrics.failed_requests ms)
  /\ 0 <= ProxyManager.Zsum (map ProxyMetrics.successful_requests ms)
  /\ 0 <= ProxyManager.Zsum (map ProxyMetrics.failed_requests ms).
Proof.
  induction 1 as [|m ms Hm _ IH]; cbn [map].
  - cbn. lia.
  - rewrite !Zsum_cons. destruct Hm as (H1 & H2 & H3 & _). lia.
Qed.

Lemma every_metric_values (P : ProxyMetrics.t -> Prop) (pm : ProxyManager.t) :
  every_metric P pm -> Forall P (Dict.values (ProxyManager.metrics pm)).
Proof.
  intros H. apply Forall_forall. intros m Hin. unfold Dict.values in Hin.
  apply in_map_iff in Hin. destruct Hin as ([k m'] & E & Hin). cbn in E. subst m'.
  apply DictFacts.In_items in Hin. eapply H. exact Hin.
Qed.

Lemma filterM_length {S A} (p : A -> M S bool) (xs : list A) :
  forall s w l, outcome_of (filterM p xs s w) = Return l ->
                (List.length l <= List.length xs)%nat.
Proof.
  induction xs as [|x xs IH]; intros s w l; cbn [filterM].
  - cbn. intros H. injection H as <-. cbn. lia.
  - unfold bind at 1. destruct (p x s w) as [[[b|e|] s1] w1]; try discriminate.
    unfold bind at 1. specialize (IH s1 w1). unfold outcome_of in *.
    destruct (filterM p xs s1 w1) as [[[rest|e|] s2] w2]; try discriminate.
    cbn. intros H. injection H as <-. specialize (IH rest eq_refl).
    destruct b; cbn; lia.
Qed.

Lemma session_details_returns (l : list ProxySession.t) (pm : ProxyManager.t) (w : World) :
  exists details pm' w',
    ProxyManager.session_details l pm w = (Return details, pm', w')
    /\ List.length details = List.length l
    /\ ProxyManager.sessions pm' = ProxyManager.sessions pm
    /\ ProxyManager.session_order pm' = ProxyManager.session_order pm
    /\ ProxyManager.blacklisted_sessions pm' = ProxyManager.blacklisted_sessions pm.
Proof.
  revert pm w. induction l as [|s rest IH]; intros pm w; cbn [ProxyManager.session_details].
  - exists [], pm, w. repeat split.
  - unfold bind at 1. unfold on_field, getitem_default, bind at 1, get_self at 1.
    cbv beta iota.
    destruct (Dict.get (ProxySession.session_id s) (ProxyManager.metrics pm)) as [m|].
    + cbn [ret]. cbv beta iota. unfold bind at 1, now at 1. cbv beta iota zeta.
      unfold bind at 1.
      match goal with
      | |- context [ProxyManager.session_details rest ?pm1 ?w1] =>
          destruct (IH pm1 w1) as (details & pm' & w' & Hr & Hl & H1 & H2 & H3)
      end.
      rewrite Hr. cbn [ret]. cbv beta iota.
      eexists. eexists. eexists. split; [reflexivity|].
      cbn [List.length]. rewrite Hl, H1, H2, H3. repeat split.
    + unfold bind at 1, put_self. cbn [ret]. cbv beta iota.
      unfold bind at 1, now at 1. cbv beta iota zeta.
      unfold bind at 1.
      match goal with
      | |- context [ProxyManager.session_details rest ?pm1 ?w1] =>
          destruct (IH pm1 w1) as (details & pm' & w' & Hr & Hl & H1 & H2 & H3)
      end.
      rewrite Hr. cbn [ret]. cbv beta iota.
      eexists. eexists. eexists. split; [reflexivity|].
      cbn [List.length]. rewrite Hl, H1, H2, H3. repeat split.
Qed.

(** X8.  When the counters of the metrics add up, [get_stats] returns,
    and in what it returns the total of requests is the sum of the
    successful and the failed ones, the number of active sessions is at
    most the number of sessions, and there is one detail record per active
    session.  The pool and the blacklist are as before. *)
Theorem get_stats_totals_are_consistent :
  forall (pm : ProxyManager.t) (w : World),
    every_metric counters_add_up pm ->
    exists stats pm' w',
      ProxyManager.get_stats pm w = (Return stats, pm', w')
      /\ ProxyManager.stats_total_requests stats
         = ProxyManager.stats_successful_requests stats
           + ProxyManager.stats_failed_requests stats
      /\ 0 <= ProxyManager.stats_successful_requests stats
      /\ 0 <= ProxyManager.stats_failed_requests stats
      /\ 0 <= ProxyManager.stats_active_sessions stats
            <= ProxyManager.stats_total_sessions stats
      /\ List.length (ProxyManager.stats_session_details stats)
         = Z.to_nat (ProxyManager.stats_active_sessions stats)
      /\ ProxyManager.sessions pm' = ProxyManager.sessions pm
      /\ ProxyManager.blacklisted_sessions pm' = ProxyManager.blacklisted_sessions pm.
Proof.
  intros pm w Hall.
  unfold ProxyManager.get_stats.
  unfold bind at 1, get_self at 1. cbv beta iota.
  unfold bind at 1.
  pose proof (@filterM_length ProxyManager.t _
                (fun s : ProxySession.t => e <- ProxySession.is_expired s ;; ret (negb e))
                (Dict.values (ProxyManager.sessions pm)) pm w) as Hlen.
  pose proof (@filterM_returns ProxyManager.t _
                (fun s : ProxySession.t => e <- ProxySession.is_expired s ;; ret (negb e))
                (Dict.values (ProxyManager.sessions pm))) as Hret.
  specialize (Hret (fun x s w0 => eq_refl) pm w).
  pose proof (@readonly_filterM ProxyManager.t _
                (fun s : ProxySession.t => e <- ProxySession.is_expired s ;; ret (negb e))
                (Dict.values (ProxyManager.sessions pm))
                (fun x => @readonly_not_expired ProxyManager.t x) pm w) as Hro.
  unfold outcome_of, state_of in *.
  destruct (filterM _ (Dict.values (ProxyManager.sessions pm)) pm w)
    as [[[active|e|] pm1] w1]; try discriminate.
  cbn in Hro. subst pm1. specialize (Hlen active eq_refl).
  cbv beta iota zeta. unfold bind at 1.
  destruct (session_details_returns active pm w1)
    as (details & pm' & w' & Hr & Hl & H1 & H2 & H3).
  rewrite Hr. cbn [ret]. cbv beta iota.
  eexists. eexists. eexists. split; [reflexivity|].
  cbn [ProxyManager.stats_total_requests ProxyManager.stats_successful_requests
       ProxyManager.stats_failed_requests ProxyManager.stats_active_sessions
       ProxyManager.stats_total_sessions ProxyManager.stats_session_details].
  destruct (Zsum_counters (every_metric_values Hall)) as (Hs & H0 & H0').
  unfold Dict.len. unfold Dict.values in Hlen. rewrite length_map in Hlen.
  rewrite Nat2Z.id.
  repeat split; try assumption; lia.
Qed.

Lemma get_stats_totals_are_consistent_witness :
  let pm := Examples.manager_with_metrics in
  exists stats pm' w',
    ProxyManager.get_stats pm Examples.world = (Return stats, pm', w')
    /\ ProxyManager.stats_total_requests stats
       = ProxyManager.stats_successful_requests stats
         + ProxyManager.stats_failed_requests stats
    /\ 0 <= ProxyManager.stats_successful_requests stats
    /\ 0 <= ProxyManager.stats_failed_requests stats
    /\ 0 <= ProxyManager.stats_active_sessions stats
          <= ProxyManager.stats_total_sessions stats
    /\ List.length (ProxyManager.stats_session_details stats)
       = Z.to_nat (ProxyManager.stats_active_sessions stats)
    /\ ProxyManager.sessions pm' = ProxyManager.sessions pm
    /\ ProxyManager.blacklisted_sessions pm' = ProxyManager.blacklisted_sessions pm.
Proof.
  intros pm. apply get_stats_totals_are_consistent.
  intros k m H. cbn in H.
  destruct (k =? Examples.session_id)%string; [|discriminate].
  injection H as <-. unfold counters_add_up. cbn.
  repeat split; try lia; try discriminate.
Defined.

(** ** Health without a success *)

(** X9.  A metrics entry whose counters add up, with requests on record
    but no success, is not healthy: the allowance for fewer than five
    requests only ever applies to an entry without any request. *)
Theorem requests_without_success_are_unhealthy :
  forall (m : ProxyMetrics.t) (now : Z),
    counters_add_up m ->
    ProxyMetrics.last_success m = None ->
    ProxyMetrics.requests_sent m <> 0 ->
    ProxyMetrics.is_healthy_at now m = false.
Proof.
  intros m now (H1 & H2 & H3 & _ & _ & _ & _ & H8 & _) Hnone Hsent.
  apply H8 in Hnone.
  unfold ProxyMetrics.is_healthy_at, ProxyMetrics.success_rate.
  rewrite Hnone.
  destruct (Z.eqb_spec (ProxyMetrics.requests_sent m) 0) as [E|_]; [contradiction|].
  assert (Hrate : Qltb (inject_Z 0 / inject_Z (ProxyMetrics.requests_sent m) * 100) 80 = true).
  { destruct (ProxyMetrics.requests_sent m); reflexivity. }
  rewrite Hrate. reflexivity.
Qed.

Lemma requests_without_success_are_unhealthy_witness :
  ProxyMetrics.is_healthy_at 1000000
    (metric_after_failure ProxyMetrics.default 0 0 "timeout") = false.
Proof.
  apply requests_without_success_are_unhealthy.
  - unfold counters_add_up. cbn. repeat split; try lia; try discriminate.
  - reflexivity.
  - discriminate.
Defined.

(** ** The blacklisting threshold *)

Lemma rate_below_half (a b : Z) :
  0 < b -> (Qltb (inject_Z a / inject_Z b * 100) 50 = true <-> 2 * a < b).
Proof.
  intros Hb. unfold Qltb. rewrite negb_true_iff.
  destruct b as [|p|p]; try lia.
  destruct (Qle_bool 50 (inject_Z a / inject_Z (Z.pos p) * 100)) eqn:E.
  - apply Qle_bool_iff in E. unfold Qle, Qdiv, Qmult, Qinv, inject_Z in E. cbn in E.
    split; [discriminate | intros; lia].
  - split; [intros _ | reflexivity].
    destruct (Z.lt_ge_cases (2 * a) (Z.pos p)) as [H|H]; [exact H|].
    exfalso. assert (E' : Qle_bool 50 (inject_Z a / inject_Z (Z.pos p) * 100) = true).
    { apply Qle_bool_iff. unfold Qle, Qdiv, Qmult, Qinv, inject_Z. cbn. lia. }
    congruence.
Qed.

Lemma with_blacklisted_effect (k : string) (n : Z) (pm : ProxyManager.t) :
  Dict.get k (ProxyManager.blacklisted_sessions (with_blacklisted k n pm)) = Some n
  /\ Dict.mem k (ProxyManager.sessions (with_blacklisted k n pm)) = false.
Proof.
  unfold with_blacklisted, without_order. cbv zeta. cbn.
  destruct (Dict.mem k (ProxyManager.sessions pm)) eqn:E;
    destruct (ProxyManager.list_mem k _); cbn;
    rewrite ?DictFacts.get_set, ?DictFacts.mem_del, ?String.eqb_refl; auto.
Qed.

(** X10.  [record_failure] for a session with a metrics entry blacklists
    the session exactly when, this failure included, more than 10
    outcomes are on record and fewer than half of them are successes.
    Then the session is on the blacklist with the third clock reading of
    the call, and out of the pool; otherwise blacklist, pool and session
    order are as before. *)
Theorem record_failure_blacklists_at_threshold :
  forall (pm : ProxyManager.t) (w : World) (session_id error_type : string)
         (metric : ProxyMetrics.t),
    Dict.get session_id (ProxyManager.metrics pm) = Some metric ->
    let sent := ProxyMetrics.requests_sent metric + 1 in
    let successful := ProxyMetrics.successful_requests metric in
    let after := state_of (ProxyManager.record_failure session_id error_type pm w) in
    (10 < sent /\ 2 * successful < sent ->
       Dict.get session_id (ProxyManager.blacklisted_sessions after)
       = Some (clock w (S (S (reads w))))
       /\ Dict.mem session_id (ProxyManager.sessions after) = false)
    /\ (~ (10 < sent /\ 2 * successful < sent) ->
          ProxyManager.blacklisted_sessions after = ProxyManager.blacklisted_sessions pm
          /\ ProxyManager.sessions after = ProxyManager.sessions pm
          /\ ProxyManager.session_order after = ProxyManager.session_order pm).
Proof.
  intros pm w session_id error_type metric Hm sent successful after.
  subst after. rewrite record_failure_runs, Hm. cbv zeta.
  cbn [ProxyMetrics.requests_sent ProxyMetrics.successful_requests ProxyMetrics.success_rate
       metric_after_failure].
  fold sent. fold successful.
  assert (Hcond : Qltb (if sent =? 0 then 100%Q
                        else (inject_Z successful / inject_Z sent * 100)%Q) 50
                  && (10 <? sent) = true
                  <-> (10 < sent /\ 2 * successful < sent)).
  { rewrite andb_true_iff, Z.ltb_lt. split.
    - intros [Hr Hs]. split; [exact Hs|].
      destruct (Z.eqb_spec sent 0) as [E|E]; [lia|].
      apply rate_below_half in Hr; lia.
    - intros [Hs Hr]. split; [|exact Hs].
      destruct (Z.eqb_spec sent 0) as [E|E]; [lia|].
      apply rate_below_half; lia. }
  destruct (Qltb _ 50 && (10 <? sent)) eqn:E.
  - split; [intros _ | intros Hn; exfalso; apply Hn; apply Hcond; reflexivity].
    cbn [state_of fst snd]. apply with_blacklisted_effect.
  - split; [intros Hy; apply Hcond in Hy; discriminate | intros _].
    cbn. repeat split.
Qed.

Lemma record_failure_blacklists_at_threshold_witness :
  let after := state_of (ProxyManager.record_failure Examples.session_id "blocked"
                           Examples.manager_with_metrics Examples.world) in
  Dict.get Examples.session_id (ProxyManager.blacklisted_sessions after)
  = Some (clock Examples.world 2)
  /\ Dict.mem Examples.session_id (ProxyManager.sessions after) = false.
Proof.
  intros after.
  apply (@record_failure_blacklists_at_threshold Examples.manager_with_metrics
           Examples.world Examples.session_id "blocked" Examples.mixed_metrics).
  - reflexivity.
  - cbn. lia.
Defined.

(** ** Round-robin selection *)

Lemma round_robin_select_runs (sessions : list SessionRef) (r : ProxyRotator.t)
    (d : Dict.t ProxyMetrics.t) (w : World) :
  sessions <> [] ->
  exists s,
    turn sessions (ProxyRotator.current_index r) = Some s
    /\ ProxyRotator._round_robin_select sessions (r, d) w = (Return s, (next_index r, d), w).
Proof.
  intros Hne. unfold turn.
  assert (Hlen : (0 < List.length sessions)%nat).
  { destruct sessions; [contradiction | cbn; lia]. }
  assert (Hb : 0 <= ProxyRotator.current_index r mod Z.of_nat (List.length sessions)
               < Z.of_nat (List.length sessions)).
  { apply Z.mod_pos_bound. lia. }
  destruct (nth_error sessions _) as [s|] eqn:E.
  - exists s. split; [reflexivity|].
    unfold ProxyRotator._round_robin_select, bind, get_self. cbn [fst].
    destruct (List.length sessions =? 0)%nat eqn:E0; [apply Nat.eqb_eq in E0; lia|].
    rewrite E. reflexivity.
  - apply nth_error_None in E. lia.
Qed.

Lemma round_robin_selections_run (sessions : list SessionRef) (k : nat) :
  sessions <> [] ->
  forall (r : ProxyRotator.t) (d : Dict.t ProxyMetrics.t) (w : World),
  exists picks,
    round_robin_selections k sessions (r, d) w = (Return picks, (moved_on k r, d), w)
    /\ map Some picks
       = map (fun j => turn sessions (ProxyRotator.current_index r + Z.of_nat j)) (seq 0 k).
Proof.
  intros Hne. induction k as [|k IH]; intros r d w; cbn [round_robin_selections].
  - exists []. split; [|reflexivity].
    unfold moved_on. rewrite Z.add_0_r. destruct r. reflexivity.
  - destruct (@round_robin_select_runs sessions r d w Hne) as (s & Hs & Hrun).
    destruct (IH (next_index r) d w) as (picks & Hpicks & Hmap).
    exists (s :: picks). split.
    + unfold bind. rewrite Hrun, Hpicks. unfold ret, moved_on, next_index.
      cbn [ProxyRotator.current_index ProxyRotator.rotation_strategy
           ProxyRotator.last_rotation].
      replace (ProxyRotator.current_index r + Z.of_nat (S k))
        with (ProxyRotator.current_index r + 1 + Z.of_nat k) by lia.
      reflexivity.
    + cbn [map seq]. rewrite Z.add_0_r, Hs. f_equal.
      rewrite Hmap. rewrite <- seq_shift, map_map.
      apply map_ext. intros j. cbn [next_index ProxyRotator.current_index]. f_equal. lia.
Qed.

Lemma turns_of_a_round (sessions : list SessionRef) :
  map (fun j => turn sessions (0 + Z.of_nat j)) (seq 0 (List.length sessions))
  = map Some sessions.
Proof.
  unfold turn.
  assert (H : forall (pre l : list SessionRef),
             map (fun j => nth_error (pre ++ l)%list
                             (Z.to_nat ((0 + Z.of_nat j)
                                        mod Z.of_nat (List.length (pre ++ l)%list))))
                 (seq (List.length pre) (List.length l))
             = map Some l).
  { intros pre l. revert pre. induction l as [|x l IH]; intros pre; cbn [List.length seq map].
    - reflexivity.
    - f_equal.
      + rewrite Z.add_0_l, Z.mod_small.
        * rewrite Nat2Z.id. rewrite nth_error_app2 by lia.
          rewrite Nat.sub_diag. reflexivity.
        * rewrite length_app. cbn. lia.
      + specialize (IH (pre ++ [x])%list).
        rewrite <- app_assoc in IH. cbn [app] in IH.
        rewrite !length_app in IH. rewrite !length_app. cbn [List.length] in IH |- *.
        rewrite Nat.add_1_r in IH. exact IH. }
  apply (H [] sessions).
Qed.

(** X12.  On a non-empty list of [n] sessions, [k] round-robin selections
    in a row return, and the [j]-th of them is the session at position
    [(current_index + j) mod n]; the index is [k] higher afterwards.  From
    index 0, [n] selections hand out the list itself: each session once,
    in order. *)
Theorem round_robin_takes_turns :
  forall (sessions : list SessionRef) (k : nat) (r : ProxyRotator.t)
         (d : Dict.t ProxyMetrics.t) (w : World),
    sessions <> [] ->
    exists picks,
      round_robin_selections k sessions (r, d) w = (Return picks, (moved_on k r, d), w)
      /\ map Some picks
         = map (fun j => turn sessions (ProxyRotator.current_index r + Z.of_nat j)) (seq 0 k)
      /\ (ProxyRotator.current_index r = 0 -> k = List.length sessions -> picks = sessions).
Proof.
  intros sessions k r d w Hne.
  destruct (@round_robin_selections_run sessions k Hne r d w) as (picks & Hrun & Hmap).
  exists picks. split; [exact Hrun|]. split; [exact Hmap|].
  intros Hi Hk. subst k. rewrite Hi, turns_of_a_round in Hmap.
  revert Hmap. generalize sessions. clear.
  induction picks as [|p picks IH]; intros [|s l] H; cbn in H; try discriminate.
  - reflexivity.
  - injection H as -> H. f_equal. apply IH. exact H.
Qed.

Lemma round_robin_takes_turns_witness :
  let sessions := [("a", Examples.session); ("b", Examples.session); ("c", Examples.session)] in
  exists picks,
    round_robin_selections 3 sessions (Examples.rotator, Dict.empty) Examples.world
    = (Return picks, (moved_on 3 Examples.rotator, Dict.empty), Examples.world)
    /\ map Some picks
       = map (fun j => turn sessions (ProxyRotator.current_index Examples.rotator + Z.of_nat j))
             (seq 0 3)
    /\ (ProxyRotator.current_index Examples.rotator = 0 -> 3%nat = List.length sessions ->
        picks = sessions).
Proof.
  intros sessions. apply round_robin_takes_turns. discriminate.
Defined.

(** ** Selection never fails *)

Lemma metrics_getitem_runs (k : string) (st : ProxyRotator.St) (w : World) :
  exists m st',
    ProxyRotator.metrics_getitem k st w = (Return m, st', w)
    /\ fst st' = fst st.
Proof.
  unfold ProxyRotator.metrics_getitem, on_field, getitem_default, bind, get_self.
  destruct (Dict.get k (snd st)) as [m|]; cbn; eauto.
Qed.

Lemma is_healthy_returns {S} (m : ProxyMetrics.t) (st : S) (w : World) :
  returns (outcome_of (ProxyMetrics.is_healthy m st w)) = true.
Proof.
  unfold ProxyMetrics.is_healthy.
  destruct (Qltb _ _); [reflexivity|]. destruct (ProxyMetrics.last_success m); reflexivity.
Qed.

Lemma healthy_returns (s : SessionRef) (st : ProxyRotator.St) (w : World) :
  returns (outcome_of (ProxyRotator.healthy s st w)) = true.
Proof.
  unfold ProxyRotator.healthy, ProxySession.is_expired.
  unfold bind at 1. unfold bind at 1, now at 1, ret at 1. cbv beta iota.
  destruct (ProxySession.is_expired_at _ _); [reflexivity|].
  unfold bind at 1.
  match goal with
  | |- context [ProxyRotator.metrics_getitem ?k ?st0 ?w0] =>
      destruct (metrics_getitem_runs k st0 w0) as (m & st' & Hr & _); rewrite Hr
  end.
  apply is_healthy_returns.
Qed.

Lemma weights_of_returns (sessions : list SessionRef) :
  (forall s, In s sessions -> 0 <= ProxySession.requests_count (snd s)) ->
  forall (st : ProxyRotator.St) (w : World),
    returns (outcome_of (ProxyRotator.weights_of sessions st w)) = true.
Proof.
  induction sessions as [|s rest IH]; intros Hc st w; cbn [ProxyRotator.weights_of].
  - reflexivity.
  - unfold bind at 1.
    destruct (metrics_getitem_runs (ProxySession.session_id (snd s)) st w)
      as (m & st' & Hr & _).
    rewrite Hr. cbv zeta.
    assert (Hs : (ProxySession.requests_count (snd s) + 1 =? 0) = false).
    { apply Z.eqb_neq. specialize (Hc s (or_introl eq_refl)). lia. }
    rewrite Hs. unfold bind at 1.
    specialize (IH (fun x Hx => Hc x (or_intror Hx)) st' w).
    destruct (ProxyRotator.weights_of rest st' w) as [[[ws|e|] st2] w2];
      try discriminate.
    reflexivity.
Qed.

Lemma weighted_select_returns (sessions : list SessionRef) :
  sessions <> [] ->
  (forall s, In s sessions -> 0 <= ProxySession.requests_count (snd s)) ->
  forall (st : ProxyRotator.St) (w : World),
    returns (outcome_of (ProxyRotator._weighted_select sessions st w)) = true.
Proof.
  intros Hne Hc st w. unfold ProxyRotator._weighted_select, bind at 1.
  pose proof (@weights_of_returns sessions Hc st w) as Hw.
  destruct (ProxyRotator.weights_of sessions st w) as [[[weights|e|] st1] w1];
    try discriminate.
  cbv zeta. destruct (Qeq_bool _ _).
  - destruct sessions; [contradiction | reflexivity].
  - unfold bind, random. cbv beta iota.
    destruct (ProxyRotator.pick_weighted _ _ _ _); [reflexivity|].
    destruct (rev sessions) eqn:R; [|reflexivity].
    exfalso. apply Hne. apply (f_equal (@rev _)) in R. rewrite rev_involutive in R. exact R.
Qed.

(** The comprehension over the healthy sessions returns, keeps to the
    list, and leaves the strategy of the rotator alone. *)
Lemma healthy_sessions_run (sessions : list SessionRef) (st : ProxyRotator.St) (w : World) :
  exists hs st1 w1,
    filterM ProxyRotator.healthy sessions st w = (Return hs, st1, w1)
    /\ incl hs sessions
    /\ ProxyRotator.rotation_strategy (fst st1) = ProxyRotator.rotation_strategy (fst st).
Proof.
  pose proof (@filterM_returns _ _ ProxyRotator.healthy sessions healthy_returns st w) as Hf.
  pose proof (@filterM_incl _ _ ProxyRotator.healthy sessions st w) as Hincl.
  assert (Hk : preserves
                 (always (fun st0 : ProxyRotator.St =>
                            ProxyRotator.rotation_strategy (fst st0)
                            = ProxyRotator.rotation_strategy (fst st)))
                 (filterM ProxyRotator.healthy sessions)).
  { apply keeps_filterM. intros x. apply keeps_healthy; cbn; auto. }
  specialize (Hk st w eq_refl).
  unfold outcome_of in Hf, Hincl.
  destruct (filterM ProxyRotator.healthy sessions st w) as [[[hs|e|] st1] w1];
    try discriminate.
  exists hs, st1, w1. split; [reflexivity|]. split; [apply Hincl; reflexivity | exact Hk].
Qed.

Lemma min_requests_least_used (rest : list SessionRef) :
  forall (before : list SessionRef) (best : SessionRef) (mid : list SessionRef),
    (forall b, In b before ->
       ProxySession.requests_count (snd best) < ProxySession.requests_count (snd b)) ->
    (forall a, In a mid ->
       ProxySession.requests_count (snd best) <= ProxySession.requests_count (snd a)) ->
    least_used (ProxyRotator.min_requests best rest) (before ++ best :: mid ++ rest).
Proof.
  induction rest as [|s rest IH]; intros before best mid Hb Hm;
    cbn [ProxyRotator.min_requests].
  - exists before, mid. rewrite app_nil_r. auto.
  - destruct (Z.ltb_spec (ProxySession.requests_count (snd s))
                         (ProxySession.requests_count (snd best))) as [Hlt|Hge].
    + specialize (IH (before ++ best :: mid)%list s []).
      replace (before ++ best :: mid ++ s :: rest)%list
        with ((before ++ best :: mid) ++ s :: [] ++ rest)%list
        by (rewrite <- app_assoc; reflexivity).
      apply IH.
      * intros b Hin. apply in_app_or in Hin. destruct Hin as [Hin|[<-|Hin]].
        -- specialize (Hb b Hin). lia.
        -- exact Hlt.
        -- specialize (Hm b Hin). lia.
      * intros a [].
    + specialize (IH before best (mid ++ [s])%list).
      replace (before ++ best :: mid ++ s :: rest)%list
        with (before ++ best :: (mid ++ [s]) ++ rest)%list
        by (rewrite <- (app_assoc mid); reflexivity).
      apply IH; [exact Hb|].
      intros a Hin. apply in_app_or in Hin. destruct Hin as [Hin|[<-|[]]].
      * apply Hm. exact Hin.
      * exact Hge.
Qed.

Lemma metric_of_default (d : Dict.t ProxyMetrics.t) (k k' : string) :
  Dict.get k d = None ->
  metric_of (Dict.set k ProxyMetrics.default d) k' = metric_of d k'.
Proof.
  intros H. unfold metric_of. rewrite DictFacts.get_set.
  destruct (String.eqb_spec k' k) as [->|_]; [rewrite H|]; reflexivity.
Qed.

(** With the clock standing at [reading], the test of a session comes
    out as [healthy_at] says; it leaves the rotator alone and the metrics
    as the [defaultdict] reads them. *)
Lemma healthy_runs_frozen (reading : Z) (s : SessionRef) (r : ProxyRotator.t)
    (d : Dict.t ProxyMetrics.t) (w : World) :
  (forall i, (reads w <= i)%nat -> clock w i = reading) ->
  exists d' w',
    ProxyRotator.healthy s (r, d) w = (Return (healthy_at reading d s), (r, d'), w')
    /\ (forall k, metric_of d' k = metric_of d k)
    /\ clock w' = clock w /\ (reads w <= reads w')%nat.
Proof.
  intros Hclock.
  unfold ProxyRotator.healthy, ProxySession.is_expired, healthy_at.
  unfold bind at 1. unfold bind at 1, now at 1, ret at 1. cbv beta iota.
  rewrite (Hclock (reads w) (le_n _)).
  destruct (ProxySession.is_expired_at reading (snd s)); cbn [negb andb].
  { eexists. eexists. split; [reflexivity|]. cbn. auto. }
  unfold bind at 1, ProxyRotator.metrics_getitem, on_field, getitem_default, bind, get_self.
  cbn [snd fst]. unfold metric_of at 1.
  destruct (Dict.get (ProxySession.session_id (snd s)) d) as [m|] eqn:E; cbn [ret put_self].
  - unfold ProxyMetrics.is_healthy, ProxyMetrics.is_healthy_at.
    destruct (Qltb _ _).
    { eexists. eexists. split; [reflexivity|]. cbn. auto. }
    destruct (ProxyMetrics.last_success m).
    + unfold bind, now, ret. cbn [clock reads].
      rewrite (Hclock (S (reads w))) by lia.
      eexists. eexists. split; [reflexivity|]. cbn. auto.
    + eexists. eexists. split; [reflexivity|]. cbn. auto.
  - eexists. eexists. split; [reflexivity|]. cbn.
    split; [|auto]. intros k. apply metric_of_default. exact E.
Qed.

Lemma healthy_at_ext (reading : Z) (d d' : Dict.t ProxyMetrics.t) (s : SessionRef) :
  (forall k, metric_of d' k = metric_of d k) ->
  healthy_at reading d' s = healthy_at reading d s.
Proof. intros H. unfold healthy_at. rewrite H. reflexivity. Qed.

Lemma healthy_sessions_frozen (reading : Z) (sessions : list SessionRef) :
  forall (r : ProxyRotator.t) (d : Dict.t ProxyMetrics.t) (w : World),
    (forall i, (reads w <= i)%nat -> clock w i = reading) ->
    exists d' w',
      filterM ProxyRotator.healthy sessions (r, d) w
      = (Return (filter (healthy_at reading d) sessions), (r, d'), w')
      /\ (forall k, metric_of d' k = metric_of d k).
Proof.
  induction sessions as [|s rest IH]; intros r d w Hclock; cbn [filterM filter].
  - eexists. eexists. split; [reflexivity | auto].
  - destruct (@healthy_runs_frozen reading s r d w Hclock)
      as (d1 & w1 & Hrun & Hd1 & Hc1 & Hr1).
    unfold bind at 1. rewrite Hrun.
    destruct (IH r d1 w1) as (d2 & w2 & Hrest & Hd2).
    { intros i Hi. rewrite Hc1. apply Hclock. lia. }
    unfold bind at 1. rewrite Hrest.
    assert (Hf : filter (healthy_at reading d1) rest = filter (healthy_at reading d) rest).
    { apply filter_ext. intros x. apply healthy_at_ext. exact Hd1. }
    rewrite Hf.
    eexists. eexists. split; [reflexivity|].
    intros k. rewrite Hd2. apply Hd1.
Qed.

(** The comprehension over the healthy sessions leaves the rotator as it
    is. *)
Lemma healthy_sessions_keep_the_rotator (sessions : list SessionRef) (st : ProxyRotator.St)
    (w : World) :
  fst (state_of (filterM ProxyRotator.healthy sessions st w)) = fst st.
Proof.
  assert (Hk : preserves (always (fun st0 : ProxyRotator.St => fst st0 = fst st))
                 (filterM ProxyRotator.healthy sessions)).
  { apply keeps_filterM. intros x. apply keeps_healthy; cbn; auto. }
  specialize (Hk st w eq_refl). unfold state_of.
  destruct (filterM ProxyRotator.healthy sessions st w) as [[[hs|e|] st1] w1]; exact Hk.
Qed.

(** X13.  With a strategy other than [random] and no negative
    [requests_count], [select_next] returns: [None] for the empty list
    and otherwise one of the sessions it was given.  When the
    comprehension finds no healthy session, that is the first of the
    sessions with the least [requests_count]; otherwise it is one of the
    healthy ones: under [round_robin] the one at the rotator's index
    modulo their number, with the index moved on by one, and under a
    strategy the code does not know the first.  With the clock standing
    still, the healthy sessions are those that are not expired and whose
    metrics, as the [defaultdict] reads them, are healthy. *)
Theorem select_next_returns_one_of_the_sessions :
  forall (sessions : list SessionRef) (st : ProxyRotator.St) (w : World),
    ProxyRotator.rotation_strategy (fst st) <> "random" ->
    (forall s, In s sessions -> 0 <= ProxySession.requests_count (snd s)) ->
    exists selected st' w' healthy_sessions,
      ProxyRotator.select_next sessions st w = (Return selected, st', w')
      /\ match selected with
         | Some s => In s sessions
         | None => sessions = []
         end
      /\ outcome_of (filterM ProxyRotator.healthy sessions st w) = Return healthy_sessions
      /\ (forall reading,
            (forall i, (reads w <= i)%nat -> clock w i = reading) ->
            healthy_sessions = filter (healthy_at reading (snd st)) sessions)
      /\ match healthy_sessions with
         | [] => forall s, selected = Some s -> least_used s sessions
         | h :: _ =>
             exists s,
               selected = Some s /\ In s healthy_sessions
               /\ (ProxyRotator.rotation_strategy (fst st) = "round_robin" ->
                   turn healthy_sessions (ProxyRotator.current_index (fst st)) = Some s
                   /\ ProxyRotator.current_index (fst st')
                      = ProxyRotator.current_index (fst st) + 1)
               /\ (ProxyRotator.rotation_strategy (fst st) <> "round_robin" ->
                   ProxyRotator.rotation_strategy (fst st) <> "weighted" ->
                   s = h)
         end.
Proof.
  intros sessions st w Hstrategy Hc.
  destruct (healthy_sessions_run sessions st w) as (hs & st1 & w1 & Hf & Hincl & Hs1).
  pose proof (healthy_sessions_keep_the_rotator sessions st w) as Hrot.
  rewrite Hf in Hrot. cbn in Hrot.
  assert (Hfrozen : forall reading,
             (forall i, (reads w <= i)%nat -> clock w i = reading) ->
             hs = filter (healthy_at reading (snd st)) sessions).
  { intros reading Hclock. destruct st as [r d].
    destruct (@healthy_sessions_frozen reading sessions r d w Hclock)
      as (d' & w' & Hrun & _).
    rewrite Hrun in Hf. injection Hf as <- _ _. reflexivity. }
  assert (Hout : outcome_of (filterM ProxyRotator.healthy sessions st w) = Return hs).
  { rewrite Hf. reflexivity. }
  destruct sessions as [|first others].
  { cbn in Hf. injection Hf as <- _ _.
    exists None, st, w, []. repeat split; try assumption. intros s H. discriminate H. }
  unfold ProxyRotator.select_next. unfold bind at 1. rewrite Hf.
  destruct hs as [|h hs].
  { exists (Some (ProxyRotator.min_requests first others)), st1, w1, [].
    split; [reflexivity|]. split; [apply min_requests_In|].
    split; [reflexivity|]. split; [exact Hfrozen|].
    intros s H. injection H as <-.
    apply (@min_requests_least_used others [] first []); intros x []. }
  unfold bind at 1, get_self at 1. cbv beta iota zeta. rewrite Hs1.
  assert (Hne : h :: hs <> []) by discriminate.
  assert (Hc' : forall s, In s (h :: hs) -> 0 <= ProxySession.requests_count (snd s)).
  { intros s Hs. apply Hc. apply Hincl. exact Hs. }
  destruct (String.eqb_spec (ProxyRotator.rotation_strategy (fst st)) "round_robin")
    as [Err|Err].
  { destruct st1 as [r d]. cbn in Hrot. subst r.
    destruct (@round_robin_select_runs (h :: hs) (fst st) d w1 Hne) as (s & Hturn & Hrun).
    unfold bind. rewrite Hrun.
    exists (Some s), (next_index (fst st), d), w1, (h :: hs).
    assert (Hin : In s (h :: hs)).
    { eapply round_robin_select_In. unfold outcome_of. rewrite Hrun. reflexivity. }
    split; [reflexivity|]. split; [apply Hincl; exact Hin|].
    split; [reflexivity|]. split; [exact Hfrozen|].
    exists s. split; [reflexivity|]. split; [exact Hin|]. split.
    - intros _. split; [exact Hturn | reflexivity].
    - intros Hn. contradiction. }
  destruct (String.eqb_spec (ProxyRotator.rotation_strategy (fst st)) "weighted")
    as [Ew|Ew].
  { pose proof (@weighted_select_returns (h :: hs) Hne Hc' st1 w1) as Hw.
    pose proof (@weighted_select_In (h :: hs) st1 w1) as Hin.
    unfold bind. unfold outcome_of in Hw, Hin.
    destruct (ProxyRotator._weighted_select (h :: hs) st1 w1) as [[[s|e|] st2] w2];
      try discriminate.
    specialize (Hin s eq_refl).
    exists (Some s), st2, w2, (h :: hs).
    split; [reflexivity|]. split; [apply Hincl; exact Hin|].
    split; [reflexivity|]. split; [exact Hfrozen|].
    exists s. split; [reflexivity|]. split; [exact Hin|]. split.
    - intros Hn. contradiction.
    - intros _ Hn. contradiction. }
  destruct (String.eqb_spec (ProxyRotator.rotation_strategy (fst st)) "random");
    [contradiction|].
  exists (Some h), st1, w1, (h :: hs).
  split; [reflexivity|]. split; [apply Hincl; left; reflexivity|].
  split; [reflexivity|]. split; [exact Hfrozen|].
  exists h. split; [reflexivity|]. split; [left; reflexivity|]. split.
  - intros Hn. contradiction.
  - intros _ _. reflexivity.
Qed.

Lemma select_next_returns_one_of_the_sessions_witness :
  exists selected,
    outcome_of (ProxyRotator.select_next Examples.two_sessions
                  (Examples.rotator, Examples.all_blocked) Examples.world)
    = Return selected
    /\ outcome_of (filterM ProxyRotator.healthy Examples.two_sessions
                     (Examples.rotator, Examples.all_blocked) Examples.world)
       = Return []
    /\ selected = Some (Examples.other_session_id, Examples.other_session)
    /\ forall s, selected = Some s -> least_used s Examples.two_sessions.
Proof.
  destruct (@select_next_returns_one_of_the_sessions Examples.two_sessions
              (Examples.rotator, Examples.all_blocked) Examples.world)
    as (selected & st' & w' & hs & Hrun & _ & Hout & _ & Hmatch).
  - cbn. discriminate.
  - intros s [<-|[<-|[]]]; cbn; lia.
  - exists selected.
    assert (Hhs : hs = []).
    { assert (E : outcome_of (filterM ProxyRotator.healthy Examples.two_sessions
                                (Examples.rotator, Examples.all_blocked) Examples.world)
                  = Return []) by (vm_compute; reflexivity).
      rewrite E in Hout. injection Hout as <-. reflexivity. }
    subst hs.
    split; [rewrite Hrun; reflexivity|].
    split; [vm_compute; reflexivity|].
    split; [|exact Hmatch].
    assert (E : outcome_of (ProxyRotator.select_next Examples.two_sessions
                              (Examples.rotator, Examples.all_blocked) Examples.world)
                = Return (Some (Examples.other_session_id, Examples.other_session)))
      by (vm_compute; reflexivity).
    rewrite Hrun in E. injection E as <-. reflexivity.
Defined.

(** ** What [get_proxy] hands out *)

Lemma handed_out_same (count : Z) (pm pm' : ProxyManager.t) :
  ProxyManager.sessions pm' = ProxyManager.sessions pm ->
  ProxyManager.session_order pm' = ProxyManager.session_order pm ->
  ProxyManager.requests_since_rotation pm' = ProxyManager.requests_since_rotation pm ->
  handed_out count pm -> handed_out count pm'.
Proof.
  intros Es Eo Er [Hp Hc]. split; [|congruence].
  eapply pool_kept_same; [exact Es | exact Eo | exact Hp].
Qed.

Lemma pool_kept_without_session (k : string) (pm : ProxyManager.t) :
  pool_kept pm -> pool_kept (without_session k pm).
Proof.
  intros H. unfold without_session.
  apply pool_kept_without with (pm := pm); [reflexivity | | exact H].
  intros key session Hget. cbn in Hget. rewrite DictFacts.get_del in Hget.
  destruct (String.eqb_spec key k); [discriminate | auto].
Qed.

Lemma pool_kept_with_session (k : string) (config : BrightdataConfig.t) (c l : Z)
    (pm : ProxyManager.t) :
  pool_kept pm -> pool_kept (with_session (ProxySession.new k config c l) pm).
Proof.
  intros H key session Hget.
  unfold with_session in *. cbn in Hget |- *. rewrite DictFacts.get_set in Hget.
  unfold pooled. cbn.
  destruct (String.eqb_spec key k) as [->|Hne].
  - injection Hget as <-. cbn. repeat split; try lia.
    apply in_or_app. right. left. reflexivity.
  - destruct (H _ _ Hget) as (H1 & H2 & H3).
    split; [exact H1|]. split; [|exact H3]. apply in_or_app. left. exact H2.
Qed.

Lemma requests_since_rotation_without_order (k : string) (pm : ProxyManager.t) :
  ProxyManager.requests_since_rotation (without_order k pm)
  = ProxyManager.requests_since_rotation pm.
Proof. unfold without_order. destruct (ProxyManager.list_mem _ _); reflexivity. Qed.

Lemma hoare_get_self_keeps {S} (I : S -> Prop) E :
  hoare (always I) get_self (fun _ => always I) E.
Proof. intros s w H. exact H. Qed.

(** X14.  On a pool that is in order, when [get_proxy] returns a proxy the
    meta data name a session that is in the pool afterwards, with the
    [requests_count] and [created_at] reported, a count between 1 and
    [max_requests], and the proxy URL of its configuration; and
    [requests_since_rotation] is one higher.  When it returns [None],
    [requests_since_rotation] is as before. *)
Theorem get_proxy_hands_out_a_pooled_session :
  forall (session_config : BrightdataConfig.t -> string -> Result BrightdataConfig.t)
         (fuel : nat) (pm : ProxyManager.t) (w : World),
    pool_kept pm ->
    match ProxyManager.get_proxy session_config fuel pm w with
    | (Return (Some (proxy_url, meta)), pm', _) =>
        exists session,
          Dict.get (ProxyManager.proxy_session_id meta) (ProxyManager.sessions pm')
          = Some session
          /\ ProxySession.session_id session = ProxyManager.proxy_session_id meta
          /\ ProxySession.requests_count session = ProxyManager.proxy_requests_count meta
          /\ ProxySession.created_at session = ProxyManager.proxy_created_at meta
          /\ proxy_url = BrightdataConfig.proxy_url (ProxySession.config session)
          /\ 1 <= ProxySession.requests_count session <= ProxySession.max_requests session
          /\ ProxyManager.requests_since_rotation pm'
             = ProxyManager.requests_since_rotation pm + 1
    | (Return None, pm', _) =>
        ProxyManager.requests_since_rotation pm' = ProxyManager.requests_since_rotation pm
    | _ => True
    end.
Proof.
  intros sc fuel pm w Hpool.
  set (count := ProxyManager.requests_since_rotation pm).
  set (Q := fun (res : option (string * ProxyManager.ProxyMeta)) (pm' : ProxyManager.t)
                (_ : World) =>
              match res with
              | Some (proxy_url, meta) =>
                  exists session,
                    Dict.get (ProxyManager.proxy_session_id meta) (ProxyManager.sessions pm')
                    = Some session
                    /\ ProxySession.session_id session = ProxyManager.proxy_session_id meta
                    /\ ProxySession.requests_count session
                       = ProxyManager.proxy_requests_count meta
                    /\ ProxySession.created_at session = ProxyManager.proxy_created_at meta
                    /\ proxy_url = BrightdataConfig.proxy_url (ProxySession.config session)
                    /\ 1 <= ProxySession.requests_count session
                         <= ProxySession.max_requests session
                    /\ ProxyManager.requests_since_rotation pm' = count + 1
              | None => ProxyManager.requests_since_rotation pm' = count
              end).
  assert (H : hoare (always (handed_out count)) (ProxyManager.get_proxy sc fuel) Q
                (fun _ _ => True)).
  { unfold ProxyManager.get_proxy.
    eapply hoare_bind with (R := fun _ => always (handed_out count)).
    { apply hoare_get_self_keeps. }
    intros self0.
    destruct (negb _); [apply hoare_ret; intros s w0 [_ Hc]; exact Hc|].
    eapply hoare_bind with (R := fun _ => always (handed_out count)).
    { eapply hoare_conseq; [apply (@keeps_cleanup_expired (handed_out count)) | auto | auto | auto].
      - intros pm0 k [Hp Hc]. split; [apply pool_kept_without_session; exact Hp|].
        unfold without_session. rewrite requests_since_rotation_without_order. exact Hc.
      - intros pm0 ks Hh. eapply handed_out_same; [| | |exact Hh]; reflexivity. }
    intros _.
    eapply hoare_bind with (R := fun _ => always (handed_out count)).
    { eapply hoare_conseq;
        [apply (@keeps_ensure_sessions (handed_out count)) | auto | auto | auto].
      intros pm0 k config c l [Hp Hc]. split; [apply pool_kept_with_session; exact Hp|].
      exact Hc. }
    intros _.
    intros pm0 w0 [Hp Hc].
    unfold bind at 1, get_self at 1. cbv beta iota.
    unfold bind at 1.
    pose proof (@active_sessions_have_requests_left _
                  (Dict.items (ProxyManager.sessions pm0)) pm0 w0) as Hact.
    revert Hact.
    match goal with
    | |- context [@filterM ?S ?A ?p ?xs pm0 w0] =>
        destruct (@filterM S A p xs pm0 w0) as [[[active|e|] pm1] w1]
    end; intros Hact; try exact I.
    destruct Hact as [-> Hact].
    destruct active as [|a0 active]; [exact Hc|].
    unfold bind at 1.
    unfold ProxyManager.with_rotator_and_metrics, on_field.
    pose proof (@keeps_select_next
                  (fun st => handed_out count (with_rotator_state st pm0))) as Hsel.
    specialize (Hsel
      (fun r d k Hj _ =>
         @handed_out_same count (with_rotator_state (r, d) pm0)
           (with_rotator_state (r, Dict.set k ProxyMetrics.default d) pm0)
           eq_refl eq_refl eq_refl Hj)
      (fun r d Hj =>
         @handed_out_same count (with_rotator_state (r, d) pm0)
           (with_rotator_state (next_index r, d) pm0)
           eq_refl eq_refl eq_refl Hj)
      (a0 :: active) (ProxyManager.rotator pm0, ProxyManager.metrics pm0) w1).
    unfold always in Hsel. rewrite with_rotator_state_same in Hsel.
    specialize (Hsel (conj Hp Hc)).
    pose proof (@select_next_In (a0 :: active)
                  (ProxyManager.rotator pm0, ProxyManager.metrics pm0) w1) as Hin.
    unfold outcome_of in Hin.
    destruct (ProxyRotator.select_next (a0 :: active)
                (ProxyManager.rotator pm0, ProxyManager.metrics pm0) w1)
      as [[[selected|e|] st'] w2]; cbn [fst snd] in *; try exact I.
    fold (with_rotator_state st' pm0).
    destruct selected as [[key session]|]; [|apply Hsel].
    specialize (Hin (key, session) eq_refl).
    rewrite Forall_forall in Hact. destruct (Hact _ Hin) as [Hitem Hleft]. cbn in Hleft.
    apply DictFacts.In_items in Hitem.
    destruct Hsel as [Hp' Hc'].
    destruct (Hp' key session Hitem) as (Hid & _ & _ & _ & Hcount).
    cbn. exists (used_session session (clock w2 (reads w2))).
    cbn. rewrite Hid. rewrite DictFacts.get_set, String.eqb_refl.
    cbn in Hc'.
    repeat split; try lia.
    unfold used_session. rewrite Hid. reflexivity. }
  specialize (H pm w (conj Hpool eq_refl)).
  destruct (ProxyManager.get_proxy sc fuel pm w) as [[[res|e|] pm'] w']; try exact I.
  destruct res as [[url meta]|]; exact H.
Qed.

Lemma get_proxy_hands_out_a_pooled_session_witness :
  match ProxyManager.get_proxy ProxyManager.session_config_call 1 Examples.manager
          Examples.world with
  | (Return (Some (proxy_url, meta)), pm', _) =>
      exists session,
        Dict.get (ProxyManager.proxy_session_id meta) (ProxyManager.sessions pm')
        = Some session
        /\ ProxySession.session_id session = ProxyManager.proxy_session_id meta
        /\ ProxySession.requests_count session = ProxyManager.proxy_requests_count meta
        /\ ProxySession.created_at session = ProxyManager.proxy_created_at meta
        /\ proxy_url = BrightdataConfig.proxy_url (ProxySession.config session)
        /\ 1 <= ProxySession.requests_count session <= ProxySession.max_requests session
        /\ ProxyManager.requests_since_rotation pm'
           = ProxyManager.requests_since_rotation Examples.manager + 1
  | (Return None, pm', _) =>
      ProxyManager.requests_since_rotation pm'
      = ProxyManager.requests_since_rotation Examples.manager
  | _ => True
  end.
Proof.
  apply get_proxy_hands_out_a_pooled_session.
  intros key session H. cbn in H.
  destruct (key =? Examples.session_id)%string eqn:E; [|discriminate].
  apply String.eqb_eq in E. subst key. injection H as <-.
  unfold pooled. cbn. repeat split; auto; lia.
Defined.

(** ** What [_cleanup_expired] removes *)

Lemma after_readings_0 (w : World) : after_readings 0 w = w.
Proof. unfold after_readings. rewrite Nat.add_0_r. destruct w. reflexivity. Qed.

Lemma after_readings_S (k : nat) (w : World) :
  after_readings k (after_reading w) = after_readings (S k) w.
Proof. unfold after_readings, after_reading. cbn. f_equal. lia. Qed.

(** With the clock at [now] for as many readings as there are sessions,
    the first comprehension of [_cleanup_expired] keeps the sessions that
    are expired at [now]. *)
Lemma expired_sessions_at {S} (reading : Z) (xs : list SessionRef) (st : S) (w : World) :
  (forall i, (reads w <= i < reads w + List.length xs)%nat -> clock w i = reading) ->
  filterM (fun it : string * ProxySession.t => ProxySession.is_expired (snd it)) xs st w
  = (Return (filter (fun it => ProxySession.is_expired_at reading (snd it)) xs), st,
     after_readings (List.length xs) w).
Proof.
  revert w. induction xs as [|x xs IH]; intros w Hclock; cbn [filterM filter List.length].
  - rewrite after_readings_0. reflexivity.
  - unfold bind at 1.
    change (ProxySession.is_expired (snd x) st w)
      with (Return (ProxySession.is_expired_at (clock w (reads w)) (snd x)), st,
            after_reading w).
    cbv beta iota. unfold bind at 1.
    rewrite (Hclock (reads w)) by (cbn; lia).
    rewrite (IH (after_reading w)).
    + cbn [ret]. cbv beta iota. rewrite after_readings_S.
      destruct (ProxySession.is_expired_at reading (snd x)); reflexivity.
    + intros i Hi. cbn in Hi |- *. apply Hclock. cbn. lia.
Qed.

Lemma fold_without_session (ks : list string) (pm : ProxyManager.t) :
  ProxyManager.sessions (fold_left (fun st k => without_session k st) ks pm)
  = fold_left (fun d k => Dict.del k d) ks (ProxyManager.sessions pm)
  /\ ProxyManager.blacklisted_sessions (fold_left (fun st k => without_session k st) ks pm)
     = ProxyManager.blacklisted_sessions pm
  /\ ProxyManager.blacklist_duration (fold_left (fun st k => without_session k st) ks pm)
     = ProxyManager.blacklist_duration pm
  /\ ProxyManager.metrics (fold_left (fun st k => without_session k st) ks pm)
     = ProxyManager.metrics pm.
Proof.
  revert pm. induction ks as [|k ks IH]; intros pm; cbn [fold_left].
  - repeat split.
  - destruct (IH (without_session k pm)) as (H1 & H2 & H3 & H4).
    rewrite H1, H2, H3, H4. unfold without_session, without_order.
    destruct (ProxyManager.list_mem _ _); repeat split.
Qed.
(** X15.  When the clock reads [reading] throughout the call,
    [_cleanup_expired] returns after one reading per session and one
    more, and leaves in the pool exactly the sessions that are not
    expired at [reading], and on the blacklist exactly the entries that
    are not older than [blacklist_duration].  The metrics are untouched. *)
Theorem cleanup_removes_what_is_expired :
  forall (pm : ProxyManager.t) (w : World) (reading : Z),
    (forall i, (reads w <= i <= reads w + Dict.len (ProxyManager.sessions pm))%nat ->
               clock w i = reading) ->
    exists pm',
      ProxyManager._cleanup_expired pm w
      = (Return tt, pm', after_readings (S (Dict.len (ProxyManager.sessions pm))) w)
      /\ (forall session_id,
            Dict.get session_id (ProxyManager.sessions pm')
            = match Dict.get session_id (ProxyManager.sessions pm) with
              | Some session =>
                  if ProxySession.is_expired_at reading session then None else Some session
              | None => None
              end)
      /\ (forall session_id,
            Dict.get session_id (ProxyManager.blacklisted_sessions pm')
            = match Dict.get session_id (ProxyManager.blacklisted_sessions pm) with
              | Some blacklisted_at =>
                  if ProxyManager.blacklist_duration pm <? reading - blacklisted_at
                  then None else Some blacklisted_at
              | None => None
              end)
      /\ ProxyManager.metrics pm' = ProxyManager.metrics pm.
Proof.
  intros pm w reading Hclock.
  unfold ProxyManager._cleanup_expired.
  unfold bind at 1, get_self at 1. cbv beta iota.
  unfold bind at 1.
  rewrite (@expired_sessions_at _ reading (Dict.items (ProxyManager.sessions pm)) pm w).
  2: { intros i Hi. apply Hclock. unfold Dict.len. unfold SessionRef in *. lia. }
  cbv beta iota. unfold bind at 1.
  rewrite (forM_modify _ without_session).
  cbv beta iota. unfold bind at 1, now at 1. cbv beta iota.
  unfold bind at 1, get_self at 1. cbv beta iota zeta.
  rewrite (forM_modify _
    (fun session_id self =>
       ProxyManager.set_blacklisted_sessions
         (Dict.del session_id (ProxyManager.blacklisted_sessions self)) self)).
  rewrite fold_unblacklist.
  set (expired := map fst (filter (fun it : string * ProxySession.t =>
                                     ProxySession.is_expired_at reading (snd it))
                                  (Dict.items (ProxyManager.sessions pm)))).
  destruct (fold_without_session expired pm) as (Hs & Hb & Hd & Hm).
  eexists. split.
  { unfold after_reading, after_readings. cbn. unfold Dict.len.
    rewrite Nat.add_succ_r. reflexivity. }
  cbn [ProxyManager.sessions ProxyManager.blacklisted_sessions ProxyManager.metrics
       ProxyManager.set_blacklisted_sessions].
  split; [|split].
  - intros session_id. rewrite Hs, get_fold_del. unfold expired.
    rewrite (existsb_keys_of_filter session_id
               (fun it : string * ProxySession.t => ProxySession.is_expired_at reading (snd it))).
    destruct (Dict.get session_id (ProxyManager.sessions pm)) as [session|]; [|reflexivity].
    cbn [snd]. destruct (ProxySession.is_expired_at reading session); reflexivity.
  - intros session_id. unfold without_keys. rewrite get_fold_del, Hb, Hd.
    cbn [clock reads after_readings].
    match goal with
    | |- context [clock w ?i] =>
        replace (clock w i) with reading
          by (symmetry; apply Hclock; unfold Dict.len, SessionRef in *; lia)
    end.
    rewrite (existsb_keys_of_filter session_id
               (fun it : string * Z => ProxyManager.blacklist_duration pm <? reading - snd it)).
    destruct (Dict.get session_id (ProxyManager.blacklisted_sessions pm)) as [at'|];
      [|reflexivity].
    cbn [snd]. destruct (_ <? _); reflexivity.
  - exact Hm.
Qed.

Lemma cleanup_removes_what_is_expired_witness :
  let reading := Examples.t0 + 2 * 3600 * microseconds_per_second in
  let w := Examples.frozen_world reading in
  let pm := Examples.manager in
  exists pm',
    ProxyManager._cleanup_expired pm w
    = (Return tt, pm', after_readings (S (Dict.len (ProxyManager.sessions pm))) w)
    /\ (forall session_id,
          Dict.get session_id (ProxyManager.sessions pm')
          = match Dict.get session_id (ProxyManager.sessions pm) with
            | Some session =>
                if ProxySession.is_expired_at reading session then None else Some session
            | None => None
            end)
    /\ (forall session_id,
          Dict.get session_id (ProxyManager.blacklisted_sessions pm')
          = match Dict.get session_id (ProxyManager.blacklisted_sessions pm) with
            | Some blacklisted_at =>
                if ProxyManager.blacklist_duration pm <? reading - blacklisted_at
                then None else Some blacklisted_at
            | None => None
            end)
    /\ ProxyManager.metrics pm' = ProxyManager.metrics pm.
Proof.
  intros reading w pm. apply cleanup_removes_what_is_expired.
  intros i _. reflexivity.
Defined.

(** ** What the constructor call costs *)

(** With the constructor call as [_ensure_sessions] makes it, a manager
    without sessions is left as it is by [get_proxy], which hands out no
    proxy either. *)
Lemma get_proxy_creates_nothing (fuel : nat) (pm : ProxyManager.t) (w : World) :
  nothing_pooled pm ->
  exists o w',
    ProxyManager.get_proxy ProxyManager.session_config_call fuel pm w = (o, pm, w')
    /\ forall proxy, o <> Return (Some proxy).
Proof.
  destruct pm as [cm ms ri ss so me ro rs bl bd]. unfold nothing_pooled.
  cbn [ProxyManager.sessions ProxyManager.metrics ProxyManager.blacklisted_sessions].
  intros (-> & -> & ->).
  unfold ProxyManager.get_proxy, bind at 1, get_self at 1.
  cbn [ProxyManager.config_manager].
  destruct (BrightdataConfigManager.is_enabled cm); cbn [negb].
  2: { eexists. eexists. split; [reflexivity | intros proxy H; discriminate H]. }
  unfold ProxyManager._cleanup_expired, ProxyManager._ensure_sessions.
  unfold bind, get_self, now, modify.
  cbn -[Z.ltb timedelta_minutes ProxyManager.ensure_loop].
  destruct (BrightdataConfigManager.get_config cm) as [config|].
  - cbn -[Z.ltb timedelta_minutes ProxyManager.ensure_loop].
    destruct fuel as [|fuel].
    + rewrite ensure_loop_out_of_fuel. cbn [ProxyManager.max_sessions].
      destruct (0 <? ms); cbn; eexists; eexists;
        (split; [reflexivity | intros proxy H; discriminate H]).
    + rewrite ensure_loop_step. cbn [ProxyManager.max_sessions].
      destruct (0 <? ms); cbn; eexists; eexists;
        (split; [reflexivity | intros proxy H; discriminate H]).
  - cbn. eexists. eexists. split; [reflexivity | intros proxy H; discriminate H].
Qed.

Lemma ensure_sessions_creates_nothing (fuel : nat) (pm : ProxyManager.t) (w : World) :
  nothing_pooled pm ->
  state_of (ProxyManager._ensure_sessions ProxyManager.session_config_call fuel pm w) = pm.
Proof.
  destruct pm as [cm ms ri ss so me ro rs bl bd]. unfold nothing_pooled.
  cbn [ProxyManager.sessions ProxyManager.metrics ProxyManager.blacklisted_sessions].
  intros (-> & -> & ->).
  unfold ProxyManager._ensure_sessions, bind, get_self.
  cbn -[Z.ltb ProxyManager.ensure_loop].
  destruct (BrightdataConfigManager.get_config cm) as [config|]; [|reflexivity].
  cbn -[Z.ltb ProxyManager.ensure_loop].
  destruct fuel as [|fuel].
  - rewrite ensure_loop_out_of_fuel. cbn [ProxyManager.max_sessions].
    destruct (0 <? ms); reflexivity.
  - rewrite ensure_loop_step. cbn [ProxyManager.max_sessions].
    destruct (0 <? ms); reflexivity.
Qed.

Lemma cleanup_expired_of_nothing (pm : ProxyManager.t) (w : World) :
  nothing_pooled pm ->
  state_of (ProxyManager._cleanup_expired pm w) = pm.
Proof.
  destruct pm as [cm ms ri ss so me ro rs bl bd]. unfold nothing_pooled.
  cbn [ProxyManager.sessions ProxyManager.metrics ProxyManager.blacklisted_sessions].
  intros (-> & -> & ->). reflexivity.
Qed.

Lemma get_stats_of_nothing (pm : ProxyManager.t) (w : World) :
  nothing_pooled pm ->
  state_of (ProxyManager.get_stats pm w) = pm.
Proof.
  destruct pm as [cm ms ri ss so me ro rs bl bd]. unfold nothing_pooled.
  cbn [ProxyManager.sessions ProxyManager.metrics ProxyManager.blacklisted_sessions].
  intros (-> & -> & ->). reflexivity.
Qed.

Lemma call_creates_nothing (op : ProxyManager.Op) (pm : ProxyManager.t) (w : World) :
  nothing_pooled pm ->
  (forall session_id, op <> ProxyManager.BlacklistSession session_id) ->
  state_of (ProxyManager.call ProxyManager.session_config_call op pm w) = pm.
Proof.
  intros Hpm Hop. destruct op as [fuel|k rt|k e| |fuel| |k]; cbn [ProxyManager.call].
  - destruct (@get_proxy_creates_nothing fuel pm w Hpm) as (o & w' & Hr & _).
    unfold bind. rewrite Hr. destruct o; reflexivity.
  - destruct Hpm as (_ & Hm & _).
    unfold ProxyManager.record_success, bind, get_self. rewrite Hm. reflexivity.
  - destruct Hpm as (_ & Hm & _).
    unfold ProxyManager.record_failure, bind, get_self. rewrite Hm. reflexivity.
  - pose proof (@get_stats_of_nothing pm w Hpm) as H. unfold bind, state_of in *.
    destruct (ProxyManager.get_stats pm w) as [[[a|e|] pm'] w']; exact H.
  - apply ensure_sessions_creates_nothing. exact Hpm.
  - apply cleanup_expired_of_nothing. exact Hpm.
  - exfalso. apply (Hop k). reflexivity.
Qed.

(** X26.  With the constructor call as the code makes it, a manager that
    has no session, no metrics entry and nothing blacklisted is left as
    it is by every sequence of calls other than a direct
    [_blacklist_session]: no session is created, nothing is recorded,
    nothing is blacklisted, and [get_proxy] hands out no proxy. *)
Theorem nothing_is_ever_created :
  forall (ops : list ProxyManager.Op) (pm : ProxyManager.t) (w : World),
    nothing_pooled pm ->
    (forall session_id, ~ In (ProxyManager.BlacklistSession session_id) ops) ->
    let after := ProxyManager.calls ProxyManager.session_config_call ops pm w in
    fst after = pm
    /\ forall fuel proxy,
         outcome_of (ProxyManager.get_proxy ProxyManager.session_config_call fuel
                       (fst after) (snd after))
         <> Return (Some proxy).
Proof.
  intros ops pm w Hpm Hops after.
  assert (Hsame : fst after = pm).
  { subst after. revert w. induction ops as [|op ops IH]; intros w; [reflexivity|].
    cbn [ProxyManager.calls]. cbv zeta.
    rewrite call_creates_nothing.
    - apply IH. intros k Hk. apply (Hops k). right. exact Hk.
    - exact Hpm.
    - intros k ->. apply (Hops k). left. reflexivity. }
  split; [exact Hsame|].
  intros fuel proxy. rewrite Hsame.
  destruct (@get_proxy_creates_nothing fuel pm (snd after) Hpm) as (o & w' & Hr & Ho).
  rewrite Hr. apply Ho.
Qed.

Lemma nothing_is_ever_created_witness :
  let ops := [ProxyManager.GetProxy 1;
              ProxyManager.RecordFailure Examples.session_id "blocked";
              ProxyManager.GetStats; ProxyManager.GetProxy 1] in
  let after := ProxyManager.calls ProxyManager.session_config_call ops
                 Examples.new_manager Examples.world in
  outcome_of (ProxyManager.__init__ Examples.config_manager 5 10 tt Examples.world)
  = Return Examples.new_manager
  /\ fst after = Examples.new_manager
  /\ forall fuel proxy,
       outcome_of (ProxyManager.get_proxy ProxyManager.session_config_call fuel
                     (fst after) (snd after))
       <> Return (Some proxy).
Proof.
  cbv zeta. split; [reflexivity|].
  apply (@nothing_is_ever_created
           [ProxyManager.GetProxy 1; ProxyManager.RecordFailure Examples.session_id "blocked";
            ProxyManager.GetStats; ProxyManager.GetProxy 1]
           Examples.new_manager Examples.world).
  - repeat split.
  - intros k [H|[H|[H|[H|[]]]]]; discriminate H.
Defined.

(** ** Starting the middleware *)

(** X16.  The constructor of the middleware, after the configuration is
    loaded from the environment, either raises [NotConfigured] or returns
    an enabled middleware with an empty pool, no metrics and nothing
    blacklisted; it returns exactly when [USE_PROXIES] is [true] and the
    environment is complete. *)
Theorem middleware_starts_iff_configured :
  forall (env : BrightdataConfig.t) (use_proxies : string)
         (max_sessions rotation_interval timeout max_retries : Z) (w : World),
    let cm := BrightdataConfigManager.__init__ env use_proxies in
    let complete :=
      BrightdataConfigManager.lower use_proxies = "true"
      /\ BrightdataConfig.username env <> ""
      /\ BrightdataConfig.password env <> ""
      /\ BrightdataConfig.endpoint env <> ""
      /\ BrightdataConfig.port env <> 0
      /\ BrightdataConfig.zone env <> "" in
    match outcome_of (Middleware.__init__ cm max_sessions rotation_interval timeout
                        max_retries tt w) with
    | Return mw =>
        complete
        /\ Middleware.enabled mw = true
        /\ Middleware.max_retries mw = max_retries
        /\ ProxyManager.sessions (Middleware.proxy_manager mw) = Dict.empty
        /\ ProxyManager.metrics (Middleware.proxy_manager mw) = Dict.empty
        /\ ProxyManager.blacklisted_sessions (Middleware.proxy_manager mw) = Dict.empty
        /\ ProxyManager.max_sessions (Middleware.proxy_manager mw) = max_sessions
    | Raise e => e = NotConfigured /\ ~ complete
    | OutOfFuel => False
    end.
Proof.
  intros env use_proxies max_sessions rotation_interval timeout max_retries w cm complete.
  pose proof (is_enabled_after_init env use_proxies) as H. fold cm in H. fold complete in H.
  unfold Middleware.__init__, ProxyManager.__init__, ProxyRotator.__init__, bind, now, ret,
    outcome_of.
  cbn -[BrightdataConfigManager.is_enabled cm].
  destruct (BrightdataConfigManager.is_enabled cm); cbn.
  - split; [apply H; reflexivity|]. repeat split.
  - split; [reflexivity|]. intros Hc. apply H in Hc. discriminate.
Qed.

(** ** Indexing by the hash of the session id *)

Lemma nth_error_mod {A} (l : list A) (h : Z) :
  l <> [] ->
  exists x, nth_error l (Z.to_nat (h mod Z.of_nat (List.length l))) = Some x /\ In x l.
Proof.
  intros Hl.
  assert (Hlen : (0 < List.length l)%nat).
  { destruct l; [contradiction | cbn; lia]. }
  assert (Hb : 0 <= h mod Z.of_nat (List.length l) < Z.of_nat (List.length l)).
  { apply Z.mod_pos_bound. lia. }
  destruct (nth_error l (Z.to_nat (h mod Z.of_nat (List.length l)))) as [x|] eqn:E.
  - exists x. split; [reflexivity|]. eapply nth_error_In. exact E.
  - apply nth_error_None in E. lia.
Qed.

(** X17.  With a non-empty list of user agents,
    [_get_rotated_user_agent] returns one of them whatever the hash of the
    session id is, negative ones included, and changes nothing. *)
Theorem get_rotated_user_agent_never_fails :
  forall (session_id : string) (mw : Middleware.t) (w : World),
    Middleware.user_agents mw <> [] ->
    exists user_agent,
      Middleware._get_rotated_user_agent session_id mw w = (Return user_agent, mw, w)
      /\ In user_agent (Middleware.user_agents mw).
Proof.
  intros session_id mw w Hne.
  destruct (@nth_error_mod _ (Middleware.user_agents mw) (str_hash w session_id) Hne)
    as (ua & Hnth & Hin).
  exists ua. split; [|exact Hin].
  unfold Middleware._get_rotated_user_agent, bind, get_self, hash.
  destruct (List.length (Middleware.user_agents mw) =? 0)%nat eqn:E.
  - apply Nat.eqb_eq in E. destruct (Middleware.user_agents mw); [contradiction | discriminate].
  - rewrite Hnth. reflexivity.
Qed.

Lemma get_rotated_user_agent_never_fails_witness :
  exists user_agent,
    Middleware._get_rotated_user_agent Examples.session_id Examples.middleware
      Examples.world_with_negative_hash
    = (Return user_agent, Examples.middleware, Examples.world_with_negative_hash)
    /\ In user_agent (Middleware.user_agents Examples.middleware).
Proof.
  apply get_rotated_user_agent_never_fails. discriminate.
Defined.

(** ** Requests that go without a proxy *)

Lemma prefix_spec (p s : string) :
  String.prefix p s = true <-> exists b, s = p ++ b.
Proof.
  revert s. induction p as [|c p IH]; intros s.
  - destruct s; cbn; (split; [intros _; eexists; reflexivity | reflexivity]).
  - destruct s as [|c' s]; cbn.
    + split; [discriminate | intros [b H]; discriminate].
    + destruct (Ascii.ascii_dec c c') as [E|E].
      * subst c'. rewrite IH. split; intros [b H]; exists b; congruence.
      * split; [discriminate | intros [b H]; congruence].
Qed.

Lemma contains_spec (p s : string) :
  contains p s = true <-> exists a b, s = a ++ p ++ b.
Proof.
  induction s as [|c s IH]; cbn [contains].
  - rewrite orb_false_r, prefix_spec. split.
    + intros [b H]. exists "", b. exact H.
    + intros (a & b & H). destruct a as [|c a]; [|discriminate]. exists b. exact H.
  - rewrite orb_true_iff, prefix_spec, IH. split.
    + intros [[b H]|(a & b & H)].
      * exists "", b. exact H.
      * exists (String c a), b. cbn. congruence.
    + intros (a & b & H). destruct a as [|c' a].
      * left. exists b. exact H.
      * right. cbn in H. injection H as _ H. exists a, b. exact H.
Qed.

(** X18.  A request goes without a proxy exactly when its lower-cased URL
    contains [/robots.txt], [/favicon.ico] or [/sitemap] somewhere, or
    its meta entry [skip_brightdata_proxy] is truthy. *)
Theorem should_skip_request_iff :
  forall request : Request.t,
    Middleware._should_skip_request request = true
    <-> ((exists pattern before after,
            In pattern ["/robots.txt"; "/favicon.ico"; "/sitemap"]
            /\ BrightdataConfigManager.lower (Request.url request)
               = before ++ pattern ++ after)
         \/ truthy (Request.meta_get "skip_brightdata_proxy" VNone request) = true).
Proof.
  intros request. unfold Middleware._should_skip_request.
  destruct (existsb _ _) eqn:E.
  - split; [|reflexivity]. intros _. left.
    apply existsb_exists in E. destruct E as (pattern & Hin & Hc).
    apply contains_spec in Hc. destruct Hc as (a & b & Hc). exists pattern, a, b. auto.
  - assert (Hno : ~ exists pattern before after,
               In pattern ["/robots.txt"; "/favicon.ico"; "/sitemap"]
               /\ BrightdataConfigManager.lower (Request.url request)
                  = before ++ pattern ++ after).
    { intros (pattern & a & b & Hin & Hc).
      assert (Ht : existsb (fun pattern =>
                     contains pattern (BrightdataConfigManager.lower (Request.url request)))
                     ["/robots.txt"; "/favicon.ico"; "/sitemap"] = true).
      { apply existsb_exists. exists pattern. split; [exact Hin|].
        apply contains_spec. exists a, b. exact Hc. }
      rewrite Ht in E. discriminate. }
    destruct (truthy _); split; auto; intros [H|H]; [contradiction | discriminate].
Qed.

(** ** What [process_request] changes in a request *)

(** X19.  Whenever [process_request] returns, it returns [None], and the
    request has the URL it came with, the meta entries it came with except
    for the six keys the hook sets, and the headers it came with except
    for [User-Agent]; a request that brings a [User-Agent] keeps all its
    headers. *)
Theorem process_request_touches_only_its_own_entries :
  forall (session_config : BrightdataConfig.t -> string -> Result BrightdataConfig.t)
         (fuel : nat) (mw : Middleware.t) (w : World) (request out : Request.t)
         (res : HookResult),
    outcome_of (Middleware.process_request session_config fuel request mw w)
    = Return (res, out) ->
    res = Nothing
    /\ Request.url out = Request.url request
    /\ (forall key,
          ~ In key ["proxy"; "proxy_session_id"; "proxy_created_at"; "proxy_requests_count";
                    "brightdata_enabled"; "request_start_time"] ->
          Dict.get key (Request.meta out) = Dict.get key (Request.meta request))
    /\ (forall header, header <> "User-Agent" ->
          Dict.get header (Request.headers out) = Dict.get header (Request.headers request))
    /\ (Dict.mem "User-Agent" (Request.headers request) = true ->
        Request.headers out = Request.headers request).
Proof.
  intros sc fuel mw w request out res H.
  assert (Hsame : forall (s0 : Middleware.t) (w0 : World),
             outcome_of (ret (Nothing, request) s0 w0) = Return (res, out) ->
             res = Nothing
             /\ Request.url out = Request.url request
             /\ (forall key,
                   ~ In key ["proxy"; "proxy_session_id"; "proxy_created_at";
                             "proxy_requests_count"; "brightdata_enabled";
                             "request_start_time"] ->
                   Dict.get key (Request.meta out) = Dict.get key (Request.meta request))
             /\ (forall header, header <> "User-Agent" ->
                   Dict.get header (Request.headers out)
                   = Dict.get header (Request.headers request))
             /\ (Dict.mem "User-Agent" (Request.headers request) = true ->
                 Request.headers out = Request.headers request)).
  { intros s0 w0 E. injection E as <- <-. repeat split. }
  unfold Middleware.process_request in H.
  apply bind_Return_inv in H. destruct H as (self & s0 & w0 & Hself & H).
  injection Hself as <- <- <-.
  destruct (negb (Middleware.enabled mw)); [eapply Hsame; exact H|].
  destruct (truthy _); [eapply Hsame; exact H|].
  destruct (Middleware._should_skip_request request); [eapply Hsame; exact H|].
  apply bind_Return_inv in H. destruct H as (proxy_info & mw1 & w1 & Hgp & H).
  destruct proxy_info as [[proxy_url proxy_meta]|]; [|eapply Hsame; exact H].
  cbv zeta in H.
  apply bind_Return_inv in H. destruct H as (started & mw2 & w2 & Hnow & H).
  injection Hnow as <- <- <-.
  cbn [Request.headers Request.set_meta Request.set_headers] in H.
  assert (Hmeta : forall key,
             ~ In key ["proxy"; "proxy_session_id"; "proxy_created_at";
                       "proxy_requests_count"; "brightdata_enabled"; "request_start_time"] ->
             Dict.get key
               (Dict.set "request_start_time" (VFloat (clock w1 (reads w1)))
                  (Dict.set "brightdata_enabled" (VBool true)
                     (Dict.update (Dict.set "proxy" (VStr proxy_url) (Request.meta request))
                        (ProxyManager.meta_items proxy_meta))))
             = Dict.get key (Request.meta request)).
  { intros key Hkey. unfold Dict.update, ProxyManager.meta_items. cbn [fold_left fst snd].
    rewrite !DictFacts.get_set.
    repeat match goal with
           | |- context [String.eqb key ?k] =>
               destruct (String.eqb_spec key k) as [E|_];
               [exfalso; apply Hkey; subst key; cbn; tauto|]
           end.
    reflexivity. }
  destruct (Dict.mem "User-Agent" (Request.headers request)) eqn:Hua; cbn [negb] in H.
  - injection H as <- <-.
    cbn [Request.url Request.meta Request.headers Request.set_meta].
    repeat split; auto.
  - apply bind_Return_inv in H. destruct H as (ua & mw3 & w3 & Hget & H).
    injection H as <- <-.
    cbn [Request.url Request.meta Request.headers Request.set_meta Request.set_headers].
    repeat split; auto.
    + intros header Hh. rewrite DictFacts.get_set.
      destruct (String.eqb_spec header "User-Agent"); [contradiction | reflexivity].
    + discriminate.
Qed.

Lemma process_request_touches_only_its_own_entries_witness :
  Request.url Examples.proxied_request = Request.url Examples.plain_request
  /\ Dict.get "skip_brightdata_proxy" (Request.meta Examples.proxied_request)
     = Dict.get "skip_brightdata_proxy" (Request.meta Examples.plain_request)
  /\ Dict.get "Accept" (Request.headers Examples.proxied_request)
     = Dict.get "Accept" (Request.headers Examples.plain_request).
Proof.
  destruct (@process_request_touches_only_its_own_entries
              ProxyManager.session_config_call 1 Examples.middleware Examples.world
              Examples.plain_request Examples.proxied_request Nothing)
    as (_ & Hurl & Hmeta & Hheaders & _).
  - vm_compute. reflexivity.
  - split; [exact Hurl|]. split.
    + apply Hmeta. cbn. intros H.
      repeat (destruct H as [H|H]; [discriminate|]). exact H.
    + apply Hheaders. discriminate.
Defined.

(** ** When a retry is handed back *)

Lemma hoare_record_failure_same_retries (mw : Middleware.t) (session_id : Value)
    (error_type : string) :
  hoare (same_retries mw) (Middleware.record_failure session_id error_type)
        (fun _ => same_retries mw) (fun _ _ => False).
Proof.
  intros s w0 H0. destruct session_id; cbn [Middleware.record_failure]; try exact H0.
  unfold Middleware.on_proxy_manager, on_field.
  pose proof (record_failure_returns s0 error_type (Middleware.proxy_manager s) w0) as Hr.
  unfold outcome_of in Hr.
  destruct (ProxyManager.record_failure _ _ _ _) as [[o pm'] w']. cbn in Hr. subst o.
  exact H0.
Qed.

(** The part of the two hooks after the outcome is recorded: a retry when
    [retry] says so, and [otherwise] when not. *)
Lemma hoare_retry_when (mw : Middleware.t) (request : Request.t) (count : Z)
    (should_retry : M Middleware.t bool) (allowed : bool) (otherwise : HookResult) :
  Request.meta_get "brightdata_retry_count" (VInt 0) request = VInt count ->
  hoare (same_retries mw) should_retry
        (fun retry s w => retry = allowed) (fun _ _ => False) ->
  hoare (same_retries mw)
        (retry <- should_retry ;;
         if retry
         then new_request <- Middleware._retry_with_different_proxy request ;;
              ret (NewRequest new_request)
         else ret otherwise)
        (fun res _ _ =>
           if allowed
           then exists new_request,
                  res = NewRequest new_request
                  /\ Request.url new_request = Request.url request
                  /\ Request.headers new_request = Request.headers request
                  /\ Dict.get "brightdata_retry_count" (Request.meta new_request)
                     = Some (VInt (count + 1))
                  /\ Dict.get "proxy_session_id" (Request.meta new_request) = None
           else res = otherwise)
        (fun _ _ => False).
Proof.
  intros Hc Hshould.
  eapply hoare_bind; [exact Hshould|].
  intros retry s w ->. destruct allowed.
  - destruct (@retry_directive request count s w Hc)
      as (nr & Hr & Hurl & Hh & H1 & _ & H3 & _).
    unfold bind. rewrite Hr. cbn. exists nr. repeat split; assumption.
  - cbn. reflexivity.
Qed.

(** X20.  For a proxied request with a session id, a numeric start time and
    an integer retry count, [process_response] returns, either the
    response or a retry; it is a retry exactly when the status is 403,
    429, 502, 503 or 504 and the count is below [max_retries].  The retry
    has the URL and headers of the request, the count one higher, and no
    session id. *)
Theorem process_response_retries_exactly_when_allowed :
  forall (mw : Middleware.t) (w : World) (request : Request.t) (response : Response.t)
         (session_id : string) (count : Z),
    truthy (Request.meta_get "brightdata_enabled" VNone request) = true ->
    Request.meta_get "proxy_session_id" VNone request = VStr session_id ->
    micro (Request.meta_get "request_start_time" (VInt 0) request) <> None ->
    Request.meta_get "brightdata_retry_count" (VInt 0) request = VInt count ->
    match outcome_of (Middleware.process_response request response mw w) with
    | Return (NewRequest new_request) =>
        In (Response.status response) [403; 429; 502; 503; 504]
        /\ count < Middleware.max_retries mw
        /\ Request.url new_request = Request.url request
        /\ Request.headers new_request = Request.headers request
        /\ Dict.get "brightdata_retry_count" (Request.meta new_request)
           = Some (VInt (count + 1))
        /\ Dict.get "proxy_session_id" (Request.meta new_request) = None
    | Return (PassResponse passed) =>
        passed = response
        /\ ~ (In (Response.status response) [403; 429; 502; 503; 504]
              /\ count < Middleware.max_retries mw)
    | _ => False
    end.
Proof.
  intros mw w request response session_id count Hp Hs Ht Hc.
  set (retry_statuses := [403; 429; 502; 503; 504]).
  set (Q := fun (res : HookResult) (_ : Middleware.t) (_ : World) =>
              match res with
              | NewRequest new_request =>
                  In (Response.status response) retry_statuses
                  /\ count < Middleware.max_retries mw
                  /\ Request.url new_request = Request.url request
                  /\ Request.headers new_request = Request.headers request
                  /\ Dict.get "brightdata_retry_count" (Request.meta new_request)
                     = Some (VInt (count + 1))
                  /\ Dict.get "proxy_session_id" (Request.meta new_request) = None
              | PassResponse passed =>
                  passed = response
                  /\ ~ (In (Response.status response) retry_statuses
                        /\ count < Middleware.max_retries mw)
              | Nothing => False
              end).
  assert (Hin : forall status,
             existsb (Z.eqb status) retry_statuses = true <-> In status retry_statuses).
  { intros status. rewrite existsb_exists. split.
    - intros (x & Hx & E). apply Z.eqb_eq in E. subst x. exact Hx.
    - intros Hx. exists status. split; [exact Hx | apply Z.eqb_refl]. }
  assert (H : hoare (same_retries mw) (Middleware.process_response request response) Q
                (fun _ _ => False)).
  { unfold Middleware.process_response.
    rewrite Hp, Hs. cbn [negb]. cbv zeta.
    destruct (micro (Request.meta_get "request_start_time" (VInt 0) request)) as [start|];
      [|contradiction].
    eapply hoare_bind with (R := fun _ => same_retries mw).
    { destruct (0 <? start).
      - eapply hoare_bind with (R := fun _ => same_retries mw).
        + apply hoare_now. auto.
        + intros n. apply hoare_ret. auto.
      - apply hoare_ret. auto. }
    intros response_time.
    destruct (Middleware._is_successful_response response) eqn:Hok.
    - eapply hoare_bind with (R := fun _ => same_retries mw).
      { intros s w0 H0. cbn [Middleware.record_success].
        unfold Middleware.on_proxy_manager, on_field.
        pose proof (record_success_returns session_id response_time
                      (Middleware.proxy_manager s) w0) as Hr.
        unfold outcome_of in Hr.
        destruct (ProxyManager.record_success _ _ _ _) as [[o pm'] w']. cbn in Hr. subst o.
        exact H0. }
      intros _.
      eapply hoare_bind with (R := fun _ => same_retries mw); [apply hoare_modify; auto|].
      intros _.
      eapply hoare_bind with (R := fun _ => same_retries mw); [apply hoare_ret; auto|].
      intros _. apply hoare_ret. intros s w0 _. unfold Q. split; [reflexivity|].
      intros [Hst _]. destruct response as [status]. cbn in Hst, Hok.
      destruct Hst as [<-|[<-|[<-|[<-|[<-|[]]]]]]; discriminate.
    - eapply hoare_bind; [apply hoare_record_failure_same_retries|]. intros ?.
      eapply hoare_bind with (R := fun _ => same_retries mw); [apply hoare_modify; auto|].
      intros _.
      eapply hoare_bind with (R := fun _ => same_retries mw); [apply hoare_ret; auto|].
      intros _.
      eapply hoare_conseq.
      + apply hoare_retry_when
          with (count := count)
               (allowed := negb (Middleware.max_retries mw <=? count)
                           && existsb (Z.eqb (Response.status response)) retry_statuses);
          [exact Hc|].
        intros s w0 H0.
        unfold Middleware._should_retry_with_different_proxy, bind, get_self,
          Middleware.retries_exhausted.
        rewrite Hc. cbn [micro lift_result]. unfold same_retries in H0. rewrite H0.
        assert (E : (Middleware.max_retries mw * microseconds_per_second
                     <=? count * microseconds_per_second)
                    = (Middleware.max_retries mw <=? count)).
        { unfold microseconds_per_second.
          destruct (Z.leb_spec (Middleware.max_retries mw) count);
            [apply Z.leb_le | apply Z.leb_gt]; lia. }
        rewrite E. destruct (Middleware.max_retries mw <=? count); reflexivity.
      + auto.
      + intros res s w0 Hres. unfold Q.
        destruct (Z.leb_spec (Middleware.max_retries mw) count) as [Hle|Hlt];
          cbn [negb andb] in Hres.
        * subst res. split; [reflexivity|]. intros [_ Hlt]. lia.
        * destruct (existsb _ retry_statuses) eqn:Ex.
          -- destruct Hres as (nr & -> & H1 & H2 & H3 & H4).
             apply Hin in Ex. repeat split; assumption.
          -- subst res. split; [reflexivity|]. intros [Hst _].
             apply Hin in Hst. congruence.
      + auto. }
  specialize (H mw w eq_refl). unfold outcome_of.
  destruct (Middleware.process_response request response mw w) as [[[res|e|] s'] w'];
    try contradiction.
  destruct res; exact H.
Qed.

Lemma process_response_retries_exactly_when_allowed_witness :
  match outcome_of (Middleware.process_response Examples.proxied_request (Response.mk 503)
                      Examples.middleware_in_flight Examples.world_in_flight) with
  | Return (NewRequest new_request) =>
      In 503 [403; 429; 502; 503; 504]
      /\ 0 < Middleware.max_retries Examples.middleware_in_flight
      /\ Request.url new_request = Request.url Examples.proxied_request
      /\ Request.headers new_request = Request.headers Examples.proxied_request
      /\ Dict.get "brightdata_retry_count" (Request.meta new_request) = Some (VInt (0 + 1))
      /\ Dict.get "proxy_session_id" (Request.meta new_request) = None
  | Return (PassResponse passed) =>
      passed = Response.mk 503
      /\ ~ (In 503 [403; 429; 502; 503; 504]
            /\ 0 < Middleware.max_retries Examples.middleware_in_flight)
  | _ => False
  end.
Proof.
  apply (@process_response_retries_exactly_when_allowed
           Examples.middleware_in_flight Examples.world_in_flight
           Examples.proxied_request (Response.mk 503) Examples.session_id 0).
  - vm_compute. reflexivity.
  - vm_compute. reflexivity.
  - vm_compute. discriminate.
  - vm_compute. reflexivity.
Defined.

(** X21.  For a proxied request whose session id is a string or missing
    and whose retry count is an integer, [process_exception] returns,
    either nothing or a retry; it is a retry exactly when the exception is
    a timeout, a DNS lookup error or a refused connection and the count is
    below [max_retries]. *)
Theorem process_exception_retries_exactly_when_allowed :
  forall (mw : Middleware.t) (w : World) (request : Request.t)
         (exception : DownloadException) (session_id : string) (count : Z),
    truthy (Request.meta_get "brightdata_enabled" VNone request) = true ->
    Request.meta_get "proxy_session_id" (VStr "unknown") request = VStr session_id ->
    Request.meta_get "brightdata_retry_count" (VInt 0) request = VInt count ->
    match outcome_of (Middleware.process_exception request exception mw w) with
    | Return (NewRequest new_request) =>
        exception <> OtherException
        /\ count < Middleware.max_retries mw
        /\ Request.url new_request = Request.url request
        /\ Request.headers new_request = Request.headers request
        /\ Dict.get "brightdata_retry_count" (Request.meta new_request)
           = Some (VInt (count + 1))
        /\ Dict.get "proxy_session_id" (Request.meta new_request) = None
    | Return Nothing =>
        ~ (exception <> OtherException /\ count < Middleware.max_retries mw)
    | _ => False
    end.
Proof.
  intros mw w request exception session_id count Hp Hs Hc.
  set (Q := fun (res : HookResult) (_ : Middleware.t) (_ : World) =>
              match res with
              | NewRequest new_request =>
                  exception <> OtherException
                  /\ count < Middleware.max_retries mw
                  /\ Request.url new_request = Request.url request
                  /\ Request.headers new_request = Request.headers request
                  /\ Dict.get "brightdata_retry_count" (Request.meta new_request)
                     = Some (VInt (count + 1))
                  /\ Dict.get "proxy_session_id" (Request.meta new_request) = None
              | Nothing =>
                  ~ (exception <> OtherException /\ count < Middleware.max_retries mw)
              | PassResponse _ => False
              end).
  assert (H : hoare (same_retries mw) (Middleware.process_exception request exception) Q
                (fun _ _ => False)).
  { unfold Middleware.process_exception.
    rewrite Hp, Hs. cbn [negb]. cbv zeta.
    eapply hoare_bind; [apply hoare_record_failure_same_retries|]. intros ?.
    eapply hoare_bind with (R := fun _ => same_retries mw); [apply hoare_modify; auto|].
    intros _.
    eapply hoare_bind with (R := fun _ => same_retries mw); [apply hoare_ret; auto|].
    intros _.
    eapply hoare_conseq.
    + apply hoare_retry_when
        with (count := count)
             (allowed := negb (Middleware.max_retries mw <=? count)
                         && match exception with
                            | OtherException => false
                            | _ => true
                            end);
        [exact Hc|].
      intros s w0 H0.
      unfold Middleware._should_retry_exception_with_different_proxy, bind, get_self,
        Middleware.retries_exhausted.
      rewrite Hc. cbn [micro lift_result]. unfold same_retries in H0. rewrite H0.
      assert (E : (Middleware.max_retries mw * microseconds_per_second
                   <=? count * microseconds_per_second)
                  = (Middleware.max_retries mw <=? count)).
      { unfold microseconds_per_second.
        destruct (Z.leb_spec (Middleware.max_retries mw) count);
          [apply Z.leb_le | apply Z.leb_gt]; lia. }
      rewrite E. destruct (Middleware.max_retries mw <=? count); destruct exception;
        reflexivity.
    + auto.
    + intros res s w0 Hres. unfold Q.
      destruct (Z.leb_spec (Middleware.max_retries mw) count) as [Hle|Hlt];
        cbn [negb andb] in Hres.
      * subst res. intros [_ Hlt]. lia.
      * destruct exception; cbn in Hres;
          try (destruct Hres as (nr & -> & H1 & H2 & H3 & H4);
               repeat split; try assumption; discriminate).
        subst res. intros [Hne _]. apply Hne. reflexivity.
    + auto. }
  specialize (H mw w eq_refl). unfold outcome_of.
  destruct (Middleware.process_exception request exception mw w) as [[[res|e|] s'] w'];
    try contradiction.
  destruct res; exact H.
Qed.

Lemma process_exception_retries_exactly_when_allowed_witness :
  match outcome_of (Middleware.process_exception Examples.proxied_request TimeoutError
                      Examples.middleware_in_flight Examples.world_in_flight) with
  | Return (NewRequest new_request) =>
      TimeoutError <> OtherException
      /\ 0 < Middleware.max_retries Examples.middleware_in_flight
      /\ Request.url new_request = Request.url Examples.proxied_request
      /\ Request.headers new_request = Request.headers Examples.proxied_request
      /\ Dict.get "brightdata_retry_count" (Request.meta new_request) = Some (VInt (0 + 1))
      /\ Dict.get "proxy_session_id" (Request.meta new_request) = None
  | Return Nothing =>
      ~ (TimeoutError <> OtherException
         /\ 0 < Middleware.max_retries Examples.middleware_in_flight)
  | _ => False
  end.
Proof.
  apply (@process_exception_retries_exactly_when_allowed
           Examples.middleware_in_flight Examples.world_in_flight
           Examples.proxied_request TimeoutError Examples.session_id 0).
  - vm_compute. reflexivity.
  - vm_compute. reflexivity.
  - vm_compute. reflexivity.
Defined.

(** ** The session manager *)

(** X22.  [get_profile_for_session] finds a profile of the pool for every
    session id and every value of its hash: the index is within the list. *)
Theorem get_profile_for_session_never_fails :
  forall (session_id : string) (w : World),
    exists profile,
      UserAgentPool.get_profile_for_session session_id w = Some profile
      /\ In profile UserAgentPool.profiles.
Proof.
  intros session_id w. unfold UserAgentPool.get_profile_for_session.
  apply nth_error_mod. discriminate.
Qed.

(** ** Headers of a session *)

Lemma get_session_headers_runs (session_id : string) (base_headers : option (Dict.t string))
    (self : SessionManager.t) (w : World) :
  exists profile self' w',
    SessionManager.get_session_headers session_id base_headers self w
    = (Return (headers_of profile base_headers), self', w')
    /\ Dict.get session_id (SessionManager.session_profiles self') = Some profile
    /\ match Dict.get session_id (SessionManager.session_profiles self) with
       | Some stored => profile = stored /\ self' = self /\ w' = w
       | None =>
           UserAgentPool.get_profile_for_session session_id w = Some profile
           /\ self' = SessionManager.mk
                        (Dict.set session_id profile (SessionManager.session_profiles self))
                        (Dict.set session_id (clock w (reads w))
                                  (SessionManager.session_created_at self))
           /\ w' = after_reading w
       end.
Proof.
  unfold SessionManager.get_session_headers.
  unfold bind at 1, get_self at 1. cbv beta iota.
  destruct (Dict.get session_id (SessionManager.session_profiles self)) as [stored|] eqn:E.
  - exists stored, self, w. split; [reflexivity|]. split; [exact E|]. repeat split.
  - unfold UserAgentPool.get_profile_for_session.
    destruct (@nth_error_mod _ UserAgentPool.profiles (str_hash w session_id))
      as (profile & Hp & _); [discriminate|].
    exists profile. eexists. eexists.
    unfold bind at 1. unfold bind at 1. unfold SessionManager.profile_for_session at 1.
    unfold UserAgentPool.get_profile_for_session. rewrite Hp. cbv beta iota.
    split; [reflexivity|]. cbn [SessionManager.session_profiles].
    split; [rewrite DictFacts.get_set, String.eqb_refl; reflexivity|].
    repeat split.
Qed.

Lemma get_headers_of (profile : BrowserProfile.t) (base_headers : option (Dict.t string))
    (key : string) :
  Dict.get key (headers_of profile base_headers)
  = match (if (BrowserProfile.browser_name profile =? "Chrome")%string
           then Dict.get key (SessionManager.chrome_headers profile)
           else None) with
    | Some v => Some v
    | None =>
        match Dict.get key SessionManager.fixed_headers with
        | Some v => Some v
        | None =>
            match (match base_headers with
                   | Some base => Dict.get key base
                   | None => None
                   end) with
            | Some v => Some v
            | None => Dict.get key (BrowserProfile.to_headers profile)
            end
        end
    end.
Proof.
  unfold headers_of. cbv zeta.
  assert (Hfixed : NoDup (map fst SessionManager.fixed_headers)).
  { cbn. repeat constructor; cbn; intuition discriminate. }
  assert (Hchrome : NoDup (map fst (SessionManager.chrome_headers profile))).
  { cbn. repeat constructor; cbn; intuition discriminate. }
  assert (Hbase : Dict.get key
                    match base_headers with
                    | Some base =>
                        if (Dict.len base =? 0)%nat then BrowserProfile.to_headers profile
                        else Dict.update (BrowserProfile.to_headers profile) (Dict.items base)
                    | None => BrowserProfile.to_headers profile
                    end
                  = match (match base_headers with
                           | Some base => Dict.get key base
                           | None => None
                           end) with
                    | Some v => Some v
                    | None => Dict.get key (BrowserProfile.to_headers profile)
                    end).
  { destruct base_headers as [base|]; [|reflexivity].
    destruct (Dict.len base =? 0)%nat eqn:E.
    - apply Nat.eqb_eq in E. rewrite (get_of_empty key base E). reflexivity.
    - apply get_update_items. }
  destruct (BrowserProfile.browser_name profile =? "Chrome")%string.
  - rewrite (get_update _ _ _ Hchrome), (get_update _ _ _ Hfixed), Hbase. reflexivity.
  - rewrite (get_update _ _ _ Hfixed), Hbase. reflexivity.
Qed.

(** X23.  [get_session_headers] returns, with the profile of the session
    on record afterwards, and each header it returns comes from the first
    of these that has it: the Chrome client hints (for a Chrome profile),
    the seven fixed headers, the base headers, the headers of the
    profile. *)
Theorem session_headers_precedence :
  forall (session_id : string) (base_headers : option (Dict.t string))
         (self : SessionManager.t) (w : World),
    exists profile headers self' w',
      SessionManager.get_session_headers session_id base_headers self w
      = (Return headers, self', w')
      /\ SessionManager.get_session_profile session_id self' = Some profile
      /\ forall key,
           Dict.get key headers
           = match (if (BrowserProfile.browser_name profile =? "Chrome")%string
                    then Dict.get key (SessionManager.chrome_headers profile)
                    else None) with
             | Some v => Some v
             | None =>
                 match Dict.get key SessionManager.fixed_headers with
                 | Some v => Some v
                 | None =>
                     match (match base_headers with
                            | Some base => Dict.get key base
                            | None => None
                            end) with
                     | Some v => Some v
                     | None => Dict.get key (BrowserProfile.to_headers profile)
                     end
                 end
             end.
Proof.
  intros session_id base_headers self w.
  destruct (get_session_headers_runs session_id base_headers self w)
    as (profile & self' & w' & Hrun & Hp & _).
  exists profile, (headers_of profile base_headers), self', w'.
  split; [exact Hrun|]. split; [exact Hp|]. intros key. apply get_headers_of.
Qed.

(** X24.  A second call of [get_session_headers] for the same session and
    base headers returns the same headers and changes neither the manager
    nor the clock; and whatever base headers a later call brings, the
    profile of the session stays the one on record. *)
Theorem session_headers_are_sticky :
  forall (session_id : string) (base_headers other_headers : option (Dict.t string))
         (self : SessionManager.t) (w : World),
    let first := SessionManager.get_session_headers session_id base_headers self w in
    let again := SessionManager.get_session_headers session_id base_headers
                   (state_of first) (world_of first) in
    again = (outcome_of first, state_of first, world_of first)
    /\ SessionManager.get_session_profile session_id
         (state_of (SessionManager.get_session_headers session_id other_headers
                      (state_of first) (world_of first)))
       = SessionManager.get_session_profile session_id (state_of first).
Proof.
  intros session_id base_headers other_headers self w first again.
  destruct (get_session_headers_runs session_id base_headers self w)
    as (profile & self' & w' & Hrun & Hp & _).
  subst first again. rewrite Hrun. cbn [state_of world_of outcome_of fst snd].
  split.
  - destruct (get_session_headers_runs session_id base_headers self' w')
      as (profile2 & self2 & w2 & Hrun2 & _ & Hcase).
    rewrite Hp in Hcase. destruct Hcase as (-> & -> & ->). exact Hrun2.
  - destruct (get_session_headers_runs session_id other_headers self' w')
      as (profile2 & self2 & w2 & Hrun2 & _ & Hcase).
    rewrite Hp in Hcase. destruct Hcase as (-> & -> & ->). rewrite Hrun2. reflexivity.
Qed.

(** ** Forgetting the sessions that are gone *)

Lemma forget_sessions (ks : list string) (self : SessionManager.t) :
  fold_left
    (fun st session_id =>
       (fun self : SessionManager.t =>
          if Dict.mem session_id (SessionManager.session_created_at self)
          then SessionManager.mk (SessionManager.session_profiles self)
                 (Dict.del session_id (SessionManager.session_created_at self))
          else self)
         (SessionManager.mk (Dict.del session_id (SessionManager.session_profiles st))
                            (SessionManager.session_created_at st)))
    ks self
  = SessionManager.mk
      (fold_left (fun d k => Dict.del k d) ks (SessionManager.session_profiles self))
      (fold_left (fun d k => Dict.del k d) ks (SessionManager.session_created_at self)).
Proof.
  revert self. induction ks as [|k ks IH]; intros self; cbn [fold_left].
  - destruct self. reflexivity.
  - rewrite IH. cbn [SessionManager.session_profiles SessionManager.session_created_at].
    destruct (Dict.mem k (SessionManager.session_created_at self)) eqn:E; cbn; [reflexivity|].
    apply DictFacts.mem_false_get in E. rewrite (DictFacts.del_absent _ _ E). reflexivity.
Qed.

(** X25.  [cleanup_expired_sessions] returns and reads no clock; afterwards
    a session has a profile exactly when it had one and is among the
    active ids, with the same profile, and the creation time of a session
    that lost its profile is gone too. *)
Theorem cleanup_keeps_the_active_sessions :
  forall (active_session_ids : list string) (self : SessionManager.t) (w : World),
    exists self',
      SessionManager.cleanup_expired_sessions active_session_ids self w = (Return tt, self', w)
      /\ forall session_id,
           let active := existsb (String.eqb session_id) active_session_ids in
           SessionManager.get_session_profile session_id self'
           = (if active then SessionManager.get_session_profile session_id self else None)
           /\ Dict.get session_id (SessionManager.session_created_at self')
              = (if Dict.mem session_id (SessionManager.session_profiles self) && negb active
                 then None
                 else Dict.get session_id (SessionManager.session_created_at self)).
Proof.
  intros active_session_ids self w.
  unfold SessionManager.cleanup_expired_sessions, bind at 1, get_self at 1.
  cbv beta iota zeta.
  rewrite (forM_modify _
    (fun session_id st =>
       (fun self : SessionManager.t =>
          if Dict.mem session_id (SessionManager.session_created_at self)
          then SessionManager.mk (SessionManager.session_profiles self)
                 (Dict.del session_id (SessionManager.session_created_at self))
          else self)
         (SessionManager.mk (Dict.del session_id (SessionManager.session_profiles st))
                            (SessionManager.session_created_at st)))).
  rewrite forget_sessions.
  eexists. split; [reflexivity|].
  intros session_id. set (active := existsb (String.eqb session_id) active_session_ids).
  unfold SessionManager.get_session_profile.
  cbn [SessionManager.session_profiles SessionManager.session_created_at].
  rewrite !get_fold_del.
  rewrite (existsb_filter_keys session_id
             (fun sid => negb (existsb (String.eqb sid) active_session_ids))).
  fold active. split; [|reflexivity].
  destruct active; [rewrite andb_false_r; reflexivity|].
  rewrite andb_true_r.
  destruct (Dict.mem session_id (SessionManager.session_profiles self)) eqn:E; [reflexivity|].
  apply DictFacts.mem_false_get in E. exact E.
Qed.
